(** * Shell Runner: command templating and execution

    A shallow embedding of the command templating and execution subsystem of
    the Obsidian shell-runner plugin (class [TerminalExecutor] and the
    [executeUserCommand] flow that drives it), with the properties its
    specification states about it, followed by the parts of the plugin
    around it: the registration of the palette commands, the items of the
    command selector, the prompt modal and the result modal.

    Conventions of the model.
    - A JavaScript string is a [jsstring], a list of characters.  Characters
      are bytes ([ascii]): ASCII text is itself, and text outside ASCII is
      carried as bytes from 128 on, which no ASCII letter folds to under the
      [i] flag of a regular expression without the [u] flag.  The case
      functions ([toLowerCase], [toUpperCase], [ci_eq]) are those of
      JavaScript on ASCII text and leave the other bytes alone, whereas
      JavaScript maps some characters outside ASCII; a property that
      depends on the letter case of a keyword states that the keyword is
      ASCII ([ascii_text]).  Lengths are counted on ASCII text, where bytes
      and code units coincide.
    - A number that the plugin computes with is a non-negative integer held
      in a double; [number_add1] is the addition of one in doubles.
    - An optional property ([field?: T]) is an [option].
    - A computation that may throw returns a [completion]; user-visible
      effects (notices, modals, spawned processes) are recorded, in order, in
      a list of [Event]s.
    - What the plugin gets from outside (the shescape escaper, the regular
      expression engine on patterns beyond literal text, [path.join],
      [decodeURIComponent], the outcome of a child process) is a variable of
      the section that models the class, never a fixed choice.
    - Showing a notice and opening the result modal are taken not to throw;
      reading and writing the vault and writing the clipboard may throw, as
      the host decides. *)

From Stdlib Require Import Ascii String DecimalString DecimalN.
From Stdlib Require Import Bool Arith NArith ZArith Lia Permutation List.
Import ListNotations.

Set Implicit Arguments.

(** ** JavaScript strings *)

Definition jsstring := list ascii.

Definition js (s : string) : jsstring := list_ascii_of_string s.

Fixpoint str_eqb (a b : jsstring) : bool :=
  match a, b with
  | [], [] => true
  | x :: a', y :: b' => Ascii.eqb x y && str_eqb a' b'
  | _, _ => false
  end.

(** The double-quote character. *)
Definition dquote : ascii := "034"%char.

(** Truthiness of a string: only the empty string is falsy. *)
Definition truthy (s : jsstring) : bool :=
  match s with [] => false | _ :: _ => true end.

(** [a || b] on strings. *)
Definition str_or (a b : jsstring) : jsstring := if truthy a then a else b.

(** [x || ''] for an optional string property. *)
Definition or_empty (x : option jsstring) : jsstring :=
  match x with Some s => s | None => [] end.

(** [x || d] for an optional string property: absent and empty both give [d]. *)
Definition opt_or (x : option jsstring) (d : jsstring) : jsstring :=
  str_or (or_empty x) d.

Definition code (c : ascii) : N := N_of_ascii c.

Definition in_range (lo hi : N) (c : ascii) : bool :=
  (lo <=? code c)%N && (code c <=? hi)%N.

Definition is_upper (c : ascii) : bool := in_range 65 90 c.
Definition is_lower (c : ascii) : bool := in_range 97 122 c.
Definition is_digit (c : ascii) : bool := in_range 48 57 c.

Definition char_toUpperCase (c : ascii) : ascii :=
  if is_lower c then ascii_of_N (code c - 32) else c.

Definition char_toLowerCase (c : ascii) : ascii :=
  if is_upper c then ascii_of_N (code c + 32) else c.

(** [String.prototype.toLowerCase] and [toUpperCase] on ASCII text: the
    bytes from 128 on are left as they are. *)
Definition toLowerCase (s : jsstring) : jsstring := map char_toLowerCase s.
Definition toUpperCase (s : jsstring) : jsstring := map char_toUpperCase s.

(** Two characters match under the [i] flag when their canonical (upper-case)
    forms coincide.  An ASCII character matches ASCII characters only; two
    bytes from 128 on match when they are equal, which is less than the
    flag folds outside ASCII. *)
Definition ci_eq (a b : ascii) : bool :=
  Ascii.eqb (char_toUpperCase a) (char_toUpperCase b).

(** Text made of ASCII characters, on which the three definitions above are
    JavaScript's. *)
Definition ascii_text (s : jsstring) : bool :=
  forallb (fun c => (code c <? 128)%N) s.

(** [Number.prototype.toString] on a non-negative integer: its decimal
    digits. *)
Definition number_toString (n : N) : jsstring :=
  js (NilZero.string_of_uint (N.to_uint n)).

(** [n + 1] in doubles, for a non-negative integer [n] that a double holds:
    exact below 2^53; from there to 2^54 the doubles are the even integers
    and the sum, half way between two of them, goes to the one whose
    significand is even; beyond, the sum is [n]. *)
Definition number_add1 (n : N) : N :=
  if (n <? 9007199254740992)%N then (n + 1)%N
  else if (n <? 18014398509481984)%N && N.odd (n / 2) then (n + 2)%N
  else n.

(** Reading a decimal numeral back. *)
Definition parse_number (s : jsstring) : option N :=
  option_map N.of_uint (NilZero.uint_of_string (string_of_list_ascii s)).

(** [s.split(sep).pop()]: the text after the last separator. *)
Fixpoint take_while (p : ascii -> bool) (s : jsstring) : jsstring :=
  match s with
  | [] => []
  | c :: s' => if p c then c :: take_while p s' else []
  end.

Definition split_pop (sep : ascii) (s : jsstring) : jsstring :=
  rev (take_while (fun c => negb (Ascii.eqb c sep)) (rev s)).

(** [list.includes(x)] on a list of strings. *)
Definition includes (l : list jsstring) (x : jsstring) : bool :=
  existsb (str_eqb x) l.

(** ** Errors and completions *)

(** The [code] property of an error object, as the runtime sets it: absent,
    a number (the exit status of the child), or a string (a symbolic system
    error name such as ENOENT). *)
Inductive JsCode :=
| CodeAbsent
| CodeNum (z : Z)
| CodeStr (s : jsstring).

(** An error value caught by [catch (error: any)], with the properties the
    plugin reads from it. *)
Record JsError := mkError {
  err_message : option jsstring;
  err_code : JsCode;
  err_stdout : option jsstring;
  err_stderr : option jsstring
}.

Inductive completion (A : Type) :=
| Returned (a : A)
| Thrown (e : JsError).

Arguments Returned {A} a.
Arguments Thrown {A} e.

Definition bind {A B} (c : completion A) (k : A -> completion B) : completion B :=
  match c with
  | Returned a => k a
  | Thrown e => Thrown e
  end.

(** [code || -1]: a falsy code (absent, [0], the empty string) gives [-1]. *)
Definition code_or_minus1 (c : JsCode) : JsCode :=
  match c with
  | CodeAbsent => CodeNum (-1)
  | CodeNum z => if Z.eqb z 0 then CodeNum (-1) else CodeNum z
  | CodeStr s => if truthy s then CodeStr s else CodeNum (-1)
  end.

(** ** Regular-expression replacement

    [String.prototype.replace(regex, replacement)] with a global,
    case-insensitive regular expression whose source is literal text. *)

(** GetSubstitution: the replacement text is a template in which [$$] stands
    for a dollar sign, [$&] for the matched text, [$`] for the text before
    the match and [$'] for the text after it.  The regular expressions of
    this program have no capture groups, so [$1] and the like stay as they
    are. *)
Fixpoint GetSubstitution (repl matched before after : jsstring) : jsstring :=
  match repl with
  | [] => []
  | c :: tl =>
      if Ascii.eqb c "$" then
        match tl with
        | d :: rest =>
            if Ascii.eqb d "$" then "$"%char :: GetSubstitution rest matched before after
            else if Ascii.eqb d "&" then matched ++ GetSubstitution rest matched before after
            else if Ascii.eqb d "`" then before ++ GetSubstitution rest matched before after
            else if Ascii.eqb d "'" then after ++ GetSubstitution rest matched before after
            else c :: GetSubstitution tl matched before after
        | [] => [c]
        end
      else c :: GetSubstitution tl matched before after
  end.

(** The pattern matches at the head of [s], letter case ignored. *)
Fixpoint ci_prefix (pat s : jsstring) : bool :=
  match pat, s with
  | [], _ => true
  | _ :: _, [] => false
  | p :: pat', c :: s' => ci_eq p c && ci_prefix pat' s'
  end.

(** One left-to-right scan: [before] is the text already passed, [skip] the
    number of characters still covered by the last match.  Matches do not
    overlap and inserted text is not scanned again by the same scan. *)
Fixpoint replace_scan (pat repl before s : jsstring) (skip : nat) {struct s}
  : jsstring :=
  match s with
  | [] => []
  | c :: s' =>
      match skip with
      | S k => replace_scan pat repl (before ++ [c]) s' k
      | O =>
          if ci_prefix pat s then
            GetSubstitution repl (firstn (length pat) s) before
                            (skipn (length pat) s)
            ++ replace_scan pat repl (before ++ [c]) s' (length pat - 1)
          else c :: replace_scan pat repl (before ++ [c]) s' 0
      end
  end.

(** [s.replace(new RegExp(pat, 'gi'), repl)] for a non-empty literal [pat]. *)
Definition replace_all_ci (pat repl s : jsstring) : jsstring :=
  replace_scan pat repl [] s 0.

Definition is_brace (c : ascii) : bool :=
  Ascii.eqb c "{" || Ascii.eqb c "}".

(** Characters with a meaning of their own in a regular-expression source. *)
Definition regex_syntax (c : ascii) : bool :=
  existsb (Ascii.eqb c) (js "\^$.*+?()[]{}|").

(** [placeholder.replace(/[{}]/g, '\\$&')]: a backslash before each brace. *)
Definition escape_braces (p : jsstring) : jsstring :=
  flat_map (fun c => if is_brace c then ["\"%char; c] else [c]) p.

(** Reading a regular-expression source as literal text: escaped braces and
    characters without regular-expression meaning.  [None] for every other
    source. *)
Fixpoint literal_source (src : jsstring) : option jsstring :=
  match src with
  | [] => Some []
  | c :: tl =>
      if Ascii.eqb c "\" then
        match tl with
        | d :: rest =>
            if is_brace d then option_map (cons d) (literal_source rest)
            else None
        | [] => None
        end
      else if regex_syntax c then None
      else option_map (cons c) (literal_source tl)
  end.

(** ** Data model (types/index.ts) *)

Record PromptConfig := mkPrompt {
  prompt_name : jsstring;
  prompt_displayName : jsstring
}.

Record CommandScript := mkScript {
  script_id : jsstring;
  script_name : jsstring;
  script_description : option jsstring;
  script_command : jsstring;
  workingDirectory : option jsstring;
  useAbsolutePath : option bool;
  backgroundExecution : option bool;
  script_prompts : option (list PromptConfig);
  defaultAction : option jsstring;
  enabled : bool
}.

Record CursorPosition := mkCursor { line : N; ch : N }.

(** [prompts] is the record of prompt values in the order [Object.entries]
    lists it. *)
Record ParameterContext := mkContext {
  activeNote : option jsstring;
  activeNotePath : option jsstring;
  activeNoteContent : option jsstring;
  selectedText : option jsstring;
  currentDirectory : option jsstring;
  vaultPath : option jsstring;
  currentLine : option jsstring;
  currentLineNumber : option N;
  cursorPosition : option CursorPosition;
  prompts : option (list (jsstring * jsstring))
}.

(** [exitCode] is declared a number; what is stored is [error.code || -1],
    whatever the runtime put in [error.code]. *)
Record CommandExecutionResult := mkResult {
  success : bool;
  output : jsstring;
  error : jsstring;
  exitCode : JsCode;
  command : jsstring;
  originalCommand : jsstring;
  parameters : ParameterContext
}.

Record PluginSettings := mkSettings {
  defaultWorkingDirectory : jsstring;
  showNotifications : bool;
  maxOutputLength : N;
  shellProgram : jsstring;
  useLoginShell : bool
}.

(** [flag] read in a condition: an absent flag is falsy. *)
Definition flag (b : option bool) : bool :=
  match b with Some true => true | _ => false end.

(** ** The host application and the child processes *)

Record TFile := mkFile {
  file_basename : jsstring;
  file_path : jsstring;
  file_parent : option jsstring
}.

Record Editor := mkEditor {
  getSelection : jsstring;
  getCursor : CursorPosition;
  getLine : N -> jsstring
}.

Record MarkdownView := mkView {
  view_editor : option Editor;
  view_file : option TFile
}.

(** The state of the host at one moment, as the plugin reads it. *)
Record App := mkApp {
  getResourcePath : completion jsstring;
  basePath : option jsstring;
  getActiveFile : option TFile;
  getActiveView : option MarkdownView;
  vault_read : TFile -> completion jsstring;
  vault_modify : TFile -> jsstring -> completion unit;
  clipboard_writeText : jsstring -> completion unit
}.

Record Process := mkProcess {
  platform : jsstring;
  env_COMSPEC : option jsstring;
  env_SHELL : option jsstring;
  cwd : jsstring
}.

Record ExecOptions := mkExecOptions {
  opt_cwd : jsstring;
  opt_timeout : N;
  opt_maxBuffer : N;
  opt_shell : option jsstring
}.

Inductive ExecRequest :=
| Exec (cmd : jsstring) (options : ExecOptions)
| ExecFile (file : jsstring) (args : list jsstring) (options : ExecOptions).

(** How the promisified [exec] / [execFile] settles. *)
Inductive ExecOutcome :=
| Resolved (stdout stderr : jsstring)
| Rejected (e : JsError).

Record SpawnRequest := mkSpawn {
  spawn_file : jsstring;
  spawn_args : list jsstring;
  spawn_cwd : jsstring;
  spawn_detached : bool;
  spawn_stdio : jsstring
}.

(** How [spawn] goes: the child starts; or the child object is returned and
    later emits an [error] event; or [spawn] itself throws. *)
Inductive SpawnOutcome :=
| Spawned
| SpawnedThenError (e : JsError)
| SpawnThrows (e : JsError).

(** What a run does, in order.  [ResultCreated r] marks the evaluation of
    an object literal of type CommandExecutionResult; [ChildProcess] and
    [Spawn] are the calls into child_process; the last five are what the
    user is shown or what is changed in the host. *)
Inductive Event :=
| Notice (message : jsstring) (duration : option N)
| ResultCreated (r : CommandExecutionResult)
| ChildProcess (req : ExecRequest)
| Spawn (req : SpawnRequest)
| Unref
| ModalOpen (r : CommandExecutionResult) (name : jsstring)
| ClipboardWrite (text : jsstring)
| ReplaceSelection (text : jsstring)
| ReplaceRange (text : jsstring) (at_cursor : CursorPosition)
| VaultModify (file : TFile) (content : jsstring).

(** An effectful computation: the events it caused and how it completed. *)
Definition M (A : Type) : Type := (list Event * completion A)%type.

Definition ret {A} (a : A) : M A := ([], Returned a).
Definition throw {A} (e : JsError) : M A := ([], Thrown e).
Definition emit (e : Event) : M unit := ([e], Returned tt).
Definition lift {A} (c : completion A) : M A := ([], c).

Definition mbind {A B} (m : M A) (k : A -> M B) : M B :=
  match m with
  | (ev, Returned a) => let (ev', c) := k a in (ev ++ ev', c)
  | (ev, Thrown e) => (ev, Thrown e)
  end.

(** [try { m } catch (error) { h error }] *)
Definition try_catch {A} (m : M A) (h : JsError -> M A) : M A :=
  match m with
  | (ev, Returned a) => (ev, Returned a)
  | (ev, Thrown e) => let (ev', c) := h e in (ev ++ ev', c)
  end.

Definition when (b : bool) (m : M unit) : M unit := if b then m else ret tt.

Declare Scope exec_scope.
Delimit Scope exec_scope with exec.
Notation "x <- m ;; k" := (mbind m (fun x => k))
  (at level 61, m at next level, right associativity) : exec_scope.
Notation "m ;; k" := (mbind m (fun _ => k))
  (at level 61, right associativity) : exec_scope.

Definition events {A} (m : M A) : list Event := fst m.
Definition outcome {A} (m : M A) : completion A := snd m.

(** The results built ([ResultCreated]) in a trace. *)
Fixpoint results_created (tr : list Event) : list CommandExecutionResult :=
  match tr with
  | [] => []
  | ResultCreated r :: tr' => r :: results_created tr'
  | _ :: tr' => results_created tr'
  end.

Definition is_notice (e : Event) : bool :=
  match e with Notice _ _ => true | _ => false end.

Definition is_presentation (e : Event) : bool :=
  match e with
  | ModalOpen _ _ | ClipboardWrite _ | ReplaceSelection _
  | ReplaceRange _ _ | VaultModify _ _ => true
  | _ => false
  end.

(** A trace in which nothing is presented: no modal, no default action. *)
Definition quiet (tr : list Event) : Prop :=
  forallb (fun ev => negb (is_presentation ev)) tr = true.

(** ** class TerminalExecutor *)

Section TerminalExecutor.

Local Open Scope exec_scope.

(** [this.settings] and the process the plugin runs in. *)
Variable settings : PluginSettings.
Variable process : Process.

(** [this.shescape.escape]: [Thrown] when the escaper throws. *)
Variable shescape_escape : jsstring -> completion jsstring.

(** [subject.replace(new RegExp(source, 'gi'), replacement)] for a source
    that is not literal text: the result of the replacement, or [Thrown]
    when the source is not a regular expression. *)
Variable regexp_replace_other :
  jsstring -> jsstring -> jsstring -> completion jsstring.

Variable path_join : jsstring -> jsstring -> jsstring.
Variable decodeURIComponent : jsstring -> completion jsstring.

(** The child processes: how each request settles. *)
Variable child_exec : ExecRequest -> ExecOutcome.
Variable child_spawn : SpawnRequest -> SpawnOutcome.

(** *** getVaultPath *)

Definition startsWith (p s : jsstring) : bool :=
  str_eqb (firstn (length p) s) p.

Definition getVaultPath (app : App) : jsstring :=
  let fallback := opt_or (basePath app) [] in
  match getResourcePath app with
  | Thrown _ => fallback
  | Returned resourcePath =>
      if startsWith (js "file://") resourcePath then
        match decodeURIComponent (skipn 7 resourcePath) with
        | Returned p => p
        | Thrown _ => fallback
        end
      else fallback
  end.

(** *** getParameterContext *)

Definition getParameterContext (app : App) : ParameterContext :=
  let file := getActiveFile app in
  let editor :=
    match getActiveView app with
    | Some v => view_editor v
    | None => None
    end in
  {| vaultPath := Some (getVaultPath app);
     activeNote := option_map file_basename file;
     activeNotePath := option_map file_path file;
     currentDirectory := option_map (fun f => or_empty (file_parent f)) file;
     activeNoteContent :=
       option_map (fun f => match vault_read app f with
                            | Returned s => s
                            | Thrown _ => []
                            end) file;
     selectedText :=
       match editor with
       | Some e => if truthy (getSelection e) then Some (getSelection e) else None
       | None => None
       end;
     cursorPosition := option_map getCursor editor;
     currentLineNumber := option_map (fun e => number_add1 (line (getCursor e))) editor;
     currentLine := option_map (fun e => getLine e (line (getCursor e))) editor;
     prompts := None |}.

(** [context.prompts = promptResults] *)
Definition with_prompts (context : ParameterContext)
           (promptResults : list (jsstring * jsstring)) : ParameterContext :=
  {| vaultPath := vaultPath context;
     activeNote := activeNote context;
     activeNotePath := activeNotePath context;
     currentDirectory := currentDirectory context;
     activeNoteContent := activeNoteContent context;
     selectedText := selectedText context;
     cursorPosition := cursorPosition context;
     currentLineNumber := currentLineNumber context;
     currentLine := currentLine context;
     prompts := Some promptResults |}.

(** *** escapeShellArgument *)

(** [\w]: letters, digits and the underscore. *)
Definition is_word (c : ascii) : bool :=
  is_upper c || is_lower c || is_digit c || Ascii.eqb c "_".

(** [/[^\w\-./]/.test(arg)] *)
Definition needs_quoting (arg : jsstring) : bool :=
  existsb (fun c => negb (is_word c || Ascii.eqb c "-" || Ascii.eqb c "."
                          || Ascii.eqb c "/")) arg.

(** [arg.replace(/"/g, '\\"')] *)
Definition escape_quotes (arg : jsstring) : jsstring :=
  flat_map (fun c => if Ascii.eqb c dquote then ["\"%char; c] else [c]) arg.

(** The body of the [catch] in [escapeShellArgument]. *)
Definition manual_escape (arg : jsstring) : jsstring :=
  if needs_quoting arg then dquote :: escape_quotes arg ++ [dquote]
  else arg.

Definition escapeShellArgument (arg : jsstring) : jsstring :=
  if negb (truthy arg) then [dquote; dquote]
  else match shescape_escape arg with
       | Returned escaped => escaped
       | Thrown _ => manual_escape arg
       end.

(** *** substituteParameters *)

(** A record with string keys, in insertion order: assigning to a key that
    is present keeps its place. *)
Definition record := list (jsstring * jsstring).

Fixpoint record_set (o : record) (k v : jsstring) : record :=
  match o with
  | [] => [(k, v)]
  | (k', v') :: o' =>
      if str_eqb k k' then (k, v) :: o' else (k', v') :: record_set o' k v
  end.

Fixpoint record_get (o : record) (k : jsstring) : option jsstring :=
  match o with
  | [] => None
  | (k', v') :: o' => if str_eqb k k' then Some v' else record_get o' k
  end.

Definition fixed_substitutions (context : ParameterContext) : record :=
  [ (js "{activenote}", or_empty (activeNote context));
    (js "{activenotepath}", or_empty (activeNotePath context));
    (js "{activenotecontent}", or_empty (activeNoteContent context));
    (js "{selectedtext}", or_empty (selectedText context));
    (js "{currentdir}", or_empty (currentDirectory context));
    (js "{vaultpath}", or_empty (vaultPath context));
    (js "{currentline}", or_empty (currentLine context));
    (js "{currentlinenumber}",
      or_empty (option_map number_toString (currentLineNumber context)));
    (js "{cursorline}",
      or_empty (option_map (fun p => number_toString (line p))
                           (cursorPosition context)));
    (js "{cursorcolumn}",
      or_empty (option_map (fun p => number_toString (ch p))
                           (cursorPosition context))) ].

Definition prompt_placeholder (name : jsstring) : jsstring :=
  js "{prompt:" ++ toLowerCase name ++ js "}".

Definition add_prompt (o : record) (entry : jsstring * jsstring) : record :=
  record_set o (prompt_placeholder (fst entry)) (snd entry).

Definition substitutions (context : ParameterContext) : record :=
  match prompts context with
  | Some entries => fold_left add_prompt entries (fixed_substitutions context)
  | None => fixed_substitutions context
  end.

(** [subject.replace(new RegExp(source, 'gi'), replacement)] *)
Definition regexp_replace (source subject replacement : jsstring)
  : completion jsstring :=
  match literal_source source with
  | Some (c :: pat) => Returned (replace_all_ci (c :: pat) replacement subject)
  | _ => regexp_replace_other source subject replacement
  end.

(** One turn of the loop over [Object.entries(substitutions)]. *)
Definition substitute_one (substituted : completion jsstring)
           (entry : jsstring * jsstring) : completion jsstring :=
  bind substituted (fun s =>
    regexp_replace (escape_braces (fst entry)) s
                   (escapeShellArgument (snd entry))).

Definition substituteParameters (command : jsstring)
           (context : ParameterContext) : completion jsstring :=
  fold_left substitute_one (substitutions context) (Returned command).

(** *** Shell resolution *)

Definition win32 : bool := str_eqb (platform process) (js "win32").

Definition supportedShells : list jsstring :=
  [js "bash"; js "zsh"; js "busybox"; js "csh"; js "dash"].

(** [shell.split('/').pop() || shell] *)
Definition shell_basename (shell : jsstring) : jsstring :=
  str_or (split_pop "/" shell) shell.

Definition detectDefaultShell : jsstring :=
  if win32 then opt_or (env_COMSPEC process) (js "cmd.exe")
  else
    match env_SHELL process with
    | Some systemShell =>
        if truthy systemShell
           && includes supportedShells (shell_basename systemShell)
        then systemShell
        else js "/bin/bash"
    | None => js "/bin/bash"
    end.

Definition getShellPath (shell : jsstring) : jsstring :=
  if win32 then
    if str_eqb shell (js "cmd") then js "cmd.exe"
    else if str_eqb shell (js "powershell") then js "powershell.exe"
    else js "cmd.exe"
  else
    if str_eqb shell (js "bash") then js "/bin/bash"
    else if str_eqb shell (js "zsh") then js "/bin/zsh"
    else if str_eqb shell (js "busybox") then js "/bin/busybox"
    else if str_eqb shell (js "csh") then js "/bin/csh"
    else if str_eqb shell (js "dash") then js "/bin/dash"
    else js "/bin/bash".

Definition getSelectedShell : jsstring :=
  if str_eqb (shellProgram settings) (js "auto") then detectDefaultShell
  else getShellPath (shellProgram settings).

(** Every branch of the [switch] returns the same flag. *)
Definition getLoginFlag (shell : jsstring) : option jsstring :=
  Some (js "-l").

Definition getShellWithLoginFlag : list jsstring :=
  let shell := getSelectedShell in
  if win32 || negb (useLoginShell settings) then [shell]
  else match getLoginFlag shell with
       | Some loginFlag => if truthy loginFlag then [shell; loginFlag] else [shell]
       | None => [shell]
       end.

Definition getShellDisplayName : jsstring :=
  if str_eqb (shellProgram settings) (js "auto") then
    let shell := detectDefaultShell in
    str_or (split_pop "/" shell) (str_or (split_pop "\" shell) shell)
    ++ js " (auto-detected)"
  else shellProgram settings.

(** *** Working directory (the same statements open [executeCommand] and
    [executeInTerminal]) *)

Definition base_directory (context : ParameterContext) : jsstring :=
  str_or (defaultWorkingDirectory settings)
         (str_or (or_empty (vaultPath context)) (cwd process)).

Definition workingDir (script : CommandScript) (context : ParameterContext)
  : jsstring :=
  let base := base_directory context in
  if truthy (or_empty (workingDirectory script)) then
    if flag (useAbsolutePath script) then or_empty (workingDirectory script)
    else path_join base (or_empty (workingDirectory script))
  else base.

(** *** performAction *)

Definition active_editor (app : App) : option Editor :=
  match getActiveView app with
  | Some v => view_editor v
  | None => None
  end.

Definition copyToClipboard (app : App) (text : jsstring) : M unit :=
  lift (clipboard_writeText app text) ;;
  emit (ClipboardWrite text) ;;
  emit (Notice (js "Copied to clipboard") None).

Definition replaceSelection (app : App) (text : jsstring) : M unit :=
  match active_editor app with
  | Some editor =>
      if truthy (getSelection editor) then
        emit (ReplaceSelection text) ;;
        emit (Notice (js "Selected text replaced") None)
      else emit (Notice (js "No text selected") None)
  | None => emit (Notice (js "No active editor") None)
  end.

Definition insertAtCursor (app : App) (text : jsstring) : M unit :=
  match active_editor app with
  | Some editor =>
      emit (ReplaceRange text (getCursor editor)) ;;
      emit (Notice (js "Text inserted at cursor") None)
  | None => emit (Notice (js "No active editor") None)
  end.

Definition appendToCurrentNote (app : App) (text : jsstring) : M unit :=
  match getActiveView app with
  | Some {| view_file := Some file |} =>
      currentContent <- lift (vault_read app file) ;;
      let newContent := currentContent ++ ["010"%char] ++ text in
      lift (vault_modify app file newContent) ;;
      emit (VaultModify file newContent) ;;
      emit (Notice (js "Text appended to current note") None)
  | _ => emit (Notice (js "No active note") None)
  end.

Definition performAction (app : App) (action : jsstring)
           (result : CommandExecutionResult) : M unit :=
  let output := output result in
  if str_eqb action (js "copy") then copyToClipboard app output
  else if str_eqb action (js "replace") then replaceSelection app output
  else if str_eqb action (js "insert") then insertAtCursor app output
  else if str_eqb action (js "append") then appendToCurrentNote app output
  else emit (Notice (js "Unknown action: " ++ action) None).

(** *** executeCommand *)

(** [s.length > 100 ? s.substring(0, 100) + '...' : s], on ASCII text (the
    code counts code units). *)
Definition preview (s : jsstring) : jsstring :=
  if 100 <? length s then firstn 100 s ++ js "..." else s.

(** [`${error.message}`] *)
Definition message_text (e : JsError) : jsstring :=
  match err_message e with Some m => m | None => js "undefined" end.

(** [await execAsync(...)] / [await execFileAsync(...)]: the promise either
    resolves with the captured streams or rejects. *)
Definition run_child (req : ExecRequest) : M (jsstring * jsstring) :=
  emit (ChildProcess req) ;;
  match child_exec req with
  | Resolved stdout stderr => ret (stdout, stderr)
  | Rejected e => throw e
  end.

Definition background (script : CommandScript) : bool :=
  flag (backgroundExecution script).

(** The call that runs the command: [execFile] on the shell with the
    login flag when there is one, [exec] with the shell as an option
    otherwise. *)
Definition exec_request (script : CommandScript)
           (substitutedCommand : jsstring) (context : ParameterContext)
  : ExecRequest :=
  let workingDir := workingDir script context in
  let shellCommand := getShellWithLoginFlag in
  let execOptions :=
    {| opt_cwd := workingDir; opt_timeout := 30000;
       opt_maxBuffer := maxOutputLength settings; opt_shell := None |} in
  if 1 <? length shellCommand then
    ExecFile (hd [] shellCommand)
             (tl shellCommand ++ [js "-c"; substitutedCommand]) execOptions
  else
    Exec substitutedCommand
         {| opt_cwd := workingDir; opt_timeout := 30000;
            opt_maxBuffer := maxOutputLength settings;
            opt_shell := Some (hd [] shellCommand) |}.

(** The result object built when the child succeeded. *)
Definition success_result (script : CommandScript)
           (substitutedCommand : jsstring) (context : ParameterContext)
           (result : jsstring * jsstring) : CommandExecutionResult :=
  {| success := true;
     output := str_or (fst result) [];
     error := str_or (snd result) [];
     exitCode := CodeNum 0;
     command := substitutedCommand;
     originalCommand := script_command script;
     parameters := context |}.

(** The result object built in the [catch]. *)
Definition failure_result (script : CommandScript)
           (substitutedCommand : jsstring) (context : ParameterContext)
           (error : JsError) : CommandExecutionResult :=
  {| success := false;
     output := opt_or (err_stdout error) [];
     error := opt_or (err_stderr error)
                     (opt_or (err_message error)
                             (js "An unknown error occurred."));
     exitCode := code_or_minus1 (err_code error);
     command := substitutedCommand;
     originalCommand := script_command script;
     parameters := context |}.

Definition executeCommand (app : App) (script : CommandScript)
           (substitutedCommand : jsstring) (context : ParameterContext)
  : M CommandExecutionResult :=
  try_catch
    (when (showNotifications settings)
          (if background script
           then emit (Notice (js "Running in background: " ++ script_name script) None)
           else emit (Notice (js "Executing: " ++ script_name script) None)) ;;
     result <- run_child (exec_request script substitutedCommand context) ;;
     let executionResult :=
       success_result script substitutedCommand context result in
     emit (ResultCreated executionResult) ;;
     when (showNotifications settings)
          (if background script then
             let outputPreview := preview (output executionResult) in
             emit (Notice (js "✅ " ++ script_name script ++ js " completed"
                           ++ (if truthy outputPreview
                               then js ": " ++ outputPreview else []))
                          (Some 5000%N))
           else emit (Notice (js "Completed: " ++ script_name script) None)) ;;
     when (negb (background script))
          (if truthy (or_empty (defaultAction script))
              && negb (str_eqb (or_empty (defaultAction script)) (js "none"))
           then performAction app (or_empty (defaultAction script)) executionResult
           else emit (ModalOpen executionResult (script_name script))) ;;
     ret executionResult)
    (fun err =>
     let executionResult :=
       failure_result script substitutedCommand context err in
     emit (ResultCreated executionResult) ;;
     when (showNotifications settings)
          (if background script then
             let errorPreview := preview (error executionResult) in
             emit (Notice (js "❌ " ++ script_name script ++ js " failed"
                           ++ (if truthy errorPreview
                               then js ": " ++ errorPreview else []))
                          (Some 7000%N))
           else emit (Notice (js "Execution failed: " ++ script_name script
                              ++ js " - " ++ error executionResult)
                             (Some 5000%N))) ;;
     when (negb (background script))
          (emit (ModalOpen executionResult (script_name script))) ;;
     ret executionResult).

(** *** executeInTerminal *)

(** [s.includes(sub)] *)
Fixpoint str_includes (sub s : jsstring) : bool :=
  startsWith sub s ||
  match s with
  | [] => false
  | _ :: s' => str_includes sub s'
  end.

(** The detached child that [executeInTerminal] spawns. *)
Definition terminal_request (script : CommandScript)
           (substitutedCommand : jsstring) (context : ParameterContext)
  : SpawnRequest :=
  let workingDir := workingDir script context in
  let shellCommand := getShellWithLoginFlag in
  let detached file args :=
    {| spawn_file := file; spawn_args := args; spawn_cwd := workingDir;
       spawn_detached := true; spawn_stdio := js "ignore" |} in
  if win32 then
    let selectedShell := hd [] shellCommand in
    if str_includes (js "powershell") selectedShell
    then detached (js "powershell.exe") [js "-Command"; substitutedCommand]
    else detached (js "cmd.exe") [js "/c"; substitutedCommand]
  else
    let spawnArgs :=
      if 1 <? length shellCommand
      then tl shellCommand ++ [js "-c"; substitutedCommand]
      else [js "-c"; substitutedCommand] in
    detached (hd [] shellCommand) spawnArgs.

Definition shell_failed (e : JsError) : Event :=
  Notice (js "Shell execution failed: " ++ message_text e) (Some 5000%N).

Definition executeInTerminal (script : CommandScript)
           (substitutedCommand : jsstring) (context : ParameterContext)
  : M unit :=
  try_catch
    (when (showNotifications settings)
          (emit (Notice (js "Executing in " ++ getShellDisplayName ++ js ": "
                         ++ script_name script) (Some 3000%N))) ;;
     let req := terminal_request script substitutedCommand context in
     emit (Spawn req) ;;
     match child_spawn req with
     | SpawnThrows e => throw e
     | Spawned => emit Unref
     | SpawnedThenError e => emit Unref ;; emit (shell_failed e)
     end)
    (fun error => emit (shell_failed error) ;; throw error).

(** *** executeUserCommand (the plugin's command callback; the command
    selector runs the same statements) *)

(** What the user does with the prompt modal: closes it, or submits the
    values typed for the prompts. *)
Inductive PromptAnswer :=
| Cancelled
| Submitted (promptResults : list (jsstring * jsstring)).

Definition substitute_and_execute (app : App) (script : CommandScript)
           (context : ParameterContext) : M unit :=
  substitutedCommand <- lift (substituteParameters (script_command script) context) ;;
  executeCommand app script substitutedCommand context ;;
  ret tt.

Definition command_failed (e : JsError) : M unit :=
  emit (Notice (js "Command execution failed: " ++ message_text e)
               (Some 5000%N)).

Definition has_prompts (script : CommandScript) : bool :=
  match script_prompts script with
  | Some (_ :: _) => true
  | _ => false
  end.

(** [app] is the host when the command is invoked, [app_done] the host
    when the child process has finished. *)
Definition executeUserCommand (app app_done : App) (script : CommandScript)
           (answer : PromptAnswer) : M unit :=
  try_catch
    (let context := getParameterContext app in
     if has_prompts script then
       match answer with
       | Cancelled => ret tt
       | Submitted promptResults =>
           try_catch
             (substitute_and_execute app_done script
                                     (with_prompts context promptResults))
             command_failed
       end
     else substitute_and_execute app_done script context)
    command_failed.

(** The context that [executeUserCommand] runs the command with: none
    when the prompt modal is closed without submitting. *)
Definition effective_context (app : App) (script : CommandScript)
           (answer : PromptAnswer) : option ParameterContext :=
  let context := getParameterContext app in
  if has_prompts script then
    match answer with
    | Cancelled => None
    | Submitted promptResults => Some (with_prompts context promptResults)
    end
  else Some context.

End TerminalExecutor.

(** ** The specification's reading of substitution, for comparison *)

Section Specification.

Variable shescape_escape : jsstring -> completion jsstring.

(** The first placeholder of the table that matches at the head of [s]. *)
Fixpoint first_match (table : list (jsstring * jsstring)) (s : jsstring)
  : option (jsstring * jsstring) :=
  match table with
  | [] => None
  | (placeholder, value) :: table' =>
      if ci_prefix placeholder s then Some (placeholder, value)
      else first_match table' s
  end.

(** One scan of the template against all placeholders at once: an
    occurrence is replaced by the escaped value as it is, and what was
    inserted is never looked at again. *)
Fixpoint single_pass_scan (table : list (jsstring * jsstring))
         (s : jsstring) (skip : nat) {struct s} : jsstring :=
  match s with
  | [] => []
  | c :: s' =>
      match skip with
      | S k => single_pass_scan table s' k
      | O =>
          match first_match table s with
          | Some (placeholder, value) =>
              escapeShellArgument shescape_escape value
              ++ single_pass_scan table s' (length placeholder - 1)
          | None => c :: single_pass_scan table s' 0
          end
      end
  end.

Definition single_pass (command : jsstring) (context : ParameterContext)
  : jsstring :=
  single_pass_scan (substitutions context) command 0.

End Specification.

(** ** Templates as pieces *)

(** A template cut into pieces: text without an opening brace, and tokens
    [{body}] whose body has no brace. *)
Inductive piece :=
| Text (s : jsstring)
| Braced (body : jsstring).

Definition render_piece (p : piece) : jsstring :=
  match p with
  | Text s => s
  | Braced body => "{"%char :: body ++ ["}"%char]
  end.

Definition render (ps : list piece) : jsstring := flat_map render_piece ps.

Definition no_brace (s : jsstring) : bool := forallb (fun c => negb (is_brace c)) s.
Definition no_open_brace (s : jsstring) : bool :=
  forallb (fun c => negb (Ascii.eqb c "{")) s.

Definition well_formed (p : piece) : bool :=
  match p with
  | Text s => no_open_brace s
  | Braced body => no_brace body
  end.

Definition wf (p : piece) : Prop := well_formed p = true.

(** The replacement patterns of GetSubstitution do not occur in [s]. *)
Fixpoint no_dollar_pattern (s : jsstring) : bool :=
  match s with
  | [] => true
  | c :: tl =>
      match tl with
      | d :: _ =>
          negb (Ascii.eqb c "$"
                && (Ascii.eqb d "$" || Ascii.eqb d "&" || Ascii.eqb d "`"
                    || Ascii.eqb d "'"))
          && no_dollar_pattern tl
      | [] => true
      end
  end.

(** Text that a later scan leaves alone and that [replace] inserts as it
    is. *)
Definition inert (s : jsstring) : bool := no_open_brace s && no_dollar_pattern s.

(** A keyword that is literal text in a regular expression. *)
Definition plain_keyword (name : jsstring) : bool :=
  forallb (fun c => negb (regex_syntax c)) name.

Definition plain_prompts (context : ParameterContext) : bool :=
  match prompts context with
  | Some entries => forallb (fun e => plain_keyword (fst e)) entries
  | None => true
  end.

(** Same length, and the same characters up to letter case. *)
Fixpoint ci_equal (a b : jsstring) : bool :=
  match a, b with
  | [], [] => true
  | x :: a', y :: b' => ci_eq x y && ci_equal a' b'
  | _, _ => false
  end.

(** A placeholder of the table: [{body}] with a body in lower case and free
    of regular-expression syntax (braces included). *)
Definition token (k : jsstring) : Prop :=
  exists body, k = "{"%char :: body ++ ["}"%char]
               /\ plain_keyword body = true
               /\ toLowerCase body = body.

Definition keys_are_tokens (o : record) : Prop :=
  Forall (fun entry => token (fst entry)) o.

(** One pass over the pieces: the occurrences of [placeholder] become the
    text [inserted]. *)
Definition pass (placeholder inserted : jsstring) (p : piece) : piece :=
  match p with
  | Text _ => p
  | Braced _ =>
      if str_eqb (toLowerCase (render_piece p)) placeholder
      then Text inserted else p
  end.

(** The piece [p] is an occurrence of [placeholder]. *)
Definition occurrence (placeholder : jsstring) (p : piece) : bool :=
  match p with
  | Text _ => false
  | Braced _ => str_eqb (toLowerCase (render_piece p)) placeholder
  end.

(** The passes of all the entries of a table, in order, over the pieces. *)
Definition passes (inserted : jsstring -> jsstring) (table : record)
           (ps : list piece) : list piece :=
  fold_left (fun ps entry => map (pass (fst entry) (inserted (snd entry))) ps)
            table ps.

(** What a piece becomes: the escaped value of its placeholder, or itself. *)
Definition substituted_piece (shescape_escape : jsstring -> completion jsstring)
           (context : ParameterContext) (p : piece) : jsstring :=
  match p with
  | Text s => s
  | Braced _ =>
      match record_get (substitutions context) (toLowerCase (render_piece p)) with
      | Some value => escapeShellArgument shescape_escape value
      | None => render_piece p
      end
  end.

(** ** The specification's reading of escaping, of the working directory and
    of failures, for comparison *)

Definition is_alnum (c : ascii) : bool := is_upper c || is_lower c || is_digit c.

(** A character that the manual fallback leaves alone: a word character
    (letter, digit, underscore), a dash, a dot or a slash. *)
Definition plain_char (c : ascii) : Prop :=
  is_alnum c = true \/ c = "_"%char \/ c = "-"%char \/ c = "."%char \/ c = "/"%char.

(** Specification: only alphanumerics, dash, dot and slash stay unquoted. *)
Definition spec_unquoted (arg : jsstring) : bool :=
  forallb (fun c => is_alnum c || Ascii.eqb c "-" || Ascii.eqb c "."
                    || Ascii.eqb c "/") arg.

Definition spec_manual_escape (arg : jsstring) : jsstring :=
  if spec_unquoted arg then arg else dquote :: escape_quotes arg ++ [dquote].

(** Specification: the working directory is the script's own one whenever
    [useAbsolutePath] is set. *)
Definition spec_workingDir (settings : PluginSettings) (process : Process)
           (path_join : jsstring -> jsstring -> jsstring)
           (script : CommandScript) (context : ParameterContext) : jsstring :=
  if flag (useAbsolutePath script) then or_empty (workingDirectory script)
  else if truthy (or_empty (workingDirectory script))
       then path_join (base_directory settings process context)
                      (or_empty (workingDirectory script))
       else base_directory settings process context.

(** The errors with which the runtime's [exec] and [execFile] reject.  A
    child that could not be started: [code] is the name of the system
    error.  A child that exited with a non-zero status: [code] is that
    status.  A child killed at the timeout: no [code].  Too much output:
    [code] names the limit. *)
Inductive Failure :=
| LaunchFailure (errname message : jsstring)
| NonZeroExit (status : Z) (message stdout stderr : jsstring)
| TimedOut (message stdout stderr : jsstring)
| OutputLimit (message stdout stderr : jsstring).

Definition rejection (f : Failure) : JsError :=
  match f with
  | LaunchFailure errname message =>
      mkError (Some message) (CodeStr errname) (Some []) (Some [])
  | NonZeroExit status message stdout stderr =>
      mkError (Some message) (CodeNum status) (Some stdout) (Some stderr)
  | TimedOut message stdout stderr =>
      mkError (Some message) CodeAbsent (Some stdout) (Some stderr)
  | OutputLimit message stdout stderr =>
      mkError (Some message) (CodeStr (js "ERR_CHILD_PROCESS_STDIO_MAXBUFFER"))
              (Some stdout) (Some stderr)
  end.

(** Specification: the exit code of a failure is the status the process
    reported, and [-1] when the process never started. *)
Definition spec_exitCode (f : Failure) : option JsCode :=
  match f with
  | LaunchFailure _ _ => Some (CodeNum (-1))
  | NonZeroExit status _ _ _ => Some (CodeNum status)
  | _ => None
  end.

(** ** Example inputs *)

Definition plain_error (message : string) : JsError :=
  mkError (Some (js message)) CodeAbsent None None.

(** An escaper that throws on every argument, so that the manual fallback
    runs. *)
Definition escaper_throws : jsstring -> completion jsstring :=
  fun _ => Thrown (plain_error "escape failed").

(** An escaper in the manner of a Unix shell dialect: a backslash before
    each character the shell would interpret. *)
Definition shell_special (c : ascii) : bool :=
  existsb (Ascii.eqb c) (js " $&'()*;<>?`{|\" ++ [dquote]).

Definition backslash_escaper : jsstring -> completion jsstring :=
  fun arg => Returned (flat_map (fun c => if shell_special c then ["\"%char; c]
                                          else [c]) arg).

Definition no_other_regexp : jsstring -> jsstring -> jsstring -> completion jsstring :=
  fun _ _ _ => Thrown (plain_error "Invalid regular expression").

Definition slash_join (a b : jsstring) : jsstring := a ++ "/"%char :: b.

Definition decode_as_is : jsstring -> completion jsstring := fun s => Returned s.

Definition empty_context : ParameterContext :=
  {| activeNote := None; activeNotePath := None; activeNoteContent := None;
     selectedText := None; currentDirectory := None; vaultPath := None;
     currentLine := None; currentLineNumber := None; cursorPosition := None;
     prompts := None |}.

Definition default_settings : PluginSettings :=
  {| defaultWorkingDirectory := []; showNotifications := true;
     maxOutputLength := 10000; shellProgram := js "auto";
     useLoginShell := false |}.

Definition work_settings : PluginSettings :=
  {| defaultWorkingDirectory := js "/work"; showNotifications := true;
     maxOutputLength := 10000; shellProgram := js "auto";
     useLoginShell := false |}.

Definition linux_process : Process :=
  {| platform := js "linux"; env_COMSPEC := None;
     env_SHELL := Some (js "/bin/zsh"); cwd := js "/home/me" |}.

Definition windows_process : Process :=
  {| platform := js "win32";
     env_COMSPEC := Some (js "C:\Windows\system32\cmd.exe");
     env_SHELL := None; cwd := js "C:\Users\me" |}.

Definition windows_without_comspec : Process :=
  {| platform := js "win32"; env_COMSPEC := None; env_SHELL := None;
     cwd := js "C:\Users\me" |}.

Definition fish_process : Process :=
  {| platform := js "linux"; env_COMSPEC := None;
     env_SHELL := Some (js "/usr/bin/fish"); cwd := js "/home/me" |}.

Definition process_without_shell : Process :=
  {| platform := js "darwin"; env_COMSPEC := None; env_SHELL := None;
     cwd := js "/Users/me" |}.

Definition example_script (cmd : string) : CommandScript :=
  {| script_id := js "example"; script_name := js "Example";
     script_description := None; script_command := js cmd;
     workingDirectory := None; useAbsolutePath := Some false;
     backgroundExecution := Some false; script_prompts := Some [];
     defaultAction := Some (js "none"); enabled := true |}.

(** A script with the two working-directory settings as given. *)
Definition script_in (wd : option jsstring) (absolute : option bool)
  : CommandScript :=
  {| script_id := js "example"; script_name := js "Example";
     script_description := None; script_command := js "pwd";
     workingDirectory := wd; useAbsolutePath := absolute;
     backgroundExecution := None; script_prompts := None;
     defaultAction := None; enabled := true |}.

Definition background_script (cmd : string) : CommandScript :=
  {| script_id := js "example"; script_name := js "Example";
     script_description := None; script_command := js cmd;
     workingDirectory := None; useAbsolutePath := Some false;
     backgroundExecution := Some true; script_prompts := Some [];
     defaultAction := Some (js "none"); enabled := true |}.

(** A host with no open document and no focused editor. *)
Definition idle_app : App :=
  {| getResourcePath := Returned (js "file:///vault");
     basePath := Some (js "/vault");
     getActiveFile := None;
     getActiveView := None;
     vault_read := fun _ => Returned [];
     vault_modify := fun _ _ => Returned tt;
     clipboard_writeText := fun _ => Returned tt |}.

(** A host with a note open and the cursor on the given line. *)
Definition editing_app (selection : string) (l c : N) : App :=
  let note := {| file_basename := js "note"; file_path := js "dir/note.md";
                 file_parent := Some (js "dir") |} in
  {| getResourcePath := Returned (js "file:///vault");
     basePath := Some (js "/vault");
     getActiveFile := Some note;
     getActiveView :=
       Some {| view_editor :=
                 Some {| getSelection := js selection;
                         getCursor := {| line := l; ch := c |};
                         getLine := fun _ => js "a line" |};
               view_file := Some note |};
     vault_read := fun _ => Returned (js "content");
     vault_modify := fun _ _ => Returned tt;
     clipboard_writeText := fun _ => Returned tt |}.

(** A command line too long for the system: [spawn] throws at once. *)
Definition argument_list_too_long : JsError :=
  mkError (Some (js "spawn E2BIG")) (CodeStr (js "E2BIG")) None None.

Definition spawn_throws : SpawnRequest -> SpawnOutcome :=
  fun _ => SpawnThrows argument_list_too_long.

(** A shell that does not exist: the child emits an [error] event. *)
Definition shell_not_found : Failure :=
  LaunchFailure (js "ENOENT") (js "spawn /bin/zsh ENOENT").

Definition spawn_fails_later : SpawnRequest -> SpawnOutcome :=
  fun _ => SpawnedThenError (rejection shell_not_found).

Definition spawn_succeeds : SpawnRequest -> SpawnOutcome := fun _ => Spawned.

(** The context of a user who has selected the text [{vaultpath}] in a
    note, in the vault [/vault]. *)
Definition selection_names_a_placeholder : ParameterContext :=
  getParameterContext decode_as_is (editing_app "{vaultpath}" 3 0).

(** Two prompts, the value typed for the first being the placeholder of
    the second. *)
Definition prompts_naming_each_other : ParameterContext :=
  with_prompts (getParameterContext decode_as_is idle_app)
               [(js "file", js "{prompt:dir}"); (js "dir", js "/tmp")].

Definition two_prompts : ParameterContext :=
  with_prompts (getParameterContext decode_as_is idle_app)
               [(js "File", js "notes.txt"); (js "dir", js "/tmp")].

(** The note [note] is open and there is a prompt of the same name. *)
Definition prompt_named_after_note : ParameterContext :=
  with_prompts (getParameterContext decode_as_is (editing_app "" 0 0))
               [(js "note", js "today")].

Definition child_succeeds (stdout : string) : ExecRequest -> ExecOutcome :=
  fun _ => Resolved (js stdout) [].

Definition child_fails (f : Failure) : ExecRequest -> ExecOutcome :=
  fun _ => Rejected (rejection f).

(** ** More of the plugin *)

(** The placeholder occurs somewhere in [s], letter case ignored. *)
Fixpoint ci_occurs (pat s : jsstring) : bool :=
  ci_prefix pat s ||
  match s with
  | [] => false
  | _ :: s' => ci_occurs pat s'
  end.

(** The prompt keywords of the context are ASCII text. *)
Definition ascii_prompts (context : ParameterContext) : bool :=
  match prompts context with
  | Some entries => forallb (fun e => ascii_text (fst e)) entries
  | None => true
  end.

(** The keys that come after the first entry for [k] in the table: their
    passes run after the pass of [k]. *)
Fixpoint keys_after (o : record) (k : jsstring) : list jsstring :=
  match o with
  | [] => []
  | (k', _) :: o' => if str_eqb k k' then map fst o' else keys_after o' k
  end.

(** The command line in a call of [exec] or [execFile]: the first argument
    of [exec], the last argument given to the shell by [execFile]. *)
Definition request_command (request : ExecRequest) : jsstring :=
  match request with
  | Exec cmd _ => cmd
  | ExecFile _ args _ => last args []
  end.

(** [ParameterHelpModal.getAvailableParameters] *)
Record ParameterHelp := mkParameterHelp {
  help_name : jsstring;
  help_description : jsstring;
  help_example : jsstring
}.

Definition getAvailableParameters : list ParameterHelp :=
  [ {| help_name := js "{activeNote}";
       help_description :=
         js "Current active note filename (without extension)";
       help_example := js "MyNote" |};
    {| help_name := js "{activeNotePath}";
       help_description := js "Full path of the current active note";
       help_example := js "folder/MyNote.md" |};
    {| help_name := js "{activeNoteContent}";
       help_description := js "Complete content of the current active note";
       help_example :=
         js "# My Note" ++ ["010"%char; "010"%char]
         ++ js "This is the content..." |};
    {| help_name := js "{selectedText}";
       help_description := js "Currently selected text";
       help_example := js "selected content" |};
    {| help_name := js "{currentDir}";
       help_description := js "Directory containing the current note";
       help_example := js "folder" |};
    {| help_name := js "{vaultPath}";
       help_description := js "Root path of the Obsidian vault";
       help_example := js "/Users/username/MyVault" |};
    {| help_name := js "{currentLine}";
       help_description :=
         js "Content of the current line where cursor is located";
       help_example := js "# This is a heading" |};
    {| help_name := js "{currentLineNumber}";
       help_description :=
         js "Line number where cursor is located (1-based)";
       help_example := js "42" |};
    {| help_name := js "{cursorLine}";
       help_description := js "Cursor line position (0-based)";
       help_example := js "41" |};
    {| help_name := js "{cursorColumn}";
       help_description := js "Cursor column position";
       help_example := js "15" |};
    {| help_name := js "{prompt:name}";
       help_description :=
         js "User input from prompt dialog (use prompt:keyword format)";
       help_example :=
         js "{prompt:filename}, {prompt:searchTerm}, {prompt:targetDir}" |} ].

(** The names that the help modal documents. *)
Definition documented_parameters : list jsstring :=
  map help_name getAvailableParameters.

(** *** getShellNameForShescape, createShescapeInstance,
    getDetectedShellName *)

Definition getShellNameForShescape (settings : PluginSettings)
           (process : Process) : jsstring :=
  if str_eqb (shellProgram settings) (js "auto") then
    if win32 process then js "powershell"
    else
      match env_SHELL process with
      | Some systemShell =>
          if truthy systemShell then
            let detectedShell := shell_basename systemShell in
            if includes supportedShells detectedShell then detectedShell
            else js "bash"
          else js "bash"
      | None => js "bash"
      end
  else shellProgram settings.

(** [new_Shescape name] is [new Shescape({ shell: name })]: the escaper of
    the dialect, or [Thrown] when the library refuses the name. *)
Definition createShescapeInstance
           (new_Shescape : jsstring -> completion (jsstring -> completion jsstring))
           (settings : PluginSettings) (process : Process)
  : completion (jsstring -> completion jsstring) :=
  match new_Shescape (getShellNameForShescape settings process) with
  | Returned escaper => Returned escaper
  | Thrown _ => new_Shescape (js "bash")
  end.

(** A library of escapers that can be told apart: it knows the five shells
    and the two of Windows, refuses every other name, and the escaper of a
    dialect puts a backslash before each blank and the name of the dialect
    before the argument. *)
Definition example_Shescape (name : jsstring)
  : completion (jsstring -> completion jsstring) :=
  if includes (supportedShells ++ [js "cmd"; js "powershell"]) name then
    Returned (fun arg =>
                Returned (name ++ ":"%char
                          :: flat_map (fun c => if Ascii.eqb c " "
                                                then ["\"%char; c] else [c])
                                      arg))
  else Thrown (plain_error "No executable could be found").

(** The settings after the shell program was set to [program]. *)
Definition settings_with_shell (program : string) : PluginSettings :=
  {| defaultWorkingDirectory := []; showNotifications := true;
     maxOutputLength := 10000; shellProgram := js program;
     useLoginShell := false |}.

(** [shell.split('/').pop() || shell.split('\\').pop() || shell] *)
Definition getDetectedShellName (process : Process) : jsstring :=
  let shell := detectDefaultShell process in
  str_or (split_pop "/" shell) (str_or (split_pop "\" shell) shell).

(** *** The palette commands of the plugin (main.ts) and the items of the
    command selector *)

(** The object given to [addCommand]; [palette_script] is the script that
    the callback runs. *)
Record PaletteCommand := mkPaletteCommand {
  palette_id : jsstring;
  palette_name : jsstring;
  palette_script : CommandScript
}.

(** The plugin's own list of registered ids, and the calls of [addCommand]
    that returned, in order. *)
Record Plugin := mkPlugin {
  registeredCommandIds : list jsstring;
  addedCommands : list PaletteCommand
}.

(** [`user-command-${script.id}`] *)
Definition commandId (script : CommandScript) : jsstring :=
  js "user-command-" ++ script_id script.

(** [`${script.name}${script.description ? ` - ${script.description}` : ''}`] *)
Definition name_and_description (script : CommandScript) : jsstring :=
  script_name script
  ++ (if truthy (or_empty (script_description script))
      then js " - " ++ or_empty (script_description script) else []).

Definition palette_command (script : CommandScript) : PaletteCommand :=
  {| palette_id := commandId script;
     palette_name := name_and_description script;
     palette_script := script |}.

Section Registration.

(** [this.addCommand]: returns, or throws. *)
Variable addCommand : PaletteCommand -> completion unit.

Definition registerSingleCommand (plugin : Plugin) (script : CommandScript)
  : Plugin :=
  if includes (registeredCommandIds plugin) (commandId script) then plugin
  else
    match addCommand (palette_command script) with
    | Returned _ =>
        {| registeredCommandIds :=
             registeredCommandIds plugin ++ [commandId script];
           addedCommands := addedCommands plugin ++ [palette_command script] |}
    | Thrown _ => plugin
    end.

(** [commands] is [this.settings.commands]. *)
Definition registerUserCommands (commands : list CommandScript)
           (plugin : Plugin) : Plugin :=
  fold_left registerSingleCommand (filter enabled commands) plugin.

Definition refreshUserCommands (commands : list CommandScript)
           (plugin : Plugin) : Plugin :=
  registerUserCommands commands plugin.

End Registration.

Record CommandSuggestion := mkSuggestion {
  suggestion_script : CommandScript;
  displayText : jsstring
}.

Definition formatDisplayText (script : CommandScript) : jsstring :=
  let text := script_name script in
  let text :=
    if truthy (or_empty (script_description script))
    then text ++ js " - " ++ or_empty (script_description script)
    else text in
  text ++ js " | " ++ script_command script.

Definition getItems (commands : list CommandScript) : list CommandSuggestion :=
  map (fun script => {| suggestion_script := script;
                        displayText := formatDisplayText script |})
      (filter enabled commands).

(** An [addCommand] that accepts everything. *)
Definition addCommand_returns : PaletteCommand -> completion unit :=
  fun _ => Returned tt.

Definition fresh_plugin : Plugin :=
  {| registeredCommandIds := []; addedCommands := [] |}.

(** A script with the given id, name and command. *)
Definition named_script (id name cmd : string) (on : bool) : CommandScript :=
  {| script_id := js id; script_name := js name;
     script_description := None; script_command := js cmd;
     workingDirectory := None; useAbsolutePath := Some false;
     backgroundExecution := Some false; script_prompts := Some [];
     defaultAction := Some (js "none"); enabled := on |}.

(** *** CommandResultModal: the status line, the text shown and the text
    the buttons act on *)

(** [code || d] *)
Definition code_or (c d : JsCode) : JsCode :=
  match c with
  | CodeAbsent => d
  | CodeNum z => if Z.eqb z 0 then d else CodeNum z
  | CodeStr s => if truthy s then CodeStr s else d
  end.

(** The exit code in the status line: [this.result.exitCode || 0] for a
    success, [this.result.exitCode || -1] for a failure. *)
Definition status_exit_code (result : CommandExecutionResult) : JsCode :=
  if success result then code_or (exitCode result) (CodeNum 0)
  else code_or (exitCode result) (CodeNum (-1)).

(** The text of the Execution Results section, when the modal has one. *)
Definition shown_content (result : CommandExecutionResult) : option jsstring :=
  if truthy (output result) || truthy (error result)
  then Some (str_or (output result) (str_or (error result) []))
  else None.

(** [this.result.output || ''], the text the four buttons act on. *)
Definition button_output (result : CommandExecutionResult) : jsstring :=
  str_or (output result) [].

(** The four buttons of the modal.  Each handler ends with [this.close()],
    which is reached unless an awaited call rejected before it. *)
Inductive ModalEvent :=
| Host (e : Event)
| Close.

Definition modal_run := (list ModalEvent * completion unit)%type.

(** A handler whose last statement is [this.close()]. *)
Definition then_close (body : M unit) : modal_run :=
  (map Host (events body)
   ++ match outcome body with Returned _ => [Close] | Thrown _ => [] end,
   outcome body).

Definition modal_copyToClipboard (app : App) (text : jsstring) : modal_run :=
  then_close
    (lift (clipboard_writeText app text) ;;
     emit (ClipboardWrite text) ;;
     emit (Notice (js "Copied to clipboard") None))%exec.

Definition modal_replaceSelection (app : App) (text : jsstring) : modal_run :=
  then_close
    (match active_editor app with
     | Some editor =>
         if truthy (getSelection editor) then
           emit (ReplaceSelection text) ;;
           emit (Notice (js "Selected text replaced") None)
         else emit (Notice (js "No text selected") None)
     | None => emit (Notice (js "No active editor") None)
     end)%exec.

Definition modal_insertAtCursor (app : App) (text : jsstring) : modal_run :=
  then_close
    (match active_editor app with
     | Some editor =>
         emit (ReplaceRange text (getCursor editor)) ;;
         emit (Notice (js "Inserted at cursor position") None)
     | None => emit (Notice (js "No active editor") None)
     end)%exec.

Definition modal_appendToCurrentNote (app : App) (text : jsstring)
  : modal_run :=
  then_close
    (match getActiveFile app with
     | Some activeFile =>
         try_catch
           (currentContent <- lift (vault_read app activeFile) ;;
            let newContent :=
              currentContent ++ ["010"%char; "010"%char] ++ text in
            lift (vault_modify app activeFile newContent) ;;
            emit (VaultModify activeFile newContent) ;;
            emit (Notice (js "Added to current note") None))
           (fun _ => emit (Notice (js "Failed to add to note") None))
     | None => emit (Notice (js "No active note") None)
     end)%exec.

(** *** PromptModal *)

(** A property key that is an array index: the canonical numeral of an
    integer below 2^32 - 1. *)
Definition array_index (k : jsstring) : option N :=
  match parse_number k with
  | Some n =>
      if str_eqb (number_toString n) k && (n <? 4294967295)%N then Some n
      else None
  | None => None
  end.

(** [o[k] = v] on an object made by [{}], for a string [v]: assigning to
    [__proto__] runs the inherited setter, which ignores a string and
    creates no property. *)
Definition assign (o : record) (k v : jsstring) : record :=
  if str_eqb k (js "__proto__") then o else record_set o k v.

Fixpoint insert_by_index (e : N * (jsstring * jsstring))
         (l : list (N * (jsstring * jsstring)))
  : list (N * (jsstring * jsstring)) :=
  match l with
  | [] => [e]
  | e' :: l' =>
      if (fst e <=? fst e')%N then e :: e' :: l'
      else e' :: insert_by_index e l'
  end.

Definition indexed (o : record) : list (N * (jsstring * jsstring)) :=
  flat_map (fun e => match array_index (fst e) with
                     | Some n => [(n, e)]
                     | None => []
                     end) o.

Definition not_indexed (e : jsstring * jsstring) : bool :=
  match array_index (fst e) with Some _ => false | None => true end.

(** [Object.entries(o)]: the properties whose key is an array index, in
    ascending order of the index, then the others in the order in which
    they were created. *)
Definition Object_entries (o : record) : list (jsstring * jsstring) :=
  map snd (fold_right insert_by_index [] (indexed o)) ++ filter not_indexed o.

(** The constructor:
    [prompts.forEach(prompt => { this.results[prompt.name] = ''; })] *)
Definition PromptModal_results (prompts : list PromptConfig) : record :=
  fold_left (fun results prompt => assign results (prompt_name prompt) [])
            prompts [].

(** An [input] event on the field of the prompt at position [fst event],
    the field holding [snd event]:
    [this.results[prompt.name] = inputEl.value] *)
Definition on_input (prompts : list PromptConfig) (results : record)
           (event : nat * jsstring) : record :=
  match nth_error prompts (fst event) with
  | Some prompt => assign results (prompt_name prompt) (snd event)
  | None => results
  end.

(** What [submit] hands to [onSubmit] after the given input events, as
    [Object.entries] lists it in [substituteParameters]. *)
Definition submitted (prompts : list PromptConfig)
           (inputs : list (nat * jsstring)) : list (jsstring * jsstring) :=
  Object_entries (fold_left (on_input prompts) inputs
                            (PromptModal_results prompts)).

(** The value last typed into a field whose prompt has the name; the empty
    string when nothing was typed there. *)
Definition last_typed (prompts : list PromptConfig)
           (inputs : list (nat * jsstring)) (name : jsstring) : jsstring :=
  fold_left (fun v event =>
               match nth_error prompts (fst event) with
               | Some prompt =>
                   if str_eqb name (prompt_name prompt) then snd event else v
               | None => v
               end) inputs [].

(** What holds of the results object of the modal at every moment: one
    property for each name of a prompt, [__proto__] apart. *)
Definition results_invariant (prompts : list PromptConfig) (results : record)
  : Prop :=
  NoDup (map fst results)
  /\ (forall k, In k (map fst results)
                <-> In k (map prompt_name prompts) /\ k <> js "__proto__").

(** *** More example inputs *)

(** A foreground script whose output goes to the given default action. *)
Definition action_script (cmd action : string) : CommandScript :=
  {| script_id := js "example"; script_name := js "Example";
     script_description := None; script_command := js cmd;
     workingDirectory := None; useAbsolutePath := Some false;
     backgroundExecution := Some false; script_prompts := Some [];
     defaultAction := Some (js action); enabled := true |}.

Definition silent_settings : PluginSettings :=
  {| defaultWorkingDirectory := []; showNotifications := false;
     maxOutputLength := 10000; shellProgram := js "auto";
     useLoginShell := true |}.

(** A host that refuses access to the clipboard. *)
Definition clipboard_denied : App :=
  {| getResourcePath := Returned (js "file:///vault");
     basePath := Some (js "/vault");
     getActiveFile := None;
     getActiveView := None;
     vault_read := fun _ => Returned [];
     vault_modify := fun _ _ => Returned tt;
     clipboard_writeText := fun _ => Thrown (plain_error "Write permission denied.") |}.

(** A foreground script that asks for one value. *)
Definition prompted_script (name cmd : string) : CommandScript :=
  {| script_id := js "example"; script_name := js "Example";
     script_description := None; script_command := js cmd;
     workingDirectory := None; useAbsolutePath := Some false;
     backgroundExecution := Some false;
     script_prompts := Some [{| prompt_name := js name;
                                prompt_displayName := js name |}];
     defaultAction := Some (js "none"); enabled := true |}.

(** Two prompts, for a directory and for a file. *)
Definition dir_and_file : list PromptConfig :=
  [ {| prompt_name := js "dir"; prompt_displayName := js "Directory" |};
    {| prompt_name := js "file"; prompt_displayName := js "File" |} ].

(** The value typed for a prompt names a fixed placeholder. *)
Definition prompt_naming_a_fixed_placeholder : ParameterContext :=
  with_prompts (getParameterContext decode_as_is idle_app)
               [(js "dir", js "{vaultpath}")].

(** *** Kinds of events *)

Definition is_child_process (e : Event) : bool :=
  match e with ChildProcess _ => true | _ => false end.

Definition is_modal (e : Event) : bool :=
  match e with ModalOpen _ _ => true | _ => false end.

(** What [performAction] can do: show a notice, write the clipboard, change
    the editor or the note. *)
Definition is_action_event (e : Event) : bool :=
  match e with
  | Notice _ _ | ClipboardWrite _ | ReplaceSelection _ | ReplaceRange _ _
  | VaultModify _ _ => true
  | _ => false
  end.

(** [script.defaultAction && script.defaultAction !== 'none'] *)
Definition has_default_action (script : CommandScript) : bool :=
  truthy (or_empty (defaultAction script))
  && negb (str_eqb (or_empty (defaultAction script)) (js "none")).

(** * Properties *)

Unset Implicit Arguments.

(** ** Strings and characters *)

Lemma str_eqb_eq (a b : jsstring) : str_eqb a b = true <-> a = b.
Proof.
  revert b; induction a as [|x a IH]; intros [|y b]; simpl;
    try (split; [discriminate | congruence]); try tauto.
  rewrite andb_true_iff, Ascii.eqb_eq, IH. split.
  - intros [-> ->]; reflexivity.
  - intros H; inversion H; auto.
Qed.

Lemma str_eqb_refl (a : jsstring) : str_eqb a a = true.
Proof. apply str_eqb_eq; reflexivity. Qed.

Lemma str_eqb_neq (a b : jsstring) : str_eqb a b = false <-> a <> b.
Proof.
  rewrite <- str_eqb_eq. destruct (str_eqb a b); split; congruence.
Qed.

Lemma includes_In (l : list jsstring) (x : jsstring) :
  includes l x = true <-> In x l.
Proof.
  unfold includes. rewrite existsb_exists. split.
  - intros (y & Hy & E). apply str_eqb_eq in E. subst; assumption.
  - intros H. exists x. split; [assumption | apply str_eqb_refl].
Qed.

Lemma truthy_nonempty (s : jsstring) : truthy s = true <-> s <> [].
Proof. destruct s; simpl; split; congruence. Qed.

Lemma str_or_nonempty (a b : jsstring) : a <> [] -> str_or a b = a.
Proof. destruct a; [congruence | reflexivity]. Qed.

Lemma opt_or_absent (x : option jsstring) (d : jsstring) :
  x = None \/ x = Some [] -> opt_or x d = d.
Proof. intros [-> | ->]; reflexivity. Qed.

Lemma opt_or_present (x : option jsstring) (v d : jsstring) :
  x = Some v -> v <> [] -> opt_or x d = v.
Proof. intros -> H. unfold opt_or; simpl. apply str_or_nonempty, H. Qed.

(** Case analysis on the 256 characters. *)
Ltac each_char c :=
  destruct c as [[] [] [] [] [] [] [] []]; vm_compute; try reflexivity;
  try discriminate; try tauto.

Lemma ci_eq_open_brace (c : ascii) : ci_eq "{" c = true -> c = "{"%char.
Proof. each_char c. Qed.

Lemma ci_eq_close_brace (c : ascii) : ci_eq "}" c = true -> c = "}"%char.
Proof. each_char c. Qed.

Lemma ci_eq_brace_left (c d : ascii) :
  ci_eq c d = true -> is_brace d = true -> c = d.
Proof.
  intros H B. unfold is_brace in B. apply orb_true_iff in B.
  destruct B as [B | B]; apply Ascii.eqb_eq in B; subst d;
    revert H; each_char c.
Qed.

Lemma lower_upper (c : ascii) :
  char_toLowerCase (char_toUpperCase c) = char_toLowerCase c.
Proof. each_char c. Qed.

Lemma lower_lower (c : ascii) :
  char_toLowerCase (char_toLowerCase c) = char_toLowerCase c.
Proof. each_char c. Qed.

Lemma ci_eq_same_lower (a b : ascii) :
  ci_eq a b = true -> char_toLowerCase a = char_toLowerCase b.
Proof.
  unfold ci_eq. intros H. apply Ascii.eqb_eq in H.
  rewrite <- (lower_upper a), <- (lower_upper b), H. reflexivity.
Qed.

Lemma is_brace_upper (c : ascii) : is_brace (char_toUpperCase c) = is_brace c.
Proof. each_char c. Qed.

Lemma regex_syntax_lower (c : ascii) :
  regex_syntax (char_toLowerCase c) = regex_syntax c.
Proof. each_char c. Qed.

Lemma regex_syntax_brace (c : ascii) : is_brace c = true -> regex_syntax c = true.
Proof. each_char c. Qed.

Lemma not_syntax_not_backslash (c : ascii) :
  regex_syntax c = false -> Ascii.eqb c "\" = false.
Proof. each_char c. Qed.

(** ** Escaping *)

Lemma needs_quoting_plain (arg : jsstring) :
  needs_quoting arg = false <-> Forall plain_char arg.
Proof.
  unfold needs_quoting. induction arg as [|c arg IH]; simpl.
  - split; [constructor | reflexivity].
  - rewrite orb_false_iff, IH, negb_false_iff. split.
    + intros [Hc Hs]. constructor; [|assumption]. revert Hc.
      unfold plain_char. each_char c.
    + intros H. inversion H as [|? ? Hc Hs]; subst. split; [|assumption].
      unfold plain_char in Hc.
      destruct Hc as [Hc | [-> | [-> | [-> | ->]]]]; try reflexivity.
      unfold is_word. unfold is_alnum in Hc. rewrite Hc. reflexivity.
Qed.

Lemma escape_quotes_app (a b : jsstring) :
  escape_quotes (a ++ b) = escape_quotes a ++ escape_quotes b.
Proof. unfold escape_quotes. apply flat_map_app. Qed.

Lemma escape_quotes_none (arg : jsstring) :
  ~ In dquote arg -> escape_quotes arg = arg.
Proof.
  induction arg as [|c arg IH]; simpl; intros H; [reflexivity|].
  destruct (Ascii.eqb c dquote) eqn:E.
  - apply Ascii.eqb_eq in E. subst. exfalso. apply H. left. reflexivity.
  - simpl. f_equal. apply IH. intros F. apply H. right. assumption.
Qed.

(** C7, as the specification words it, fails: an underscore is neither an
    alphanumeric nor one of dash, dot and slash, and yet a string with an
    underscore comes back without quotes when the escaper throws. *)
Lemma manual_escape_underscore_unquoted :
  escaper_throws (js "a_b") = Thrown (plain_error "escape failed")
  /\ escapeShellArgument escaper_throws (js "a_b") = js "a_b"
  /\ spec_manual_escape (js "a_b") = dquote :: js "a_b" ++ [dquote]
  /\ escapeShellArgument escaper_throws (js "a_b") <> spec_manual_escape (js "a_b").
Proof.
  split; [reflexivity | split; [reflexivity | split; [reflexivity |]]].
  vm_compute. discriminate.
Qed.

(** C7 (amended): the empty string escapes to the two-character literal of
    two double quotes; a non-empty string is handed to the escaper of the
    dialect, and when that escaper throws, a string made only of word
    characters (letters, digits, underscore), dashes, dots and slashes is
    returned unchanged, and every other string is returned between double
    quotes with a backslash before each double quote inside. *)
Theorem escapeShellArgument_cases
        (shescape_escape : jsstring -> completion jsstring) (arg : jsstring) :
  (arg = [] -> escapeShellArgument shescape_escape arg = [dquote; dquote])
  /\ (forall escaped, arg <> [] -> shescape_escape arg = Returned escaped ->
        escapeShellArgument shescape_escape arg = escaped)
  /\ (forall e, arg <> [] -> shescape_escape arg = Thrown e ->
        (Forall plain_char arg ->
           escapeShellArgument shescape_escape arg = arg)
        /\ (~ Forall plain_char arg ->
              escapeShellArgument shescape_escape arg
              = dquote :: escape_quotes arg ++ [dquote]))
  /\ (forall pre post, escape_quotes (pre ++ dquote :: post)
        = escape_quotes pre ++ "\"%char :: dquote :: escape_quotes post)
  /\ (~ In dquote arg -> escape_quotes arg = arg).
Proof.
  unfold escapeShellArgument. repeat split.
  - intros ->. reflexivity.
  - intros escaped Hne ->. apply truthy_nonempty in Hne. rewrite Hne. reflexivity.
  - intros Hp. apply truthy_nonempty in H. rewrite H, H0. simpl.
    unfold manual_escape. apply needs_quoting_plain in Hp. rewrite Hp. reflexivity.
  - intros Hp. apply truthy_nonempty in H. rewrite H, H0. simpl.
    unfold manual_escape. destruct (needs_quoting arg) eqn:E; [reflexivity|].
    apply needs_quoting_plain in E. contradiction.
  - intros pre post. rewrite escape_quotes_app. reflexivity.
  - apply escape_quotes_none.
Qed.

Lemma escapeShellArgument_cases_witness :
  escapeShellArgument escaper_throws [] = [dquote; dquote]
  /\ escapeShellArgument backslash_escaper (js "a b") = js "a\ b"
  /\ escapeShellArgument escaper_throws (js "a_b/c-d.e") = js "a_b/c-d.e"
  /\ escapeShellArgument escaper_throws (js "say " ++ dquote :: js "hi" ++ [dquote])
     = dquote :: js "say \" ++ dquote :: js "hi\" ++ [dquote; dquote].
Proof.
  split; [|split; [|split]].
  - exact (proj1 (escapeShellArgument_cases escaper_throws []) eq_refl).
  - refine (proj1 (proj2 (escapeShellArgument_cases backslash_escaper (js "a b")))
                  _ _ eq_refl).
    discriminate.
  - refine (proj1 (proj1 (proj2 (proj2 (escapeShellArgument_cases escaper_throws
              (js "a_b/c-d.e"))))
              (plain_error "escape failed") _ eq_refl) _).
    + discriminate.
    + apply needs_quoting_plain. reflexivity.
  - refine (proj2 (proj1 (proj2 (proj2 (escapeShellArgument_cases escaper_throws
              (js "say " ++ dquote :: js "hi" ++ [dquote]))))
              (plain_error "escape failed") _ eq_refl) _).
    + discriminate.
    + intros F. apply needs_quoting_plain in F. discriminate.
Defined.

(** ** Working directory *)

Lemma base_directory_order (settings : PluginSettings) (process : Process)
      (context : ParameterContext) :
  (defaultWorkingDirectory settings <> [] ->
     base_directory settings process context = defaultWorkingDirectory settings)
  /\ (forall vault, defaultWorkingDirectory settings = [] ->
        vaultPath context = Some vault -> vault <> [] ->
        base_directory settings process context = vault)
  /\ (defaultWorkingDirectory settings = [] ->
        vaultPath context = None \/ vaultPath context = Some [] ->
        base_directory settings process context = cwd process).
Proof.
  unfold base_directory. repeat split.
  - intros H. apply str_or_nonempty, H.
  - intros vault -> -> H. destruct vault; [congruence | reflexivity].
  - intros -> [-> | ->]; reflexivity.
Qed.

(** C8, as stated, fails: with [useAbsolutePath] set and no working
    directory of its own, a script runs in the base directory, not in an
    (absent) directory of the script. *)
Lemma workingDir_absolute_flag_alone :
  workingDir work_settings linux_process slash_join (script_in None (Some true))
             empty_context = js "/work"
  /\ spec_workingDir work_settings linux_process slash_join
                     (script_in None (Some true)) empty_context = []
  /\ workingDir work_settings linux_process slash_join
                (script_in None (Some true)) empty_context
     <> spec_workingDir work_settings linux_process slash_join
                        (script_in None (Some true)) empty_context.
Proof.
  split; [reflexivity | split; [reflexivity |]]. vm_compute. discriminate.
Qed.

(** C8 (amended): for every script and context, the effective working
    directory is the script's workingDirectory verbatim when a non-empty
    workingDirectory is set and useAbsolutePath is set; join(base,
    workingDirectory) when a non-empty workingDirectory is set and
    useAbsolutePath is not; and base itself when the script has no (or an
    empty) workingDirectory, whatever useAbsolutePath says.  base is the
    configured default working directory if non-empty, else the collected
    vault path if non-empty, else the current working directory of the
    process. *)
Theorem workingDir_resolution
        (settings : PluginSettings) (process : Process)
        (path_join : jsstring -> jsstring -> jsstring)
        (script : CommandScript) (context : ParameterContext) :
  let base := base_directory settings process context in
  let dir := workingDir settings process path_join script context in
  (forall wd, workingDirectory script = Some wd -> wd <> [] ->
     useAbsolutePath script = Some true -> dir = wd)
  /\ (forall wd, workingDirectory script = Some wd -> wd <> [] ->
        useAbsolutePath script <> Some true -> dir = path_join base wd)
  /\ (workingDirectory script = None \/ workingDirectory script = Some [] ->
        dir = base)
  /\ (defaultWorkingDirectory settings <> [] ->
        base = defaultWorkingDirectory settings)
  /\ (forall vault, defaultWorkingDirectory settings = [] ->
        vaultPath context = Some vault -> vault <> [] -> base = vault)
  /\ (defaultWorkingDirectory settings = [] ->
        vaultPath context = None \/ vaultPath context = Some [] ->
        base = cwd process).
Proof.
  intros base dir. subst dir. unfold workingDir. fold base.
  split; [|split; [|split]].
  - intros wd -> Hne ->. simpl. apply truthy_nonempty in Hne. rewrite Hne.
    reflexivity.
  - intros wd -> Hne Habs. simpl. apply truthy_nonempty in Hne. rewrite Hne.
    destruct (useAbsolutePath script) as [[|]|]; simpl; congruence.
  - intros [-> | ->]; reflexivity.
  - apply base_directory_order.
Qed.

Lemma workingDir_resolution_witness :
  workingDir work_settings linux_process slash_join
             (script_in (Some (js "sub")) (Some true)) empty_context = js "sub"
  /\ workingDir work_settings linux_process slash_join
                (script_in (Some (js "sub")) None) empty_context = js "/work/sub"
  /\ workingDir work_settings linux_process slash_join
                (script_in (Some []) (Some true)) empty_context = js "/work"
  /\ base_directory work_settings linux_process empty_context = js "/work"
  /\ base_directory default_settings linux_process
                    (getParameterContext decode_as_is idle_app) = js "/vault"
  /\ base_directory default_settings linux_process empty_context = js "/home/me".
Proof.
  split; [|split; [|split; [|split; [|split]]]].
  - refine (proj1 (workingDir_resolution work_settings linux_process slash_join
                     (script_in (Some (js "sub")) (Some true)) empty_context)
                  (js "sub") eq_refl _ eq_refl).
    discriminate.
  - refine (proj1 (proj2 (workingDir_resolution work_settings linux_process
                     slash_join (script_in (Some (js "sub")) None) empty_context))
                  (js "sub") eq_refl _ _);
      discriminate.
  - refine (proj1 (proj2 (proj2 (workingDir_resolution work_settings
                     linux_process slash_join (script_in (Some []) (Some true))
                     empty_context))) _).
    right. reflexivity.
  - refine (proj1 (proj2 (proj2 (proj2 (workingDir_resolution work_settings
                     linux_process slash_join (script_in None None)
                     empty_context)))) _).
    discriminate.
  - refine (proj1 (proj2 (proj2 (proj2 (proj2 (workingDir_resolution
                     default_settings linux_process slash_join
                     (script_in None None)
                     (getParameterContext decode_as_is idle_app))))))
                  (js "/vault") eq_refl eq_refl _).
    discriminate.
  - refine (proj2 (proj2 (proj2 (proj2 (proj2 (workingDir_resolution
                     default_settings linux_process slash_join
                     (script_in None None) empty_context))))) eq_refl _).
    left. reflexivity.
Defined.

(** ** Shell detection *)

Lemma win32_iff (process : Process) :
  win32 process = true <-> platform process = js "win32".
Proof. unfold win32. apply str_eqb_eq. Qed.

Lemma shell_in_list_nonempty (s : jsstring) :
  In (shell_basename s) supportedShells -> s <> [].
Proof.
  intros H ->. unfold shell_basename, supportedShells in H. simpl in H.
  repeat (destruct H as [H | H]; [discriminate|]). exact H.
Qed.

(** C9: on Windows [detectDefaultShell] returns the value of COMSPEC, or
    cmd.exe when COMSPEC is not set (an empty value counts as not set); on
    the other platforms it returns the value of SHELL when SHELL is set and
    its basename is one of bash, zsh, busybox, csh and dash, and /bin/bash
    in every other case (SHELL not set, or its basename not in the list). *)
Theorem detectDefaultShell_cases (process : Process) :
  (platform process = js "win32" ->
     (forall v, env_COMSPEC process = Some v -> v <> [] ->
        detectDefaultShell process = v)
     /\ (env_COMSPEC process = None \/ env_COMSPEC process = Some [] ->
           detectDefaultShell process = js "cmd.exe"))
  /\ (platform process <> js "win32" ->
        (forall s, env_SHELL process = Some s ->
           In (shell_basename s) [js "bash"; js "zsh"; js "busybox"; js "csh"; js "dash"] ->
           detectDefaultShell process = s)
        /\ (forall s, env_SHELL process = Some s ->
              ~ In (shell_basename s) [js "bash"; js "zsh"; js "busybox"; js "csh"; js "dash"] ->
              detectDefaultShell process = js "/bin/bash")
        /\ (env_SHELL process = None ->
              detectDefaultShell process = js "/bin/bash")).
Proof.
  unfold detectDefaultShell. split.
  - intros W. apply win32_iff in W. rewrite W. split.
    + intros v Hv Hne. apply opt_or_present; assumption.
    + apply opt_or_absent.
  - intros W. destruct (win32 process) eqn:E.
    { apply win32_iff in E. contradiction. }
    split; [|split].
    + intros s -> Hin.
      assert (Hne := shell_in_list_nonempty s Hin).
      apply truthy_nonempty in Hne. rewrite Hne.
      apply (includes_In supportedShells) in Hin. rewrite Hin. reflexivity.
    + intros s -> Hout.
      destruct (includes supportedShells (shell_basename s)) eqn:I.
      * apply includes_In in I. contradiction.
      * rewrite andb_false_r. reflexivity.
    + intros ->. reflexivity.
Qed.

Lemma detectDefaultShell_cases_witness :
  detectDefaultShell windows_process = js "C:\Windows\system32\cmd.exe"
  /\ detectDefaultShell windows_without_comspec = js "cmd.exe"
  /\ detectDefaultShell linux_process = js "/bin/zsh"
  /\ detectDefaultShell fish_process = js "/bin/bash"
  /\ detectDefaultShell process_without_shell = js "/bin/bash".
Proof.
  split; [|split; [|split; [|split]]].
  - refine (proj1 (proj1 (detectDefaultShell_cases windows_process) eq_refl)
                  _ eq_refl _).
    discriminate.
  - refine (proj2 (proj1 (detectDefaultShell_cases windows_without_comspec)
                         eq_refl) _).
    left. reflexivity.
  - refine (proj1 (proj2 (detectDefaultShell_cases linux_process) _) _ eq_refl _).
    + discriminate.
    + simpl. right. left. reflexivity.
  - refine (proj1 (proj2 (proj2 (detectDefaultShell_cases fish_process) _))
                  _ eq_refl _).
    + discriminate.
    + simpl. intros H. repeat (destruct H as [H | H]; [discriminate|]). exact H.
  - refine (proj2 (proj2 (proj2 (detectDefaultShell_cases process_without_shell)
                                _)) eq_refl).
    discriminate.
Defined.

(** ** The table of substitutions *)

Lemma record_get_set_same (o : record) (k v : jsstring) :
  record_get (record_set o k v) k = Some v.
Proof.
  induction o as [|[k' v'] o IH]; simpl.
  - rewrite str_eqb_refl. reflexivity.
  - destruct (str_eqb k k') eqn:E; simpl.
    + rewrite str_eqb_refl. reflexivity.
    + rewrite E. exact IH.
Qed.

Lemma record_get_set_other (o : record) (k k' v : jsstring) :
  k <> k' -> record_get (record_set o k' v) k = record_get o k.
Proof.
  intros Hne. induction o as [|[k0 v0] o IH]; simpl.
  - apply str_eqb_neq in Hne. rewrite Hne. reflexivity.
  - destruct (str_eqb k' k0) eqn:E; simpl.
    + apply str_eqb_eq in E. subst k0.
      apply str_eqb_neq in Hne. rewrite Hne. reflexivity.
    + destruct (str_eqb k k0); [reflexivity | exact IH].
Qed.

Lemma record_get_prompts_other (entries : list (jsstring * jsstring))
      (o : record) (k : jsstring) :
  (forall name, k <> prompt_placeholder name) ->
  record_get (fold_left add_prompt entries o) k = record_get o k.
Proof.
  intros Hk. revert o. induction entries as [|[name value] entries IH];
    intros o; simpl; [reflexivity|].
  rewrite IH. unfold add_prompt. simpl. apply record_get_set_other, Hk.
Qed.

Lemma record_get_fixed (context : ParameterContext) (k : jsstring) :
  (forall name, k <> prompt_placeholder name) ->
  record_get (substitutions context) k
  = record_get (fixed_substitutions context) k.
Proof.
  intros Hk. unfold substitutions. destruct (prompts context); [|reflexivity].
  apply record_get_prompts_other, Hk.
Qed.

(** ** Line numbers *)

Lemma parse_number_toString (n : N) : parse_number (number_toString n) = Some n.
Proof.
  unfold parse_number, number_toString, js.
  rewrite string_of_list_ascii_of_string, NilZero.usu.
  - simpl. rewrite DecimalN.Unsigned.of_to. reflexivity.
  - destruct n; simpl; [discriminate | apply DecimalPos.Unsigned.to_uint_nonnil].
Qed.

(** ** Traces *)

Lemma results_created_app (a b : list Event) :
  results_created (a ++ b) = results_created a ++ results_created b.
Proof.
  induction a as [|e a IH]; simpl; [reflexivity|].
  destruct e; simpl; rewrite IH; reflexivity.
Qed.

Lemma events_mbind {A B} (m : M A) (k : A -> M B) :
  events (mbind m k)
  = events m ++ match outcome m with
                | Returned a => events (k a)
                | Thrown _ => []
                end.
Proof.
  destruct m as [ev [a | e]]; simpl.
  - destruct (k a). reflexivity.
  - rewrite app_nil_r. reflexivity.
Qed.

Lemma outcome_mbind {A B} (m : M A) (k : A -> M B) :
  outcome (mbind m k)
  = match outcome m with
    | Returned a => outcome (k a)
    | Thrown e => Thrown e
    end.
Proof.
  destruct m as [ev [a | e]]; simpl; [|reflexivity].
  destruct (k a). reflexivity.
Qed.

Lemma events_try_catch {A} (m : M A) (h : JsError -> M A) :
  events (try_catch m h)
  = events m ++ match outcome m with
                | Returned _ => []
                | Thrown e => events (h e)
                end.
Proof.
  destruct m as [ev [a | e]]; simpl.
  - rewrite app_nil_r. reflexivity.
  - destruct (h e). reflexivity.
Qed.

Lemma outcome_try_catch {A} (m : M A) (h : JsError -> M A) :
  outcome (try_catch m h)
  = match outcome m with
    | Returned a => Returned a
    | Thrown e => outcome (h e)
    end.
Proof.
  destruct m as [ev [a | e]]; simpl; [reflexivity|].
  destruct (h e). reflexivity.
Qed.

(** Unfolding a computation into its events and its outcome. *)
Ltac trace :=
  repeat (rewrite ?events_try_catch, ?outcome_try_catch, ?events_mbind,
                  ?outcome_mbind; simpl).

(** [performAction] shows and changes things, but builds no result. *)
Lemma performAction_creates_nothing (app : App) (action : jsstring)
      (result : CommandExecutionResult) :
  results_created (events (performAction app action result)) = [].
Proof.
  unfold performAction.
  destruct (str_eqb action (js "copy")).
  { unfold copyToClipboard, lift, emit. trace.
    destruct (clipboard_writeText app (output result)); reflexivity. }
  destruct (str_eqb action (js "replace")).
  { unfold replaceSelection, active_editor.
    destruct (getActiveView app) as [[[editor|] file]|]; simpl;
      try destruct (truthy (getSelection editor)); reflexivity. }
  destruct (str_eqb action (js "insert")).
  { unfold insertAtCursor, active_editor.
    destruct (getActiveView app) as [[[editor|] file]|]; reflexivity. }
  destruct (str_eqb action (js "append")); [|reflexivity].
  unfold appendToCurrentNote.
  destruct (getActiveView app) as [[editor [file|]]|]; try reflexivity.
  unfold lift, emit. trace.
  destruct (vault_read app file) as [content|]; simpl; [|reflexivity].
  destruct (vault_modify app file _); reflexivity.
Qed.

(** ** executeCommand *)

Section ExecuteCommand.

Variable settings : PluginSettings.
Variable process : Process.
Variable path_join : jsstring -> jsstring -> jsstring.
Variable child_exec : ExecRequest -> ExecOutcome.
Variable app : App.
Variable script : CommandScript.
Variable substitutedCommand : jsstring.
Variable context : ParameterContext.

Let request := exec_request settings process path_join script
                            substitutedCommand context.
Let run := executeCommand settings process path_join child_exec app script
                          substitutedCommand context.
Let failed := failure_result script substitutedCommand context.
Let succeeded := success_result script substitutedCommand context.

Local Arguments mbind : simpl never.
Local Arguments try_catch : simpl never.
Local Arguments performAction : simpl never.
Local Arguments js : simpl never.

Lemma executeCommand_rejected (e : JsError) :
  child_exec request = Rejected e ->
  outcome run = Returned (failed e)
  /\ results_created (events run) = [failed e]
  /\ (background script = true -> quiet (events run)).
Proof.
  intros H. subst run request. unfold executeCommand, run_child, when, emit, quiet.
  rewrite H.
  destruct (showNotifications settings), (background script); trace;
    repeat split; try reflexivity; discriminate.
Qed.

Lemma executeCommand_resolved_background (stdout stderr : jsstring) :
  child_exec request = Resolved stdout stderr ->
  background script = true ->
  outcome run = Returned (succeeded (stdout, stderr))
  /\ results_created (events run) = [succeeded (stdout, stderr)]
  /\ quiet (events run).
Proof.
  intros H B. subst run request. unfold executeCommand, run_child, when, emit, quiet.
  rewrite H, B.
  destruct (showNotifications settings); trace; repeat split; reflexivity.
Qed.

Lemma executeCommand_resolved_foreground (stdout stderr : jsstring) :
  child_exec request = Resolved stdout stderr ->
  background script = false ->
  (outcome run = Returned (succeeded (stdout, stderr))
   /\ results_created (events run) = [succeeded (stdout, stderr)])
  \/ (exists e,
        outcome run = Returned (failed e)
        /\ results_created (events run)
           = [succeeded (stdout, stderr); failed e]).
Proof.
  intros H B. subst run request. unfold executeCommand, run_child, when, emit.
  rewrite H, B.
  destruct (truthy (or_empty (defaultAction script))
            && negb (str_eqb (or_empty (defaultAction script)) (js "none"))).
  - destruct (showNotifications settings); trace;
      match goal with
      | |- context [outcome (performAction ?a ?b ?c)] =>
          pose proof (performAction_creates_nothing a b c) as P;
          destruct (outcome (performAction a b c)) as [[]|e]
      end;
      [left | right; exists e | left | right; exists e]; trace;
      rewrite ?app_nil_r, ?results_created_app, ?P; simpl;
      rewrite ?results_created_app, ?P; split; reflexivity.
  - left. destruct (showNotifications settings); trace; split; reflexivity.
Qed.

End ExecuteCommand.

Lemma executeCommand_returns
      (settings : PluginSettings) (process : Process)
      (path_join : jsstring -> jsstring -> jsstring)
      (child_exec : ExecRequest -> ExecOutcome) (app : App)
      (script : CommandScript) (substitutedCommand : jsstring)
      (context : ParameterContext) :
  let run := executeCommand settings process path_join child_exec app script
                            substitutedCommand context in
  exists r,
    outcome run = Returned r
    /\ (results_created (events run) = [r]
        \/ exists r0, results_created (events run) = [r0; r]
                      /\ success r0 = true /\ success r = false
                      /\ background script = false)
    /\ forall r', In r' (results_created (events run)) ->
                  command r' = substitutedCommand
                  /\ originalCommand r' = script_command script
                  /\ parameters r' = context.
Proof.
  intros run. subst run.
  destruct (child_exec (exec_request settings process path_join script
                                     substitutedCommand context))
    as [stdout stderr | e] eqn:H.
  - destruct (background script) eqn:B.
    + destruct (executeCommand_resolved_background settings process path_join
                  child_exec app script substitutedCommand context
                  stdout stderr H B) as (O & C & _).
      eexists. split; [exact O|]. rewrite C. split; [left; reflexivity|].
      intros r' [<- | []]. repeat split.
    + destruct (executeCommand_resolved_foreground settings process path_join
                  child_exec app script substitutedCommand context
                  stdout stderr H B) as [(O & C) | (e & O & C)];
        eexists; (split; [exact O|]); rewrite C.
      * split; [left; reflexivity|]. intros r' [<- | []]. repeat split.
      * split; [right; eexists; repeat split|].
        intros r' [<- | [<- | []]]; repeat split.
  - destruct (executeCommand_rejected settings process path_join child_exec app
                script substitutedCommand context e H) as (O & C & _).
    eexists. split; [exact O|]. rewrite C. split; [left; reflexivity|].
    intros r' [<- | []]. repeat split.
Qed.

(** C5: the code at the failing input.  The claim says that the exit code
    of a failure is the code the process reported, or -1 if the process
    never started; when the shell cannot be started the runtime rejects
    with an error whose code is the name of the system error, and
    [executeCommand] returns a failed result whose exitCode is that name,
    a string in a field declared as a number, not -1. *)
Lemma launch_failure_exit_code :
  exists r,
    outcome (executeCommand default_settings linux_process slash_join
               (child_fails shell_not_found) idle_app (example_script "pwd")
               (js "pwd") empty_context) = Returned r
    /\ success r = false
    /\ exitCode r = CodeStr (js "ENOENT")
    /\ spec_exitCode shell_not_found = Some (CodeNum (-1))
    /\ Some (exitCode r) <> spec_exitCode shell_not_found.
Proof.
  eexists. split; [reflexivity|]. simpl.
  repeat (split; [reflexivity|]). discriminate.
Qed.

(** Whatever truthy code the error carries is stored as the exit code. *)
Lemma failure_exit_code_is_error_code
      (settings : PluginSettings) (process : Process)
      (path_join : jsstring -> jsstring -> jsstring)
      (child_exec : ExecRequest -> ExecOutcome) (app : App)
      (script : CommandScript) (substitutedCommand : jsstring)
      (context : ParameterContext) (e : JsError) :
  child_exec (exec_request settings process path_join script
                           substitutedCommand context) = Rejected e ->
  exists r,
    outcome (executeCommand settings process path_join child_exec app script
                            substitutedCommand context) = Returned r
    /\ exitCode r = code_or_minus1 (err_code e).
Proof.
  intros H.
  destruct (executeCommand_rejected settings process path_join child_exec app
              script substitutedCommand context e H) as (O & _).
  eexists. split; [exact O | reflexivity].
Qed.

(** X27: [executeCommand] never throws, for any script, command and
    context: it always returns a result, and every failure of the child
    (launch failure, non-zero exit, timeout, output-limit breach) is
    captured into the returned result with success=false, output equal to
    the captured stdout, error equal to the captured stderr if non-empty,
    else the message of the error if non-empty, else a fixed text, and
    exitCode equal to the code of the error, -1 standing in for a code
    that is missing, 0 or empty: the exit status for a non-zero exit, -1
    for a timeout, and the name of the system error for a launch failure
    and for an output-limit breach. *)
Theorem executeCommand_captures_failures
        (settings : PluginSettings) (process : Process)
        (path_join : jsstring -> jsstring -> jsstring)
        (child_exec : ExecRequest -> ExecOutcome) (app : App)
        (script : CommandScript) (substitutedCommand : jsstring)
        (context : ParameterContext) :
  let request := exec_request settings process path_join script
                              substitutedCommand context in
  let run := executeCommand settings process path_join child_exec app script
                            substitutedCommand context in
  (exists r, outcome run = Returned r)
  /\ (forall e, child_exec request = Rejected e ->
        exists r, outcome run = Returned r
          /\ success r = false
          /\ exitCode r = code_or_minus1 (err_code e)
          /\ (forall status, err_code e = CodeNum status -> status <> 0%Z ->
                exitCode r = CodeNum status)
          /\ (forall name, err_code e = CodeStr name -> name <> [] ->
                exitCode r = CodeStr name)
          /\ (err_code e = CodeAbsent \/ err_code e = CodeNum 0
              \/ err_code e = CodeStr [] -> exitCode r = CodeNum (-1))
          /\ error r = opt_or (err_stderr e)
                              (opt_or (err_message e)
                                      (js "An unknown error occurred."))
          /\ output r = opt_or (err_stdout e) [])
  /\ (forall f, child_exec request = Rejected (rejection f) ->
        exists r, outcome run = Returned r
          /\ success r = false
          /\ match f with
             | NonZeroExit status message stdout stderr =>
                 status <> 0%Z ->
                 exitCode r = CodeNum status
                 /\ (stderr <> [] -> error r = stderr)
                 /\ (stderr = [] -> message <> [] -> error r = message)
             | LaunchFailure errname message =>
                 (errname <> [] -> exitCode r = CodeStr errname)
                 /\ (message <> [] -> error r = message)
             | TimedOut message stdout stderr =>
                 exitCode r = CodeNum (-1)
                 /\ (stderr <> [] -> error r = stderr)
             | OutputLimit message stdout stderr =>
                 exitCode r = CodeStr (js "ERR_CHILD_PROCESS_STDIO_MAXBUFFER")
                 /\ (stderr <> [] -> error r = stderr)
             end).
Proof.
  intros request run. split; [|split].
  - destruct (executeCommand_returns settings process path_join child_exec app
                script substitutedCommand context) as (r & O & _).
    exists r. exact O.
  - intros e H.
    destruct (executeCommand_rejected settings process path_join child_exec app
                script substitutedCommand context e H) as (O & _).
    eexists. split; [exact O|]. split; [reflexivity|]. simpl.
    split; [reflexivity|].
    split; [|split; [|split; [|split; reflexivity]]].
    + intros status -> Hs. simpl. apply Z.eqb_neq in Hs. rewrite Hs. reflexivity.
    + intros name -> Hn. simpl. apply truthy_nonempty in Hn. rewrite Hn.
      reflexivity.
    + intros [-> | [-> | ->]]; reflexivity.
  - intros f H.
    destruct (executeCommand_rejected settings process path_join child_exec app
                script substitutedCommand context _ H) as (O & _).
    eexists. split; [exact O|]. split; [reflexivity|].
    destruct f as [errname message | status message stdout stderr
                  | message stdout stderr | message stdout stderr]; simpl.
    + split.
      * intros Hn. destruct errname; [congruence | reflexivity].
      * intros Hm. destruct message; [congruence | reflexivity].
    + intros Hs. apply Z.eqb_neq in Hs. rewrite Hs. split; [reflexivity|].
      split.
      * intros He. destruct stderr; [congruence | reflexivity].
      * intros -> Hm. destruct message; [congruence | reflexivity].
    + split; [reflexivity|]. intros He.
      destruct stderr; [congruence | reflexivity].
    + split; [reflexivity|]. intros He.
      destruct stderr; [congruence | reflexivity].
Qed.

Lemma executeCommand_captures_failures_witness :
  exists r,
    outcome (executeCommand default_settings linux_process slash_join
               (child_fails (NonZeroExit 2 (js "Command failed: ls /nowhere")
                                         [] (js "ls: /nowhere: No such file")))
               idle_app (example_script "ls /nowhere") (js "ls /nowhere")
               empty_context) = Returned r
    /\ success r = false
    /\ (2 <> 0)%Z
    /\ exitCode r = CodeNum 2
    /\ error r = js "ls: /nowhere: No such file".
Proof.
  destruct (proj2 (proj2 (executeCommand_captures_failures default_settings
              linux_process slash_join
              (child_fails (NonZeroExit 2 (js "Command failed: ls /nowhere")
                                        [] (js "ls: /nowhere: No such file")))
              idle_app (example_script "ls /nowhere") (js "ls /nowhere")
              empty_context))
              (NonZeroExit 2 (js "Command failed: ls /nowhere")
                           [] (js "ls: /nowhere: No such file")) eq_refl)
    as (r & O & S & X).
  exists r. split; [exact O|]. split; [exact S|].
  assert (N : (2 <> 0)%Z) by discriminate.
  split; [exact N|]. destruct (X N) as (C & E & _).
  split; [exact C|]. apply E. discriminate.
Defined.

(** ** Background execution *)

Lemma executeInTerminal_traces
      (settings : PluginSettings) (process : Process)
      (path_join : jsstring -> jsstring -> jsstring)
      (child_spawn : SpawnRequest -> SpawnOutcome)
      (script : CommandScript) (substitutedCommand : jsstring)
      (context : ParameterContext) :
  let request := terminal_request settings process path_join script
                                  substitutedCommand context in
  let run := executeInTerminal settings process path_join child_spawn script
                               substitutedCommand context in
  let start :=
    if showNotifications settings
    then [Notice (js "Executing in " ++ getShellDisplayName settings process
                  ++ js ": " ++ script_name script) (Some 3000%N)]
    else [] in
  match child_spawn request with
  | Spawned =>
      outcome run = Returned tt
      /\ events run = start ++ [Spawn request; Unref]
  | SpawnedThenError e =>
      outcome run = Returned tt
      /\ events run = start ++ [Spawn request; Unref; shell_failed e]
  | SpawnThrows e =>
      outcome run = Thrown e
      /\ events run = start ++ [Spawn request; shell_failed e]
  end.
Proof.
  intros request run start. subst run start.
  unfold executeInTerminal, when, emit, throw. fold request.
  destruct (showNotifications settings);
    destruct (child_spawn request); trace; split; reflexivity.
Qed.

(** C4, as stated, fails: when [spawn] itself throws (here because the
    command line is too long for the system), [executeInTerminal] shows the
    notice and then throws the error on to its caller. *)
Lemma executeInTerminal_rethrows :
  outcome (executeInTerminal default_settings linux_process slash_join
             spawn_throws (background_script "cat {activenotecontent}")
             (js "cat a-very-long-text") empty_context)
  = Thrown argument_list_too_long
  /\ In (shell_failed argument_list_too_long)
        (events (executeInTerminal default_settings linux_process slash_join
                   spawn_throws (background_script "cat {activenotecontent}")
                   (js "cat a-very-long-text") empty_context))
  /\ outcome (executeInTerminal default_settings linux_process slash_join
                spawn_throws (background_script "cat {activenotecontent}")
                (js "cat a-very-long-text") empty_context)
     <> Returned tt.
Proof.
  split; [reflexivity | split].
  - vm_compute. right. right. left. reflexivity.
  - vm_compute. discriminate.
Qed.

(** C4 (amended): for every background (detached) execution, a failure to
    launch that the child process reports through its error event is
    reported only as a transient notification, and the operation returns
    normally; a failure raised while the process is being spawned is
    reported as a transient notification and then thrown on to the caller.
    The operation never returns an error value: it returns nothing or
    throws. *)
Theorem executeInTerminal_launch_failure
        (settings : PluginSettings) (process : Process)
        (path_join : jsstring -> jsstring -> jsstring)
        (child_spawn : SpawnRequest -> SpawnOutcome)
        (script : CommandScript) (substitutedCommand : jsstring)
        (context : ParameterContext) :
  let request := terminal_request settings process path_join script
                                  substitutedCommand context in
  let run := executeInTerminal settings process path_join child_spawn script
                               substitutedCommand context in
  (forall e, child_spawn request = SpawnedThenError e ->
     outcome run = Returned tt
     /\ last (events run) Unref = shell_failed e
     /\ Forall (fun ev => is_notice ev = true \/ ev = Spawn request \/ ev = Unref)
               (events run))
  /\ (forall e, child_spawn request = SpawnThrows e ->
        outcome run = Thrown e
        /\ last (events run) Unref = shell_failed e
        /\ Forall (fun ev => is_notice ev = true \/ ev = Spawn request)
                  (events run))
  /\ (child_spawn request = Spawned ->
        outcome run = Returned tt
        /\ ~ (exists e, In (shell_failed e) (events run))).
Proof.
  intros request run.
  pose proof (executeInTerminal_traces settings process path_join child_spawn
                script substitutedCommand context) as H.
  cbv zeta in H. fold request in H. fold run in H.
  set (start := if showNotifications settings then _ else _) in H.
  assert (Hs : Forall (fun ev => is_notice ev = true) start).
  { subst start. destruct (showNotifications settings); repeat constructor. }
  assert (Hn : forall e, ~ In (shell_failed e) start).
  { subst start. intros e.
    destruct (showNotifications settings); [|intros []].
    intros [Hin | []]. discriminate. }
  split; [|split].
  - intros e He. rewrite He in H. destruct H as [O E]. rewrite E.
    split; [exact O|]. split.
    + replace (start ++ [Spawn request; Unref; shell_failed e])
        with ((start ++ [Spawn request; Unref]) ++ [shell_failed e])
        by (rewrite <- app_assoc; reflexivity).
      apply last_last.
    + apply Forall_app. split.
      * eapply Forall_impl; [|exact Hs]. auto.
      * repeat (apply Forall_cons; [simpl; auto|]). apply Forall_nil.
  - intros e He. rewrite He in H. destruct H as [O E]. rewrite E.
    split; [exact O|]. split.
    + replace (start ++ [Spawn request; shell_failed e])
        with ((start ++ [Spawn request]) ++ [shell_failed e])
        by (rewrite <- app_assoc; reflexivity).
      apply last_last.
    + apply Forall_app. split.
      * eapply Forall_impl; [|exact Hs]. auto.
      * repeat (apply Forall_cons; [simpl; auto|]). apply Forall_nil.
  - intros He. rewrite He in H. destruct H as [O E]. rewrite E.
    split; [exact O|]. intros (e & Hin). apply in_app_or in Hin.
    destruct Hin as [Hin | [Hin | [Hin | []]]]; try discriminate.
    exact (Hn e Hin).
Qed.

Lemma executeInTerminal_launch_failure_witness :
  outcome (executeInTerminal default_settings linux_process slash_join
             spawn_fails_later (background_script "make") (js "make")
             empty_context) = Returned tt
  /\ last (events (executeInTerminal default_settings linux_process slash_join
                     spawn_fails_later (background_script "make") (js "make")
                     empty_context)) Unref
     = Notice (js "Shell execution failed: spawn /bin/zsh ENOENT") (Some 5000%N)
  /\ outcome (executeInTerminal default_settings linux_process slash_join
                spawn_throws (background_script "make") (js "make")
                empty_context) = Thrown argument_list_too_long
  /\ outcome (executeInTerminal default_settings linux_process slash_join
                spawn_succeeds (background_script "make") (js "make")
                empty_context) = Returned tt.
Proof.
  split; [|split; [|split]].
  - exact (proj1 (proj1 (executeInTerminal_launch_failure default_settings
             linux_process slash_join spawn_fails_later
             (background_script "make") (js "make") empty_context)
             (rejection shell_not_found) eq_refl)).
  - exact (proj1 (proj2 (proj1 (executeInTerminal_launch_failure default_settings
             linux_process slash_join spawn_fails_later
             (background_script "make") (js "make") empty_context)
             (rejection shell_not_found) eq_refl))).
  - exact (proj1 (proj1 (proj2 (executeInTerminal_launch_failure default_settings
             linux_process slash_join spawn_throws
             (background_script "make") (js "make") empty_context))
             argument_list_too_long eq_refl)).
  - exact (proj1 (proj2 (proj2 (executeInTerminal_launch_failure default_settings
             linux_process slash_join spawn_succeeds
             (background_script "make") (js "make") empty_context))
             eq_refl)).
Defined.

(** C6, as stated, fails: a script whose background flag is set is run by
    [executeCommand] like any other, which waits for the child and builds
    and returns a result; only the presentation differs. *)
Lemma background_script_creates_a_result :
  background (background_script "pwd") = true
  /\ results_created
       (events (executeUserCommand default_settings linux_process
                  backslash_escaper no_other_regexp slash_join decode_as_is
                  (child_succeeds "/vault") idle_app idle_app
                  (background_script "pwd") Cancelled))
     = [success_result (background_script "pwd") (js "pwd")
                       (getParameterContext decode_as_is idle_app)
                       (js "/vault", [])]
  /\ results_created
       (events (executeUserCommand default_settings linux_process
                  backslash_escaper no_other_regexp slash_join decode_as_is
                  (child_succeeds "/vault") idle_app idle_app
                  (background_script "pwd") Cancelled))
     <> [].
Proof.
  split; [reflexivity | split].
  - vm_compute. reflexivity.
  - vm_compute. discriminate.
Qed.

(** C6 (amended): every call of [executeCommand] returns exactly one
    CommandExecutionResult, for a script whose background flag is set as
    for any other.  For a background script exactly one result is built, it
    carries what the child process wrote (the call waits for the child),
    and it is presented through transient notifications only: no modal is
    opened and no default action is performed.  For a foreground script the
    returned result is the only one built, unless the default action throws
    after a successful run, in which case a second, failed result is built
    and returned.  The detached operation [executeInTerminal] builds no
    result. *)
Theorem background_execution_results
        (settings : PluginSettings) (process : Process)
        (path_join : jsstring -> jsstring -> jsstring)
        (child_exec : ExecRequest -> ExecOutcome)
        (child_spawn : SpawnRequest -> SpawnOutcome) (app : App)
        (script : CommandScript) (substitutedCommand : jsstring)
        (context : ParameterContext) :
  let request := exec_request settings process path_join script
                              substitutedCommand context in
  let run := executeCommand settings process path_join child_exec app script
                            substitutedCommand context in
  (exists r,
     outcome run = Returned r
     /\ (results_created (events run) = [r]
         \/ exists r0, results_created (events run) = [r0; r]
                       /\ success r0 = true /\ success r = false
                       /\ background script = false))
  /\ (background script = true ->
        exists r,
          outcome run = Returned r
          /\ results_created (events run) = [r]
          /\ quiet (events run)
          /\ (forall stdout stderr,
                child_exec request = Resolved stdout stderr ->
                success r = true /\ output r = stdout /\ error r = stderr))
  /\ results_created
       (events (executeInTerminal settings process path_join child_spawn
                  script substitutedCommand context)) = [].
Proof.
  intros request run. split; [|split].
  - destruct (executeCommand_returns settings process path_join child_exec app
                script substitutedCommand context) as (r & O & C & _).
    exists r. split; assumption.
  - intros B. subst run.
    destruct (child_exec request) as [stdout stderr | e] eqn:H.
    + destruct (executeCommand_resolved_background settings process path_join
                  child_exec app script substitutedCommand context
                  stdout stderr H B) as (O & C & Q).
      eexists. split; [exact O|]. split; [exact C|]. split; [exact Q|].
      intros o' e' [= <- <-]. simpl.
      destruct stdout, stderr; repeat split.
    + destruct (executeCommand_rejected settings process path_join child_exec
                  app script substitutedCommand context e H) as (O & C & Q).
      eexists. split; [exact O|]. split; [exact C|]. split; [exact (Q B)|].
      intros ? ? [=].
  - pose proof (executeInTerminal_traces settings process path_join child_spawn
                  script substitutedCommand context) as H.
    cbv zeta in H.
    destruct (child_spawn _); destruct H as [_ ->];
      rewrite results_created_app;
      destruct (showNotifications settings); reflexivity.
Qed.

Lemma background_execution_results_witness :
  exists r,
    outcome (executeCommand default_settings linux_process slash_join
               (child_succeeds "/vault") idle_app (background_script "pwd")
               (js "pwd") empty_context) = Returned r
    /\ results_created
         (events (executeCommand default_settings linux_process slash_join
                    (child_succeeds "/vault") idle_app (background_script "pwd")
                    (js "pwd") empty_context)) = [r]
    /\ success r = true /\ output r = js "/vault".
Proof.
  destruct (proj1 (proj2 (background_execution_results default_settings
              linux_process slash_join (child_succeeds "/vault") spawn_succeeds
              idle_app (background_script "pwd") (js "pwd") empty_context))
              eq_refl) as (r & O & C & _ & R).
  exists r. split; [exact O|]. split; [exact C|].
  destruct (R (js "/vault") [] eq_refl) as (S & U & _).
  split; assumption.
Defined.

(** ** What ran can be reproduced *)

Section UserCommand.

Variable settings : PluginSettings.
Variable process : Process.
Variable shescape_escape : jsstring -> completion jsstring.
Variable regexp_replace_other :
  jsstring -> jsstring -> jsstring -> completion jsstring.
Variable path_join : jsstring -> jsstring -> jsstring.
Variable decodeURIComponent : jsstring -> completion jsstring.
Variable child_exec : ExecRequest -> ExecOutcome.

Let substitute := substituteParameters shescape_escape regexp_replace_other.

Local Arguments mbind : simpl never.
Local Arguments try_catch : simpl never.
Local Arguments executeCommand : simpl never.

Lemma substitute_and_execute_results (app : App) (script : CommandScript)
      (context : ParameterContext) :
  match substitute (script_command script) context with
  | Returned substitutedCommand =>
      results_created
        (events (substitute_and_execute settings process shescape_escape
                   regexp_replace_other path_join child_exec app script context))
      = results_created
          (events (executeCommand settings process path_join child_exec app
                     script substitutedCommand context))
      /\ outcome (substitute_and_execute settings process shescape_escape
                    regexp_replace_other path_join child_exec app script context)
         = Returned tt
  | Thrown e =>
      events (substitute_and_execute settings process shescape_escape
                regexp_replace_other path_join child_exec app script context)
      = []
      /\ outcome (substitute_and_execute settings process shescape_escape
                    regexp_replace_other path_join child_exec app script context)
         = Thrown e
  end.
Proof.
  unfold substitute_and_execute, lift. subst substitute.
  destruct (substituteParameters shescape_escape regexp_replace_other
              (script_command script) context) as [cmd | e]; trace.
  - destruct (executeCommand_returns settings process path_join child_exec app
                script cmd context) as (r & O & _).
    rewrite O. simpl. rewrite app_nil_r. split; reflexivity.
  - split; reflexivity.
Qed.

Lemma executeUserCommand_results (app app_done : App) (script : CommandScript)
      (answer : PromptAnswer) :
  let run := executeUserCommand settings process shescape_escape
                                regexp_replace_other path_join
                                decodeURIComponent child_exec app app_done
                                script answer in
  outcome run = Returned tt
  /\ match effective_context decodeURIComponent app script answer with
     | None => results_created (events run) = []
     | Some context =>
         match substitute (script_command script) context with
         | Returned substitutedCommand =>
             results_created (events run)
             = results_created
                 (events (executeCommand settings process path_join child_exec
                            app_done script substitutedCommand context))
         | Thrown _ => results_created (events run) = []
         end
     end.
Proof.
  intros run. subst run. unfold executeUserCommand, effective_context.
  destruct (has_prompts script).
  - destruct answer as [|promptResults]; [split; reflexivity|].
    pose proof (substitute_and_execute_results app_done script
                  (with_prompts (getParameterContext decodeURIComponent app)
                                promptResults)) as H.
    destruct (substitute _ _) as [cmd | e]; destruct H as [E O]; trace;
      rewrite O; simpl; rewrite ?app_nil_r, ?E; split; reflexivity.
  - pose proof (substitute_and_execute_results app_done script
                  (getParameterContext decodeURIComponent app)) as H.
    destruct (substitute _ _) as [cmd | e]; destruct H as [E O]; trace;
      rewrite O; simpl; rewrite ?app_nil_r, ?E; split; reflexivity.
Qed.

End UserCommand.

(** Whenever the command runs (the prompt is not cancelled and substitution
    does not throw), a result is built. *)
Lemma executed_command_builds_a_result
      (settings : PluginSettings) (process : Process)
      (shescape_escape : jsstring -> completion jsstring)
      (regexp_replace_other :
         jsstring -> jsstring -> jsstring -> completion jsstring)
      (path_join : jsstring -> jsstring -> jsstring)
      (decodeURIComponent : jsstring -> completion jsstring)
      (child_exec : ExecRequest -> ExecOutcome)
      (app app_done : App) (script : CommandScript) (answer : PromptAnswer)
      (context : ParameterContext) (substitutedCommand : jsstring) :
  effective_context decodeURIComponent app script answer = Some context ->
  substituteParameters shescape_escape regexp_replace_other
                       (script_command script) context
  = Returned substitutedCommand ->
  exists result,
    In result
       (results_created
          (events (executeUserCommand settings process shescape_escape
                     regexp_replace_other path_join decodeURIComponent
                     child_exec app app_done script answer)))
    /\ command result = substitutedCommand
    /\ originalCommand result = script_command script
    /\ parameters result = context.
Proof.
  intros Hc Hs.
  destruct (executeUserCommand_results settings process shescape_escape
              regexp_replace_other path_join decodeURIComponent child_exec
              app app_done script answer) as [_ H].
  rewrite Hc, Hs in H. rewrite H.
  destruct (executeCommand_returns settings process path_join child_exec
              app_done script substitutedCommand context) as (r & _ & C & R).
  exists r.
  assert (Hin : In r (results_created
                        (events (executeCommand settings process path_join
                                   child_exec app_done script
                                   substitutedCommand context)))).
  { destruct C as [-> | (r0 & -> & _)]; simpl; auto. }
  split; [exact Hin | exact (R r Hin)].
Qed.

(** ** Scanning a template cut into pieces *)

Lemma GetSubstitution_inert (repl matched before after : jsstring) :
  no_dollar_pattern repl = true ->
  GetSubstitution repl matched before after = repl.
Proof.
  induction repl as [|c tl IH]; [reflexivity|]. intros H.
  destruct tl as [|d rest].
  - simpl. destruct (Ascii.eqb c "$"); reflexivity.
  - change (no_dollar_pattern (c :: d :: rest))
      with (negb (Ascii.eqb c "$"
                  && (Ascii.eqb d "$" || Ascii.eqb d "&" || Ascii.eqb d "`"
                      || Ascii.eqb d "'"))
            && no_dollar_pattern (d :: rest)) in H.
    apply andb_true_iff in H. destruct H as [Hc Htl].
    specialize (IH Htl).
    change (GetSubstitution (c :: d :: rest) matched before after)
      with (if Ascii.eqb c "$" then
              if Ascii.eqb d "$"
              then "$"%char :: GetSubstitution rest matched before after
              else if Ascii.eqb d "&"
              then matched ++ GetSubstitution rest matched before after
              else if Ascii.eqb d "`"
              then before ++ GetSubstitution rest matched before after
              else if Ascii.eqb d "'"
              then after ++ GetSubstitution rest matched before after
              else c :: GetSubstitution (d :: rest) matched before after
            else c :: GetSubstitution (d :: rest) matched before after).
    destruct (Ascii.eqb c "$"); [|rewrite IH; reflexivity].
    simpl in Hc. apply negb_true_iff in Hc.
    destruct (Ascii.eqb d "$"); [discriminate|].
    destruct (Ascii.eqb d "&"); [discriminate|].
    destruct (Ascii.eqb d "`"); [discriminate|].
    destruct (Ascii.eqb d "'"); [discriminate|].
    rewrite IH. reflexivity.
Qed.

Lemma upper_lower (c : ascii) :
  char_toUpperCase (char_toLowerCase c) = char_toUpperCase c.
Proof. each_char c. Qed.

Lemma same_lower_ci_eq (a b : ascii) :
  char_toLowerCase a = char_toLowerCase b -> ci_eq a b = true.
Proof.
  intros H. unfold ci_eq. apply Ascii.eqb_eq.
  rewrite <- (upper_lower a), <- (upper_lower b), H. reflexivity.
Qed.

Lemma ci_equal_lower (a b : jsstring) :
  ci_equal a b = true <-> toLowerCase a = toLowerCase b.
Proof.
  revert b. induction a as [|x a IH]; intros [|y b]; simpl;
    try (split; [discriminate | discriminate]); [tauto|].
  rewrite andb_true_iff, IH. split.
  - intros [Hc ->]. rewrite (ci_eq_same_lower _ _ Hc). reflexivity.
  - intros H. injection H as H1 H2. split; [apply same_lower_ci_eq, H1 | exact H2].
Qed.

Lemma plain_no_brace (s : jsstring) : plain_keyword s = true -> no_brace s = true.
Proof.
  unfold plain_keyword, no_brace. intros H.
  rewrite forallb_forall in *. intros c Hc. specialize (H c Hc).
  destruct (is_brace c) eqn:B; [|reflexivity].
  rewrite (regex_syntax_brace c B) in H. discriminate.
Qed.

Lemma no_brace_no_open (s : jsstring) : no_brace s = true -> no_open_brace s = true.
Proof.
  unfold no_brace, no_open_brace. intros H.
  rewrite forallb_forall in *. intros c Hc. specialize (H c Hc).
  unfold is_brace in H. destruct (Ascii.eqb c "{"); [discriminate | reflexivity].
Qed.

(** Against a token [{kb}], the head of [{b}rest] matches exactly when the
    bodies agree up to case: the closing braces must meet. *)
Lemma ci_prefix_body (kb b rest : jsstring) :
  no_brace kb = true -> no_brace b = true ->
  ci_prefix (kb ++ ["}"%char]) (b ++ "}"%char :: rest) = ci_equal kb b.
Proof.
  revert b. induction kb as [|x kb IH]; intros [|y b] Hk Hb; simpl in *.
  - reflexivity.
  - apply andb_true_iff in Hb. destruct Hb as [Hy _].
    destruct (ci_eq "}" y) eqn:E; [|reflexivity].
    apply ci_eq_close_brace in E. subst y. discriminate.
  - apply andb_true_iff in Hk. destruct Hk as [Hx _].
    destruct (ci_eq x "}") eqn:E; [|reflexivity].
    apply ci_eq_brace_left in E; [|reflexivity]. subst x. discriminate.
  - apply andb_true_iff in Hk. destruct Hk as [_ Hk].
    apply andb_true_iff in Hb. destruct Hb as [_ Hb].
    rewrite IH by assumption. reflexivity.
Qed.

Lemma lower_braced (b : jsstring) :
  toLowerCase (render_piece (Braced b))
  = "{"%char :: toLowerCase b ++ ["}"%char].
Proof. simpl. unfold toLowerCase. rewrite map_app. reflexivity. Qed.

Lemma token_match (k b rest : jsstring) :
  token k -> no_brace b = true ->
  ci_prefix k (render_piece (Braced b) ++ rest) = occurrence k (Braced b).
Proof.
  intros (kb & -> & Hplain & Hlow) Hb.
  assert (L : ci_prefix ("{"%char :: kb ++ ["}"%char])
                        (render_piece (Braced b) ++ rest) = ci_equal kb b).
  { simpl. rewrite <- app_assoc. simpl.
    apply ci_prefix_body; [apply plain_no_brace|]; assumption. }
  rewrite L. unfold occurrence. apply eq_iff_eq_true.
  rewrite str_eqb_eq, lower_braced, ci_equal_lower, Hlow. split.
  - intros ->. reflexivity.
  - intros H. injection H as H. apply app_inj_tail in H. destruct H as [H _].
    symmetry. exact H.
Qed.

Lemma token_length (k b : jsstring) :
  token k -> occurrence k (Braced b) = true ->
  length k = length (render_piece (Braced b)).
Proof.
  intros _ H. unfold occurrence in H. apply str_eqb_eq in H. rewrite <- H.
  unfold toLowerCase. rewrite length_map. reflexivity.
Qed.

Lemma token_starts_with_brace (k : jsstring) :
  token k -> exists k', k = "{"%char :: k'.
Proof. intros (body & -> & _). eexists. reflexivity. Qed.

Lemma not_open_brace_no_match (c : ascii) :
  Ascii.eqb c "{" = false -> ci_eq "{" c = false.
Proof.
  intros H. destruct (ci_eq "{" c) eqn:E; [|reflexivity].
  apply ci_eq_open_brace in E. subst c. discriminate.
Qed.

Section OnePass.

Variable pat repl : jsstring.
Hypothesis pat_token : token pat.

(** The characters covered by a match are passed over. *)
Lemma replace_scan_skip (m rest before : jsstring) :
  replace_scan pat repl before (m ++ rest) (length m)
  = replace_scan pat repl (before ++ m) rest 0.
Proof.
  revert before. induction m as [|c m IH]; intros before; simpl.
  - rewrite app_nil_r. reflexivity.
  - rewrite IH, <- app_assoc. reflexivity.
Qed.

(** Text without an opening brace is copied. *)
Lemma replace_scan_text (s rest before : jsstring) :
  no_open_brace s = true ->
  replace_scan pat repl before (s ++ rest) 0
  = s ++ replace_scan pat repl (before ++ s) rest 0.
Proof.
  destruct (token_starts_with_brace pat pat_token) as (pat' & ->).
  revert before. induction s as [|c s IH]; intros before H; simpl.
  - rewrite app_nil_r. reflexivity.
  - simpl in H. apply andb_true_iff in H. destruct H as [Hc Hs].
    apply negb_true_iff in Hc.
    rewrite (not_open_brace_no_match c Hc). simpl.
    rewrite IH by assumption. rewrite <- app_assoc. reflexivity.
Qed.

Lemma replace_scan_cons (c : ascii) (s before : jsstring) :
  replace_scan pat repl before (c :: s) 0
  = if ci_prefix pat (c :: s)
    then GetSubstitution repl (firstn (length pat) (c :: s)) before
                         (skipn (length pat) (c :: s))
         ++ replace_scan pat repl (before ++ [c]) s (length pat - 1)
    else c :: replace_scan pat repl (before ++ [c]) s 0.
Proof. reflexivity. Qed.

(** A braced piece that is an occurrence of the pattern is replaced. *)
Lemma replace_scan_occurrence (b rest before : jsstring) :
  no_brace b = true ->
  occurrence pat (Braced b) = true ->
  replace_scan pat repl before (render_piece (Braced b) ++ rest) 0
  = GetSubstitution repl (render_piece (Braced b)) before rest
    ++ replace_scan pat repl (before ++ render_piece (Braced b)) rest 0.
Proof.
  intros Hb Hocc.
  pose proof (token_match pat b rest pat_token Hb) as M.
  pose proof (token_length pat b pat_token Hocc) as L.
  rewrite Hocc in M.
  set (P := render_piece (Braced b)) in *.
  change (P ++ rest) with ("{"%char :: ((b ++ ["}"%char]) ++ rest)) at 1.
  rewrite replace_scan_cons.
  change ("{"%char :: ((b ++ ["}"%char]) ++ rest)) with (P ++ rest).
  rewrite M, L.
  rewrite firstn_app, Nat.sub_diag, firstn_all. simpl firstn. rewrite app_nil_r.
  rewrite skipn_app, Nat.sub_diag, skipn_all. simpl skipn. simpl app at 2.
  f_equal.
  replace (length P - 1) with (length (b ++ ["}"%char]))
    by (subst P; simpl; lia).
  rewrite replace_scan_skip, <- app_assoc. reflexivity.
Qed.

(** A braced piece that is not an occurrence of the pattern is copied. *)
Lemma replace_scan_other (b rest before : jsstring) :
  no_brace b = true ->
  occurrence pat (Braced b) = false ->
  replace_scan pat repl before (render_piece (Braced b) ++ rest) 0
  = render_piece (Braced b)
    ++ replace_scan pat repl (before ++ render_piece (Braced b)) rest 0.
Proof.
  intros Hb Hocc.
  pose proof (token_match pat b rest pat_token Hb) as M.
  rewrite Hocc in M.
  set (P := render_piece (Braced b)) in *.
  change (P ++ rest) with ("{"%char :: ((b ++ ["}"%char]) ++ rest)) at 1.
  rewrite replace_scan_cons.
  change ("{"%char :: ((b ++ ["}"%char]) ++ rest)) with (P ++ rest).
  rewrite M.
  rewrite replace_scan_text.
  - subst P. simpl. rewrite <- !app_assoc. reflexivity.
  - unfold no_open_brace. rewrite forallb_app. simpl.
    rewrite andb_true_r. apply no_brace_no_open, Hb.
Qed.

(** One pass of [replace] over a template in pieces is the pass over the
    pieces: occurrences are replaced, everything else is copied. *)
Lemma replace_scan_pieces (ps : list piece) (before : jsstring) :
  Forall wf ps ->
  (existsb (occurrence pat) ps = true -> no_dollar_pattern repl = true) ->
  replace_scan pat repl before (render ps) 0 = render (map (pass pat repl) ps).
Proof.
  intros Hwf. revert before.
  induction Hwf as [|p ps Hp Hps IH]; intros before Hrepl; [reflexivity|].
  unfold render in *. simpl flat_map. simpl map.
  assert (Hrest : existsb (occurrence pat) ps = true ->
                  no_dollar_pattern repl = true).
  { intros H. apply Hrepl. simpl. rewrite H. apply orb_true_r. }
  destruct p as [s | b]; unfold wf in Hp; simpl in Hp.
  - simpl. rewrite replace_scan_text by assumption.
    rewrite IH by assumption. reflexivity.
  - destruct (occurrence pat (Braced b)) eqn:Hocc.
    + rewrite replace_scan_occurrence by assumption.
      rewrite GetSubstitution_inert
        by (apply Hrepl; cbn [existsb]; rewrite Hocc; reflexivity).
      rewrite IH by assumption.
      unfold pass. unfold occurrence in Hocc. rewrite Hocc. reflexivity.
    + rewrite replace_scan_other by assumption.
      rewrite IH by assumption.
      unfold pass. unfold occurrence in Hocc. rewrite Hocc. reflexivity.
Qed.

Lemma pass_well_formed (ps : list piece) :
  Forall wf ps ->
  (existsb (occurrence pat) ps = true -> no_open_brace repl = true) ->
  Forall wf (map (pass pat repl) ps).
Proof.
  intros Hwf. induction Hwf as [|p ps Hp Hps IH]; intros Hrepl; simpl;
    constructor.
  - destruct p as [s | b]; [exact Hp|].
    unfold pass. destruct (str_eqb _ pat) eqn:E; [|exact Hp].
    apply Hrepl. cbn [existsb]. unfold occurrence. rewrite E. reflexivity.
  - apply IH. intros H. apply Hrepl. simpl. rewrite H. apply orb_true_r.
Qed.

Lemma pass_occurrences (k : jsstring) (ps : list piece) :
  existsb (occurrence k) (map (pass pat repl) ps) = true ->
  existsb (occurrence k) ps = true.
Proof.
  induction ps as [|p ps IH]; simpl; [auto|].
  rewrite !orb_true_iff. intros [H | H]; [left | right; auto].
  destruct p as [s | b]; [exact H|].
  unfold pass in H. destruct (str_eqb _ pat); [discriminate | exact H].
Qed.

End OnePass.

(** ** The table holds tokens *)

Lemma token_of (body : jsstring) :
  plain_keyword body = true -> toLowerCase body = body ->
  token ("{"%char :: body ++ ["}"%char]).
Proof. intros H1 H2. exists body. repeat split; assumption. Qed.

Lemma plain_keyword_lower (name : jsstring) :
  plain_keyword (toLowerCase name) = plain_keyword name.
Proof.
  unfold plain_keyword, toLowerCase. induction name as [|c name IH]; simpl;
    [reflexivity|].
  rewrite regex_syntax_lower, IH. reflexivity.
Qed.

Lemma toLowerCase_idempotent (s : jsstring) :
  toLowerCase (toLowerCase s) = toLowerCase s.
Proof.
  unfold toLowerCase. rewrite map_map. apply map_ext. apply lower_lower.
Qed.

Lemma prompt_placeholder_token (name : jsstring) :
  plain_keyword name = true -> token (prompt_placeholder name).
Proof.
  intros H.
  change (prompt_placeholder name)
    with ("{"%char :: (js "prompt:" ++ toLowerCase name) ++ ["}"%char]).
  apply token_of.
  - unfold plain_keyword. rewrite forallb_app.
    fold (plain_keyword (toLowerCase name)). rewrite plain_keyword_lower, H.
    reflexivity.
  - unfold toLowerCase. rewrite map_app.
    fold (toLowerCase name). fold (toLowerCase (toLowerCase name)).
    rewrite toLowerCase_idempotent. reflexivity.
Qed.

Lemma record_set_tokens (o : record) (k v : jsstring) :
  keys_are_tokens o -> token k -> keys_are_tokens (record_set o k v).
Proof.
  unfold keys_are_tokens. intros Ho Hk.
  induction Ho as [|[k' v'] o Hk' Ho IH]; simpl.
  - repeat constructor. exact Hk.
  - destruct (str_eqb k k'); constructor; assumption.
Qed.

Lemma fixed_substitutions_tokens (context : ParameterContext) :
  keys_are_tokens (fixed_substitutions context).
Proof.
  unfold keys_are_tokens, fixed_substitutions.
  repeat (apply Forall_cons; [|]); try apply Forall_nil; simpl fst.
  - exact (token_of (js "activenote") eq_refl eq_refl).
  - exact (token_of (js "activenotepath") eq_refl eq_refl).
  - exact (token_of (js "activenotecontent") eq_refl eq_refl).
  - exact (token_of (js "selectedtext") eq_refl eq_refl).
  - exact (token_of (js "currentdir") eq_refl eq_refl).
  - exact (token_of (js "vaultpath") eq_refl eq_refl).
  - exact (token_of (js "currentline") eq_refl eq_refl).
  - exact (token_of (js "currentlinenumber") eq_refl eq_refl).
  - exact (token_of (js "cursorline") eq_refl eq_refl).
  - exact (token_of (js "cursorcolumn") eq_refl eq_refl).
Qed.

Lemma substitutions_tokens (context : ParameterContext) :
  plain_prompts context = true -> keys_are_tokens (substitutions context).
Proof.
  unfold plain_prompts, substitutions. intros H.
  pose proof (fixed_substitutions_tokens context) as F.
  destruct (prompts context) as [entries|]; [|exact F].
  revert F. generalize (fixed_substitutions context).
  induction entries as [|[name value] entries IH]; intros o F; simpl;
    [exact F|].
  simpl in H. apply andb_true_iff in H. destruct H as [Hn He].
  apply IH; [exact He|]. unfold add_prompt. simpl.
  apply record_set_tokens; [exact F|]. apply prompt_placeholder_token, Hn.
Qed.

(** ** The regular expression of a token is the token *)

Lemma literal_source_plain (body tail : jsstring) :
  plain_keyword body = true ->
  literal_source (escape_braces body ++ tail)
  = option_map (app body) (literal_source tail).
Proof.
  intros H. induction body as [|c body IH]; simpl.
  - destruct (literal_source tail); reflexivity.
  - simpl in H. apply andb_true_iff in H. destruct H as [Hc Hb].
    apply negb_true_iff in Hc.
    assert (B : is_brace c = false).
    { destruct (is_brace c) eqn:B; [|reflexivity].
      rewrite (regex_syntax_brace c B) in Hc. discriminate. }
    rewrite B. simpl.
    rewrite (not_syntax_not_backslash c Hc), Hc, IH by assumption.
    destruct (literal_source tail); reflexivity.
Qed.

Lemma literal_source_token (k : jsstring) :
  token k -> literal_source (escape_braces k) = Some k.
Proof.
  intros (body & -> & Hplain & _).
  unfold escape_braces. simpl. rewrite flat_map_app.
  fold (escape_braces body). rewrite literal_source_plain by assumption.
  reflexivity.
Qed.

Lemma substitute_one_token
      (shescape_escape : jsstring -> completion jsstring)
      (regexp_replace_other :
         jsstring -> jsstring -> jsstring -> completion jsstring)
      (s k v : jsstring) :
  token k ->
  substitute_one shescape_escape regexp_replace_other (Returned s) (k, v)
  = Returned (replace_all_ci k (escapeShellArgument shescape_escape v) s).
Proof.
  intros Hk. unfold substitute_one, regexp_replace. simpl.
  rewrite (literal_source_token k Hk).
  destruct Hk as (body & -> & _). reflexivity.
Qed.

(** ** All the passes *)

Section Passes.

Variable shescape_escape : jsstring -> completion jsstring.
Variable regexp_replace_other :
  jsstring -> jsstring -> jsstring -> completion jsstring.

Let escape := escapeShellArgument shescape_escape.

(** The loop of [substituteParameters] over a table of tokens, on a
    template in pieces, is the sequence of passes over the pieces, as long
    as what is inserted for the placeholders that occur is inert. *)
Lemma substitute_fold (table : record) (ps : list piece) :
  keys_are_tokens table ->
  Forall wf ps ->
  (forall k v, In (k, v) table -> existsb (occurrence k) ps = true ->
               inert (escape v) = true) ->
  fold_left (substitute_one shescape_escape regexp_replace_other) table
            (Returned (render ps))
  = Returned (render (passes escape table ps)).
Proof.
  intros Ht. revert ps.
  induction Ht as [|[k v] table Hk Ht IH]; intros ps Hwf Hin; [reflexivity|].
  simpl in Hk. cbn [fold_left passes].
  rewrite substitute_one_token by exact Hk.
  unfold replace_all_ci.
  assert (Hocc : existsb (occurrence k) ps = true -> inert (escape v) = true).
  { apply Hin. left. reflexivity. }
  rewrite replace_scan_pieces; try assumption.
  - apply IH.
    + apply pass_well_formed; try assumption.
      intros H. specialize (Hocc H). unfold inert in Hocc.
      apply andb_true_iff in Hocc. apply Hocc.
    + intros k' v' Hin' Hocc'. apply (Hin k' v'); [right; exact Hin'|].
      eapply pass_occurrences. exact Hocc'.
  - intros H. specialize (Hocc H). unfold inert in Hocc.
    apply andb_true_iff in Hocc. apply Hocc.
Qed.

Lemma passes_pointwise (table : record) (ps : list piece) :
  passes escape table ps
  = map (fun p => fold_left (fun p entry => pass (fst entry) (escape (snd entry)) p)
                            table p) ps.
Proof.
  unfold passes. revert ps.
  induction table as [|entry table IH]; intros ps; simpl.
  - rewrite map_id. reflexivity.
  - rewrite IH, map_map. reflexivity.
Qed.

Lemma passes_on_text (table : record) (s : jsstring) :
  fold_left (fun p entry => pass (fst entry) (escape (snd entry)) p) table (Text s)
  = Text s.
Proof. induction table as [|entry table IH]; simpl; auto. Qed.

Lemma passes_on_piece (table : record) (p : piece) :
  render_piece
    (fold_left (fun p entry => pass (fst entry) (escape (snd entry)) p) table p)
  = match p with
    | Text s => s
    | Braced _ =>
        match record_get table (toLowerCase (render_piece p)) with
        | Some value => escape value
        | None => render_piece p
        end
    end.
Proof.
  destruct p as [s | b]; [rewrite passes_on_text; reflexivity|].
  induction table as [|[k v] table IH]; [reflexivity|].
  cbn [fold_left fst snd pass record_get].
  destruct (str_eqb (toLowerCase (render_piece (Braced b))) k).
  - rewrite passes_on_text. reflexivity.
  - exact IH.
Qed.

(** Substitution on a template in pieces, piece by piece. *)
Lemma substitute_pieces (context : ParameterContext) (ps : list piece) :
  plain_prompts context = true ->
  Forall wf ps ->
  (forall k v, In (k, v) (substitutions context) ->
               existsb (occurrence k) ps = true ->
               inert (escape v) = true) ->
  substituteParameters shescape_escape regexp_replace_other (render ps) context
  = Returned (flat_map (substituted_piece shescape_escape context) ps).
Proof.
  intros Hplain Hwf Hin. unfold substituteParameters.
  rewrite substitute_fold; try assumption;
    [|apply substitutions_tokens; assumption].
  f_equal. rewrite passes_pointwise. unfold render.
  rewrite flat_map_concat_map, map_map, <- flat_map_concat_map.
  apply flat_map_ext. intros p. rewrite passes_on_piece.
  destruct p; reflexivity.
Qed.

End Passes.

(** ** The single scan of the specification, on pieces *)

Section SinglePass.

Variable shescape_escape : jsstring -> completion jsstring.
Variable table : record.
Hypothesis table_tokens : keys_are_tokens table.

Let escape := escapeShellArgument shescape_escape.
Let scan := single_pass_scan shescape_escape table.

Lemma single_pass_skip (m rest : jsstring) :
  scan (m ++ rest) (length m) = scan rest 0.
Proof. induction m as [|c m IH]; simpl; auto. Qed.

Lemma first_match_no_brace (c : ascii) (s : jsstring) :
  Ascii.eqb c "{" = false -> first_match table (c :: s) = None.
Proof.
  intros Hc. induction table_tokens as [|[k v] t Hk Ht IH]; [reflexivity|].
  simpl in Hk. destruct (token_starts_with_brace k Hk) as (k' & ->).
  simpl. rewrite (not_open_brace_no_match c Hc). simpl. exact (IH Ht).
Qed.

Lemma single_pass_text (s rest : jsstring) :
  no_open_brace s = true -> scan (s ++ rest) 0 = s ++ scan rest 0.
Proof.
  induction s as [|c s IH]; intros H; [reflexivity|].
  simpl in H. apply andb_true_iff in H. destruct H as [Hc Hs].
  apply negb_true_iff in Hc.
  subst scan. cbn [app single_pass_scan].
  rewrite (first_match_no_brace c (s ++ rest) Hc).
  f_equal. apply IH, Hs.
Qed.

Lemma first_match_braced (b rest : jsstring) :
  no_brace b = true ->
  match first_match table (render_piece (Braced b) ++ rest) with
  | Some (k, v) =>
      record_get table (toLowerCase (render_piece (Braced b))) = Some v
      /\ length k = length (render_piece (Braced b))
  | None => record_get table (toLowerCase (render_piece (Braced b))) = None
  end.
Proof.
  intros Hb. induction table_tokens as [|[k v] t Hk Ht IH]; [reflexivity|].
  simpl in Hk. cbn [first_match record_get].
  rewrite (token_match k b rest Hk Hb).
  destruct (occurrence k (Braced b)) eqn:Hocc.
  - split; [|apply token_length; assumption].
    unfold occurrence in Hocc. rewrite Hocc. reflexivity.
  - unfold occurrence in Hocc. rewrite Hocc. exact (IH Ht).
Qed.

Lemma single_pass_braced (b rest : jsstring) :
  no_brace b = true ->
  scan (render_piece (Braced b) ++ rest) 0
  = match record_get table (toLowerCase (render_piece (Braced b))) with
    | Some value => escape value
    | None => render_piece (Braced b)
    end ++ scan rest 0.
Proof.
  intros Hb. pose proof (first_match_braced b rest Hb) as F.
  set (P := render_piece (Braced b)) in *.
  assert (E : scan (P ++ rest) 0
              = match first_match table (P ++ rest) with
                | Some (k, v) =>
                    escape v ++ scan ((b ++ ["}"%char]) ++ rest) (length k - 1)
                | None => "{"%char :: scan ((b ++ ["}"%char]) ++ rest) 0
                end) by reflexivity.
  rewrite E. clear E.
  destruct (first_match table (P ++ rest)) as [[k v]|].
  - destruct F as [-> L]. f_equal.
    replace (length k - 1) with (length (b ++ ["}"%char]))
      by (rewrite L; subst P; simpl; lia).
    apply single_pass_skip.
  - rewrite F. rewrite single_pass_text.
    + subst P. simpl. rewrite <- !app_assoc. reflexivity.
    + unfold no_open_brace. rewrite forallb_app. simpl.
      rewrite andb_true_r. apply no_brace_no_open, Hb.
Qed.

Lemma single_pass_pieces (ps : list piece) :
  Forall wf ps ->
  scan (render ps) 0
  = flat_map (fun p => match p with
                       | Text s => s
                       | Braced _ =>
                           match record_get table (toLowerCase (render_piece p)) with
                           | Some value => escape value
                           | None => render_piece p
                           end
                       end) ps.
Proof.
  intros Hwf. induction Hwf as [|p ps Hp Hps IH]; [reflexivity|].
  unfold render in *. cbn [flat_map].
  destruct p as [s | b]; unfold wf in Hp; simpl in Hp.
  - simpl render_piece. rewrite single_pass_text by assumption.
    rewrite IH. reflexivity.
  - rewrite single_pass_braced by assumption. rewrite IH. reflexivity.
Qed.

End SinglePass.

(** ** Substitution: one scan or several *)

(** C1: the code at the failing input.  The claim says that the escaped
    text inserted for one placeholder is never scanned again; the
    placeholders are replaced one after the other, each over the whole
    current text, so the escaped selection inserted for {selectedtext} is
    scanned again by the later pass of {vaultpath} and the final command
    is not the template with each occurrence replaced once by its escaped
    value.  Shown with an escaper that puts backslashes and with the manual
    fallback. *)
Lemma inserted_selection_is_scanned_again :
  substituteParameters backslash_escaper no_other_regexp
                       (js "echo {selectedtext}") selection_names_a_placeholder
  = Returned (js "echo \/vault")
  /\ single_pass backslash_escaper (js "echo {selectedtext}")
                 selection_names_a_placeholder
     = js "echo \{vaultpath}"
  /\ substituteParameters escaper_throws no_other_regexp
                          (js "echo {selectedtext}") selection_names_a_placeholder
     = Returned (js "echo " ++ dquote :: js "/vault" ++ [dquote])
  /\ single_pass escaper_throws (js "echo {selectedtext}")
                 selection_names_a_placeholder
     = js "echo " ++ dquote :: js "{vaultpath}" ++ [dquote]
  /\ substituteParameters backslash_escaper no_other_regexp
                          (js "echo {selectedtext}") selection_names_a_placeholder
     <> Returned (single_pass backslash_escaper (js "echo {selectedtext}")
                              selection_names_a_placeholder).
Proof.
  split; [vm_compute; reflexivity|].
  split; [vm_compute; reflexivity|].
  split; [vm_compute; reflexivity|].
  split; [vm_compute; reflexivity|].
  vm_compute. discriminate.
Qed.

(** The two side conditions of the single-scan reading.  A replacement
    pattern in the inserted text is expanded by [replace]: here [$'] brings
    in the text that follows the match. *)
Example replacement_pattern_is_expanded :
  replace_all_ci (js "{selectedtext}") (js "it$'s")
                 (js "echo {selectedtext} now")
  = js "echo it nows now".
Proof. reflexivity. Qed.

(** A token nested in another one: the inner pass completes a placeholder
    that the template did not contain. *)
Example nested_token_is_completed :
  substituteParameters backslash_escaper no_other_regexp
                       (js "echo {prompt:{activenote}}") prompt_named_after_note
  = Returned (js "echo today")
  /\ single_pass backslash_escaper (js "echo {prompt:{activenote}}")
                 prompt_named_after_note
     = js "echo {prompt:note}".
Proof. split; vm_compute; reflexivity. Qed.

Lemma substitute_passes
      (shescape_escape : jsstring -> completion jsstring)
      (regexp_replace_other :
         jsstring -> jsstring -> jsstring -> completion jsstring)
      (table : record) (command : jsstring) :
  keys_are_tokens table ->
  fold_left (substitute_one shescape_escape regexp_replace_other) table
            (Returned command)
  = Returned (fold_left (fun s entry =>
                           replace_all_ci (fst entry)
                             (escapeShellArgument shescape_escape (snd entry)) s)
                        table command).
Proof.
  intros Ht. revert command.
  induction Ht as [|[k v] table Hk Ht IH]; intros command; [reflexivity|].
  cbn [fold_left]. rewrite substitute_one_token by exact Hk. apply IH.
Qed.



(** X25: a sufficient condition for one scan.  For a context whose prompt
    keywords are ASCII text free of regular-expression syntax and a
    template made of text without an opening brace and of brace-delimited
    tokens whose body has no brace, when the escaped value of every
    placeholder that occurs in the template contains neither an opening
    brace nor a replacement pattern ($$, $&, $`, $'), the final command is
    the template with each placeholder occurrence replaced exactly once by
    the escaped value it maps to, as a single scan would give. *)
Theorem one_scan_when_inserted_values_are_inert
        (shescape_escape : jsstring -> completion jsstring)
        (regexp_replace_other :
           jsstring -> jsstring -> jsstring -> completion jsstring)
        (context : ParameterContext) (ps : list piece) :
  plain_prompts context = true ->
  ascii_prompts context = true ->
  Forall wf ps ->
  (forall placeholder value,
     In (placeholder, value) (substitutions context) ->
     existsb (occurrence placeholder) ps = true ->
     inert (escapeShellArgument shescape_escape value) = true) ->
  substituteParameters shescape_escape regexp_replace_other (render ps)
                       context
  = Returned (single_pass shescape_escape (render ps) context)
  /\ single_pass shescape_escape (render ps) context
     = flat_map (substituted_piece shescape_escape context) ps.
Proof.
  intros Hplain _ Hwf Hinert.
  pose proof (substitutions_tokens context Hplain) as Ht.
  assert (S : single_pass shescape_escape (render ps) context
              = flat_map (substituted_piece shescape_escape context) ps).
  { unfold single_pass. rewrite single_pass_pieces by assumption.
    apply flat_map_ext. intros [s | b]; reflexivity. }
  split; [|exact S]. rewrite S. apply substitute_pieces; assumption.
Qed.

Lemma one_scan_when_inserted_values_are_inert_witness :
  substituteParameters backslash_escaper no_other_regexp
    (render [Text (js "grep "); Braced (js "Prompt:File"); Text (js " ");
             Braced (js "vaultpath"); Text (js " | awk ");
             Braced (js "print $1")])
    two_prompts
  = Returned (single_pass backslash_escaper
                (render [Text (js "grep "); Braced (js "Prompt:File");
                         Text (js " "); Braced (js "vaultpath");
                         Text (js " | awk "); Braced (js "print $1")])
                two_prompts)
  /\ single_pass backslash_escaper
       (js "grep {Prompt:File} {vaultpath} | awk {print $1}") two_prompts
     = js "grep notes.txt /vault | awk {print $1}".
Proof.
  destruct (one_scan_when_inserted_values_are_inert backslash_escaper
              no_other_regexp two_prompts
              [Text (js "grep "); Braced (js "Prompt:File"); Text (js " ");
               Braced (js "vaultpath"); Text (js " | awk ");
               Braced (js "print $1")] eq_refl eq_refl) as [E S].
  - repeat constructor.
  - intros placeholder value Hin Hocc. simpl in Hin.
    repeat (destruct Hin as [Hin | Hin];
            [injection Hin as <- <-; vm_compute in Hocc; vm_compute;
             first [reflexivity | discriminate] |]).
    destruct Hin.
  - split; [exact E|]. vm_compute. reflexivity.
Defined.

(** ** Prompt placeholders *)

Lemma prompt_placeholder_inj (n k : jsstring) :
  prompt_placeholder n = prompt_placeholder k ->
  toLowerCase n = toLowerCase k.
Proof.
  unfold prompt_placeholder. intros H. apply app_inv_head in H.
  apply app_inv_tail in H. exact H.
Qed.

Lemma record_get_prompts_keep (entries : list (jsstring * jsstring))
      (o : record) (k v : jsstring) :
  record_get o (prompt_placeholder k) = Some v ->
  (forall k' v', In (k', v') entries ->
                 toLowerCase k' = toLowerCase k -> v' = v) ->
  record_get (fold_left add_prompt entries o) (prompt_placeholder k) = Some v.
Proof.
  revert o. induction entries as [|[n vn] entries IH]; intros o Ho Hu;
    [exact Ho|].
  cbn [fold_left]. apply IH.
  - unfold add_prompt. cbn [fst snd].
    destruct (str_eqb (prompt_placeholder k) (prompt_placeholder n)) eqn:E.
    + apply str_eqb_eq in E. rewrite <- E, record_get_set_same. f_equal.
      apply (Hu n vn); [left; reflexivity|].
      symmetry. apply prompt_placeholder_inj. exact E.
    + apply str_eqb_neq in E. rewrite record_get_set_other by exact E. exact Ho.
  - intros k' v' Hin. apply Hu. right. exact Hin.
Qed.

Lemma record_get_prompt (entries : list (jsstring * jsstring))
      (o : record) (k v : jsstring) :
  In (k, v) entries ->
  (forall k' v', In (k', v') entries ->
                 toLowerCase k' = toLowerCase k -> v' = v) ->
  record_get (fold_left add_prompt entries o) (prompt_placeholder k) = Some v.
Proof.
  revert o. induction entries as [|[n vn] entries IH]; intros o Hin Hu;
    [destruct Hin|].
  cbn [fold_left]. destruct Hin as [Hin | Hin].
  - injection Hin as -> ->. apply record_get_prompts_keep.
    + unfold add_prompt. cbn [fst snd]. apply record_get_set_same.
    + intros k' v' Hin'. apply Hu. right. exact Hin'.
  - apply IH; [exact Hin|]. intros k' v' Hin'. apply Hu. right. exact Hin'.
Qed.

Lemma in_record_set (o : record) (k v k' v' : jsstring) :
  In (k, v) (record_set o k' v') -> (k, v) = (k', v') \/ In (k, v) o.
Proof.
  induction o as [|[k0 v0] o IH]; simpl.
  - intros [H | []]. left. symmetry. exact H.
  - destruct (str_eqb k' k0).
    + intros [H | H]; [left; symmetry; exact H | right; right; exact H].
    + intros [H | H]; [right; left; exact H|].
      destruct (IH H) as [E | E]; [left; exact E | right; right; exact E].
Qed.

Lemma in_prompts (entries : list (jsstring * jsstring)) (o : record)
      (k v : jsstring) :
  In (k, v) (fold_left add_prompt entries o) ->
  In (k, v) o
  \/ exists name, In (name, v) entries /\ k = prompt_placeholder name.
Proof.
  revert o. induction entries as [|[n vn] entries IH]; intros o H;
    [left; exact H|].
  cbn [fold_left] in H. destruct (IH _ H) as [Hin | (name & Hin & E)].
  - unfold add_prompt in Hin. cbn [fst snd] in Hin.
    destruct (in_record_set _ _ _ _ _ Hin) as [E | E].
    + injection E as -> ->. right. exists n. split; [left|]; reflexivity.
    + left. exact E.
  - right. exists name. split; [right; exact Hin | exact E].
Qed.

Lemma toLowerCase_upper (s : jsstring) :
  toLowerCase (toUpperCase s) = toLowerCase s.
Proof.
  unfold toLowerCase, toUpperCase. rewrite map_map. apply map_ext, lower_upper.
Qed.

Lemma no_brace_upper (s : jsstring) :
  no_brace (toUpperCase s) = no_brace s.
Proof.
  unfold no_brace, toUpperCase. induction s as [|c s IH]; simpl;
    [reflexivity|].
  rewrite is_brace_upper, IH. reflexivity.
Qed.

Section PromptPlaceholder.

Variable shescape_escape : jsstring -> completion jsstring.
Variable regexp_replace_other :
  jsstring -> jsstring -> jsstring -> completion jsstring.
Variable context : ParameterContext.
Variable entries : list (jsstring * jsstring).
Variable k v : jsstring.

Hypothesis context_prompts : prompts context = Some entries.
Hypothesis prompt_entry : In (k, v) entries.
Hypothesis single_value :
  forall k' v', In (k', v') entries -> toLowerCase k' = toLowerCase k -> v' = v.
Hypothesis plain_entries :
  forallb (fun entry => plain_keyword (fst entry)) entries = true.
Hypothesis inert_value :
  inert (escapeShellArgument shescape_escape v) = true.

Lemma substitute_prompt_piece (body : jsstring) :
  no_brace body = true ->
  toLowerCase body = js "prompt:" ++ toLowerCase k ->
  substituteParameters shescape_escape regexp_replace_other
                       (render [Braced body]) context
  = Returned (escapeShellArgument shescape_escape v).
Proof.
  intros Hb Hl.
  assert (Hkey : toLowerCase (render_piece (Braced body)) = prompt_placeholder k).
  { rewrite lower_braced, Hl. reflexivity. }
  rewrite substitute_pieces.
  - cbn [flat_map substituted_piece]. rewrite Hkey.
    unfold substitutions. rewrite context_prompts.
    rewrite (record_get_prompt entries _ k v prompt_entry single_value).
    rewrite app_nil_r. reflexivity.
  - unfold plain_prompts. rewrite context_prompts. exact plain_entries.
  - repeat constructor. exact Hb.
  - intros k0 v0 Hin Hocc. cbn [existsb] in Hocc. rewrite orb_false_r in Hocc.
    unfold occurrence in Hocc. apply str_eqb_eq in Hocc.
    rewrite Hkey in Hocc. subst k0.
    unfold substitutions in Hin. rewrite context_prompts in Hin.
    destruct (in_prompts _ _ _ _ Hin) as [Hfixed | (name & Hname & E)].
    + exfalso. unfold fixed_substitutions, prompt_placeholder in Hfixed.
      simpl in Hfixed.
      repeat (destruct Hfixed as [Hfixed | Hfixed]; [discriminate|]).
      exact Hfixed.
    + apply prompt_placeholder_inj in E.
      rewrite (single_value name v0 Hname (eq_sym E)). exact inert_value.
Qed.

End PromptPlaceholder.

(** C3: the code at the failing input.  The claim says that the template
    {prompt:k} yields exactly the escaped form of the value of k; the
    value typed for one prompt can name the placeholder of a later prompt,
    and its escaped form, once inserted, is scanned by the pass of that
    later prompt and does not survive as the escaped form of the value
    (the defect of C1, seen on a prompt). *)
Lemma prompt_value_is_scanned_again :
  prompts prompts_naming_each_other
  = Some [(js "file", js "{prompt:dir}"); (js "dir", js "/tmp")]
  /\ escapeShellArgument backslash_escaper (js "{prompt:dir}")
     = js "\{prompt:dir}"
  /\ substituteParameters backslash_escaper no_other_regexp
                          (js "{prompt:file}") prompts_naming_each_other
     = Returned (js "\/tmp")
  /\ substituteParameters backslash_escaper no_other_regexp
                          (js "{prompt:file}") prompts_naming_each_other
     <> Returned (escapeShellArgument backslash_escaper (js "{prompt:dir}")).
Proof.
  split; [reflexivity|].
  split; [vm_compute; reflexivity|].
  split; [vm_compute; reflexivity|].
  vm_compute. discriminate.
Qed.

(** ** Line numbers, as substituted *)

Lemma substitute_fixed_token
      (shescape_escape : jsstring -> completion jsstring)
      (regexp_replace_other :
         jsstring -> jsstring -> jsstring -> completion jsstring)
      (context : ParameterContext) (body value : jsstring) :
  plain_prompts context = true ->
  no_brace body = true ->
  toLowerCase body = body ->
  (forall name, "{"%char :: body ++ ["}"%char] <> prompt_placeholder name) ->
  record_get (fixed_substitutions context) ("{"%char :: body ++ ["}"%char])
  = Some value ->
  (forall v0, In ("{"%char :: body ++ ["}"%char], v0)
                 (fixed_substitutions context) -> v0 = value) ->
  inert (escapeShellArgument shescape_escape value) = true ->
  substituteParameters shescape_escape regexp_replace_other
                       ("{"%char :: body ++ ["}"%char]) context
  = Returned (escapeShellArgument shescape_escape value).
Proof.
  intros Hplain Hb Hl Hnp Hget Huniq Hinert.
  assert (Hkey : toLowerCase (render_piece (Braced body))
                 = "{"%char :: body ++ ["}"%char]).
  { rewrite lower_braced, Hl. reflexivity. }
  replace ("{"%char :: body ++ ["}"%char]) with (render [Braced body]) at 1
    by (simpl; rewrite app_nil_r; reflexivity).
  rewrite substitute_pieces.
  - cbn [flat_map substituted_piece]. rewrite Hkey.
    rewrite (record_get_fixed context _ Hnp), Hget, app_nil_r. reflexivity.
  - exact Hplain.
  - repeat constructor. exact Hb.
  - intros k0 v0 Hin Hocc. cbn [existsb] in Hocc. rewrite orb_false_r in Hocc.
    unfold occurrence in Hocc. apply str_eqb_eq in Hocc.
    rewrite Hkey in Hocc. subst k0.
    unfold substitutions in Hin.
    destruct (prompts context) as [entries|].
    + destruct (in_prompts _ _ _ _ Hin) as [Hfixed | (name & _ & E)].
      * rewrite (Huniq v0 Hfixed). exact Hinert.
      * exfalso. exact (Hnp name E).
    + rewrite (Huniq v0 Hin). exact Hinert.
Qed.

(** C10, as stated, fails: the line number is computed by an addition in
    doubles, and with the cursor on line 2^53 the sum is rounded back to
    2^53, so that {currentlinenumber} and {cursorline} get the same
    value. *)
Lemma line_number_beyond_safe_integers :
  record_get (substitutions (getParameterContext decode_as_is
                               (editing_app "" 9007199254740992 0)))
             (js "{cursorline}") = Some (js "9007199254740992")
  /\ record_get (substitutions (getParameterContext decode_as_is
                                  (editing_app "" 9007199254740992 0)))
                (js "{currentlinenumber}") = Some (js "9007199254740992")
  /\ substituteParameters backslash_escaper no_other_regexp
                          (js "{cursorline}")
                          (getParameterContext decode_as_is
                             (editing_app "" 9007199254740992 0))
     = Returned (js "9007199254740992")
  /\ substituteParameters backslash_escaper no_other_regexp
                          (js "{currentlinenumber}")
                          (getParameterContext decode_as_is
                             (editing_app "" 9007199254740992 0))
     = Returned (js "9007199254740992").
Proof. repeat split; vm_compute; reflexivity. Qed.

(** C10 (amended): in a context collected while an editor is focused with
    the cursor on a line below 2^53 (with or without prompt values added
    afterwards), the value registered for {currentlinenumber} is the
    decimal form of the cursor line plus one and the value registered for
    {cursorline} is the decimal form of the cursor line itself, so that,
    read as numbers, the first is the second plus one.  What replaces each
    of the two placeholders, taken alone as a template, is the escaped form
    of its value (for plain prompt keywords and escaped forms that are
    inert). *)
Theorem line_number_is_cursor_line_plus_one
        (decodeURIComponent : jsstring -> completion jsstring)
        (app : App) (view : MarkdownView) (editor : Editor)
        (context : ParameterContext) :
  getActiveView app = Some view ->
  view_editor view = Some editor ->
  (line (getCursor editor) < 9007199254740992)%N ->
  (context = getParameterContext decodeURIComponent app
   \/ exists promptResults,
       context = with_prompts (getParameterContext decodeURIComponent app)
                              promptResults) ->
  exists cursorline currentlinenumber,
    record_get (substitutions context) (js "{cursorline}") = Some cursorline
    /\ record_get (substitutions context) (js "{currentlinenumber}")
       = Some currentlinenumber
    /\ cursorline = number_toString (line (getCursor editor))
    /\ currentlinenumber = number_toString (line (getCursor editor) + 1)
    /\ parse_number cursorline = Some (line (getCursor editor))
    /\ parse_number currentlinenumber = Some (line (getCursor editor) + 1)%N
    /\ forall shescape_escape regexp_replace_other,
         plain_prompts context = true ->
         inert (escapeShellArgument shescape_escape cursorline) = true ->
         inert (escapeShellArgument shescape_escape currentlinenumber) = true ->
         substituteParameters shescape_escape regexp_replace_other
                              (js "{cursorline}") context
         = Returned (escapeShellArgument shescape_escape cursorline)
         /\ substituteParameters shescape_escape regexp_replace_other
                                 (js "{currentlinenumber}") context
            = Returned (escapeShellArgument shescape_escape currentlinenumber).
Proof.
  intros Hview Heditor Hsafe Hctx.
  exists (number_toString (line (getCursor editor))),
         (number_toString (line (getCursor editor) + 1)).
  rewrite !parse_number_toString.
  assert (Hadd : number_add1 (line (getCursor editor))
                 = (line (getCursor editor) + 1)%N).
  { unfold number_add1. apply N.ltb_lt in Hsafe. rewrite Hsafe. reflexivity. }
  assert (Hfixed :
            cursorPosition context = Some (getCursor editor)
            /\ currentLineNumber context = Some (line (getCursor editor) + 1)%N).
  { destruct Hctx as [-> | [promptResults ->]]; simpl;
      rewrite Hview, Heditor; simpl; rewrite Hadd; split; reflexivity. }
  destruct Hfixed as [Hpos Hnum].
  assert (G1 : record_get (fixed_substitutions context) (js "{cursorline}")
               = Some (number_toString (line (getCursor editor)))).
  { simpl. rewrite Hpos. reflexivity. }
  assert (G2 : record_get (fixed_substitutions context)
                          (js "{currentlinenumber}")
               = Some (number_toString (line (getCursor editor) + 1))).
  { simpl. rewrite Hnum. reflexivity. }
  split; [rewrite record_get_fixed by (intros name; discriminate); exact G1|].
  split; [rewrite record_get_fixed by (intros name; discriminate); exact G2|].
  do 4 (split; [reflexivity|]).
  intros shescape_escape regexp_replace_other Hplain I1 I2. split.
  - apply (substitute_fixed_token shescape_escape regexp_replace_other context
             (js "cursorline")); try assumption; try reflexivity.
    + intros name; discriminate.
    + intros v0 H. unfold fixed_substitutions in H. rewrite Hpos in H.
      simpl in H.
      repeat (destruct H as [H | H];
              [first [discriminate | injection H as <-; reflexivity]|]).
      destruct H.
  - apply (substitute_fixed_token shescape_escape regexp_replace_other context
             (js "currentlinenumber")); try assumption; try reflexivity.
    + intros name; discriminate.
    + intros v0 H. unfold fixed_substitutions in H. rewrite Hnum in H.
      simpl in H.
      repeat (destruct H as [H | H];
              [first [discriminate | injection H as <-; reflexivity]|]).
      destruct H.
Qed.

Lemma line_number_is_cursor_line_plus_one_witness :
  exists cursorline currentlinenumber,
    record_get (substitutions (getParameterContext decode_as_is
                                 (editing_app "word" 41 7)))
               (js "{cursorline}") = Some cursorline
    /\ record_get (substitutions (getParameterContext decode_as_is
                                    (editing_app "word" 41 7)))
                  (js "{currentlinenumber}") = Some currentlinenumber
    /\ cursorline = js "41"
    /\ currentlinenumber = js "42"
    /\ parse_number cursorline = Some 41%N
    /\ parse_number currentlinenumber = Some 42%N
    /\ substituteParameters backslash_escaper no_other_regexp
                            (js "{cursorline}")
                            (getParameterContext decode_as_is
                               (editing_app "word" 41 7))
       = Returned (js "41")
    /\ substituteParameters backslash_escaper no_other_regexp
                            (js "{currentlinenumber}")
                            (getParameterContext decode_as_is
                               (editing_app "word" 41 7))
       = Returned (js "42").
Proof.
  destruct (line_number_is_cursor_line_plus_one decode_as_is
              (editing_app "word" 41 7) _ _ _ eq_refl eq_refl eq_refl
              (or_introl eq_refl))
    as (cursorline & currentlinenumber & G1 & G2 & E1 & E2 & P1 & P2 & S).
  exists cursorline, currentlinenumber.
  do 6 (split; [assumption|]).
  rewrite E1, E2 in S.
  exact (S backslash_escaper no_other_regexp eq_refl eq_refl eq_refl).
Defined.


(** * Further properties *)

(** ** Templates without placeholders *)

Lemma replace_scan_absent (pat repl before s : jsstring) :
  ci_occurs pat s = false -> replace_scan pat repl before s 0 = s.
Proof.
  revert before. induction s as [|c s IH]; intros before H; [reflexivity|].
  cbn [ci_occurs] in H. apply orb_false_iff in H. destruct H as [Hp Hs].
  cbn [replace_scan]. rewrite Hp. f_equal. apply IH, Hs.
Qed.

Lemma token_absent_without_brace (k s : jsstring) :
  token k -> no_open_brace s = true -> ci_occurs k s = false.
Proof.
  intros Hk. destruct (token_starts_with_brace k Hk) as (k' & ->).
  induction s as [|c s IH]; intros H; [reflexivity|].
  simpl in H. apply andb_true_iff in H. destruct H as [Hc Hs].
  apply negb_true_iff in Hc.
  cbn [ci_occurs ci_prefix]. rewrite (not_open_brace_no_match c Hc).
  simpl. apply IH, Hs.
Qed.

Lemma passes_leave_unchanged
      (shescape_escape : jsstring -> completion jsstring)
      (table : record) (command : jsstring) :
  (forall k v, In (k, v) table -> ci_occurs k command = false) ->
  fold_left (fun s entry =>
               replace_all_ci (fst entry)
                 (escapeShellArgument shescape_escape (snd entry)) s)
            table command = command.
Proof.
  induction table as [|[k v] table IH]; intros H; [reflexivity|].
  cbn [fold_left fst snd]. unfold replace_all_ci.
  rewrite replace_scan_absent by (apply (H k v); left; reflexivity).
  apply IH. intros k' v' Hin. apply (H k' v'). right. exact Hin.
Qed.

(** X1: when the prompt keywords are ASCII text without
    regular-expression syntax, a template in which none of the registered
    placeholders occurs comes back unchanged; in particular every template
    without an opening brace does. *)
Theorem template_without_placeholders_is_unchanged
        (shescape_escape : jsstring -> completion jsstring)
        (regexp_replace_other :
           jsstring -> jsstring -> jsstring -> completion jsstring)
        (context : ParameterContext) (command : jsstring) :
  plain_prompts context = true ->
  ascii_prompts context = true ->
  ((forall placeholder value,
      In (placeholder, value) (substitutions context) ->
      ci_occurs placeholder command = false) ->
   substituteParameters shescape_escape regexp_replace_other command context
   = Returned command)
  /\ (no_open_brace command = true ->
      substituteParameters shescape_escape regexp_replace_other command context
      = Returned command).
Proof.
  intros Hplain _. pose proof (substitutions_tokens context Hplain) as Ht.
  assert (A : (forall placeholder value,
                 In (placeholder, value) (substitutions context) ->
                 ci_occurs placeholder command = false) ->
              substituteParameters shescape_escape regexp_replace_other
                                   command context = Returned command).
  { intros H. unfold substituteParameters.
    rewrite substitute_passes by exact Ht.
    rewrite passes_leave_unchanged by exact H. reflexivity. }
  split; [exact A|]. intros Hb. apply A. intros k v Hin.
  apply token_absent_without_brace; [|exact Hb].
  unfold keys_are_tokens in Ht. rewrite Forall_forall in Ht.
  exact (Ht (k, v) Hin).
Qed.

Lemma template_without_placeholders_is_unchanged_witness :
  substituteParameters backslash_escaper no_other_regexp
                       (js "git status && echo ${HOME} {done}") two_prompts
  = Returned (js "git status && echo ${HOME} {done}")
  /\ substituteParameters backslash_escaper no_other_regexp
                          (js "ls -la | wc -l") two_prompts
     = Returned (js "ls -la | wc -l").
Proof.
  split.
  - refine (proj1 (template_without_placeholders_is_unchanged
                     backslash_escaper no_other_regexp two_prompts
                     (js "git status && echo ${HOME} {done}") eq_refl
                     eq_refl) _).
    intros placeholder value Hin. simpl in Hin.
    repeat (destruct Hin as [Hin | Hin];
            [injection Hin as <- <-; vm_compute; reflexivity|]).
    destruct Hin.
  - exact (proj2 (template_without_placeholders_is_unchanged
                    backslash_escaper no_other_regexp two_prompts
                    (js "ls -la | wc -l") eq_refl eq_refl) eq_refl).
Defined.

(** ** The fixed placeholders, in any letter case *)

Lemma fixed_entry_lookup (context : ParameterContext) (k v : jsstring) :
  In (k, v) (fixed_substitutions context) ->
  record_get (fixed_substitutions context) k = Some v
  /\ forall name, k <> prompt_placeholder name.
Proof.
  unfold fixed_substitutions. intros H. simpl in H.
  repeat (destruct H as [H | H];
          [injection H as <- <-; split; [reflexivity | intros name; discriminate]|]).
  destruct H.
Qed.

Lemma fixed_entry_unique (context : ParameterContext) (k v v' : jsstring) :
  In (k, v) (fixed_substitutions context) ->
  In (k, v') (fixed_substitutions context) -> v' = v.
Proof.
  intros H H'.
  destruct (fixed_entry_lookup context k v H) as [E _].
  destruct (fixed_entry_lookup context k v' H') as [E' _].
  congruence.
Qed.

Lemma fixed_token_substituted
      (shescape_escape : jsstring -> completion jsstring)
      (regexp_replace_other :
         jsstring -> jsstring -> jsstring -> completion jsstring)
      (context : ParameterContext) (body value : jsstring) :
  plain_prompts context = true ->
  no_brace body = true ->
  In ("{"%char :: toLowerCase body ++ ["}"%char], value)
     (fixed_substitutions context) ->
  inert (escapeShellArgument shescape_escape value) = true ->
  substituteParameters shescape_escape regexp_replace_other
                       ("{"%char :: body ++ ["}"%char]) context
  = Returned (escapeShellArgument shescape_escape value).
Proof.
  intros Hplain Hb Hin Hinert.
  destruct (fixed_entry_lookup context _ _ Hin) as [Hget Hnp].
  replace ("{"%char :: body ++ ["}"%char]) with (render [Braced body])
    by (simpl; rewrite app_nil_r; reflexivity).
  rewrite substitute_pieces.
  - cbn [flat_map substituted_piece]. rewrite lower_braced.
    rewrite (record_get_fixed context _ Hnp), Hget, app_nil_r. reflexivity.
  - exact Hplain.
  - repeat constructor. exact Hb.
  - intros k0 v0 Hin0 Hocc. cbn [existsb] in Hocc.
    rewrite orb_false_r in Hocc. unfold occurrence in Hocc.
    apply str_eqb_eq in Hocc. rewrite lower_braced in Hocc. subst k0.
    unfold substitutions in Hin0.
    destruct (prompts context) as [entries|].
    + destruct (in_prompts _ _ _ _ Hin0) as [Hfixed | (name & _ & E)].
      * rewrite (fixed_entry_unique context _ _ _ Hin Hfixed). exact Hinert.
      * exfalso. exact (Hnp name E).
    + rewrite (fixed_entry_unique context _ _ _ Hin Hin0). exact Hinert.
Qed.

Lemma empty_value_is_inert (shescape_escape : jsstring -> completion jsstring) :
  escapeShellArgument shescape_escape [] = [dquote; dquote]
  /\ inert (escapeShellArgument shescape_escape []) = true.
Proof. split; reflexivity. Qed.

(** X2: each of the ten fixed placeholders, written in any letter case and
    taken alone as a template, is replaced by the escaped form of the value
    registered for it, when the prompt keywords are plain and that escaped
    form is inert. *)
Theorem fixed_placeholder_any_case
        (shescape_escape : jsstring -> completion jsstring)
        (regexp_replace_other :
           jsstring -> jsstring -> jsstring -> completion jsstring)
        (context : ParameterContext) (body value : jsstring) :
  plain_prompts context = true ->
  no_brace body = true ->
  In ("{"%char :: toLowerCase body ++ ["}"%char], value)
     (fixed_substitutions context) ->
  inert (escapeShellArgument shescape_escape value) = true ->
  substituteParameters shescape_escape regexp_replace_other
                       ("{"%char :: body ++ ["}"%char]) context
  = Returned (escapeShellArgument shescape_escape value)
  /\ substituteParameters shescape_escape regexp_replace_other
                          ("{"%char :: toUpperCase body ++ ["}"%char]) context
     = Returned (escapeShellArgument shescape_escape value)
  /\ substituteParameters shescape_escape regexp_replace_other
                          ("{"%char :: toLowerCase body ++ ["}"%char]) context
     = Returned (escapeShellArgument shescape_escape value).
Proof.
  intros Hplain Hb Hin Hinert. split; [|split].
  - apply fixed_token_substituted; assumption.
  - apply fixed_token_substituted; try assumption.
    + rewrite no_brace_upper. exact Hb.
    + rewrite toLowerCase_upper. exact Hin.
  - apply fixed_token_substituted; try assumption.
    + unfold no_brace, toLowerCase in *. rewrite forallb_forall in *.
      intros c Hc. apply in_map_iff in Hc. destruct Hc as (d & <- & Hd).
      specialize (Hb d Hd). revert Hb. each_char d.
    + rewrite toLowerCase_idempotent. exact Hin.
Qed.

Lemma fixed_placeholder_any_case_witness :
  substituteParameters backslash_escaper no_other_regexp (js "{vaultPath}")
                       two_prompts = Returned (js "/vault")
  /\ substituteParameters backslash_escaper no_other_regexp (js "{VAULTPATH}")
                          two_prompts = Returned (js "/vault")
  /\ substituteParameters backslash_escaper no_other_regexp (js "{vaultpath}")
                          two_prompts = Returned (js "/vault").
Proof.
  refine (fixed_placeholder_any_case backslash_escaper no_other_regexp
            two_prompts (js "vaultPath") (js "/vault") eq_refl eq_refl _ eq_refl).
  simpl. do 5 right. left. reflexivity.
Defined.

(** X3: when the prompt keywords are free of regular-expression syntax, a
    fixed placeholder whose context field is absent or empty, taken alone
    as a template, is replaced by the literal of two double quotes,
    whatever the escaper: the placeholder does not just vanish from the
    command line. *)
Theorem empty_field_is_quoted
        (shescape_escape : jsstring -> completion jsstring)
        (regexp_replace_other :
           jsstring -> jsstring -> jsstring -> completion jsstring)
        (context : ParameterContext) (body : jsstring) :
  plain_prompts context = true ->
  no_brace body = true ->
  In ("{"%char :: toLowerCase body ++ ["}"%char], [])
     (fixed_substitutions context) ->
  substituteParameters shescape_escape regexp_replace_other
                       ("{"%char :: body ++ ["}"%char]) context
  = Returned [dquote; dquote].
Proof.
  intros Hplain Hb Hin.
  destruct (empty_value_is_inert shescape_escape) as [E I].
  rewrite (fixed_token_substituted shescape_escape regexp_replace_other
             context body [] Hplain Hb Hin I).
  rewrite E. reflexivity.
Qed.

Lemma empty_field_is_quoted_witness :
  substituteParameters escaper_throws no_other_regexp (js "{selectedText}")
                       two_prompts = Returned [dquote; dquote].
Proof.
  refine (empty_field_is_quoted escaper_throws no_other_regexp two_prompts
            (js "selectedText") eq_refl eq_refl _).
  simpl. do 3 right. left. reflexivity.
Defined.

Ltac find_entry := first [left; reflexivity | right; find_entry].

(** ** What a foreground or background run does *)

Lemma performAction_events (app : App) (action : jsstring)
      (result : CommandExecutionResult) :
  Forall (fun ev => is_action_event ev = true)
         (events (performAction app action result)).
Proof.
  unfold performAction.
  destruct (str_eqb action (js "copy")).
  { unfold copyToClipboard, lift, emit. trace.
    destruct (clipboard_writeText app (output result)); repeat constructor. }
  destruct (str_eqb action (js "replace")).
  { unfold replaceSelection, active_editor.
    destruct (getActiveView app) as [[[editor|] file]|]; simpl;
      try destruct (truthy (getSelection editor)); repeat constructor. }
  destruct (str_eqb action (js "insert")).
  { unfold insertAtCursor, active_editor.
    destruct (getActiveView app) as [[[editor|] file]|]; repeat constructor. }
  destruct (str_eqb action (js "append")); [|repeat constructor].
  unfold appendToCurrentNote.
  destruct (getActiveView app) as [[editor [file|]]|]; try repeat constructor.
  unfold lift, emit. trace.
  destruct (vault_read app file) as [content|]; simpl; [|constructor].
  destruct (vault_modify app file _); repeat constructor.
Qed.

Lemma filter_none {A} (f g : A -> bool) (l : list A) :
  Forall (fun x => g x = true) l ->
  (forall x, g x = true -> f x = false) ->
  filter f l = [].
Proof.
  intros H Hfg. induction H as [|x l Hx Hl IH]; simpl; [reflexivity|].
  rewrite (Hfg x Hx). exact IH.
Qed.

Lemma action_events_no_child (l : list Event) :
  Forall (fun ev => is_action_event ev = true) l ->
  filter is_child_process l = [] /\ filter is_modal l = [].
Proof.
  intros H. split; apply (filter_none _ is_action_event l H);
    intros [] E; try reflexivity; discriminate.
Qed.

Section Runs.

Variable settings : PluginSettings.
Variable process : Process.
Variable path_join : jsstring -> jsstring -> jsstring.
Variable child_exec : ExecRequest -> ExecOutcome.
Variable app : App.
Variable script : CommandScript.
Variable substitutedCommand : jsstring.
Variable context : ParameterContext.

Let request := exec_request settings process path_join script
                            substitutedCommand context.
Let run := executeCommand settings process path_join child_exec app script
                          substitutedCommand context.
Let failed := failure_result script substitutedCommand context.
Let succeeded := success_result script substitutedCommand context.

Local Arguments mbind : simpl never.
Local Arguments try_catch : simpl never.
Local Arguments performAction : simpl never.
Local Arguments js : simpl never.

(** The events of a run, up to the notices: the child process, the result
    built, and what is presented. *)
Lemma run_without_notices :
  filter (fun ev => negb (is_notice ev)) (events run)
  = match child_exec request with
    | Rejected e =>
        [ChildProcess request; ResultCreated (failed e)]
        ++ (if background script then []
            else [ModalOpen (failed e) (script_name script)])
    | Resolved stdout stderr =>
        let r := succeeded (stdout, stderr) in
        [ChildProcess request; ResultCreated r]
        ++ (if background script then []
            else if has_default_action script then
              let action := performAction app (or_empty (defaultAction script)) r in
              filter (fun ev => negb (is_notice ev)) (events action)
              ++ match outcome action with
                 | Returned _ => []
                 | Thrown e => [ResultCreated (failed e);
                                ModalOpen (failed e) (script_name script)]
                 end
            else [ModalOpen r (script_name script)])
    end.
Proof.
  subst run failed succeeded.
  unfold executeCommand, run_child, when, emit. fold request.
  unfold has_default_action.
  destruct (child_exec request) as [stdout stderr | e].
  - destruct (background script).
    + destruct (showNotifications settings); trace; reflexivity.
    + destruct (truthy (or_empty (defaultAction script))
                && negb (str_eqb (or_empty (defaultAction script)) (js "none"))).
      * destruct (showNotifications settings); trace;
          match goal with
          | |- context [outcome (performAction ?a ?b ?c)] =>
              destruct (outcome (performAction a b c)) as [[]|e]
          end; trace; rewrite ?app_nil_r, ?filter_app; reflexivity.
      * destruct (showNotifications settings); trace; reflexivity.
  - destruct (showNotifications settings), (background script); trace;
      reflexivity.
Qed.

Lemma run_outcome :
  outcome run
  = match child_exec request with
    | Rejected e => Returned (failed e)
    | Resolved stdout stderr =>
        let r := succeeded (stdout, stderr) in
        if background script then Returned r
        else if has_default_action script then
          match outcome (performAction app (or_empty (defaultAction script)) r) with
          | Returned _ => Returned r
          | Thrown e => Returned (failed e)
          end
        else Returned r
    end.
Proof.
  subst run failed succeeded.
  unfold executeCommand, run_child, when, emit. fold request.
  unfold has_default_action.
  destruct (child_exec request) as [stdout stderr | e].
  - destruct (background script).
    + destruct (showNotifications settings); trace; reflexivity.
    + destruct (truthy (or_empty (defaultAction script))
                && negb (str_eqb (or_empty (defaultAction script)) (js "none"))).
      * destruct (showNotifications settings); trace;
          match goal with
          | |- context [outcome (performAction ?a ?b ?c)] =>
              destruct (outcome (performAction a b c)) as [[]|e]
          end; trace; reflexivity.
      * destruct (showNotifications settings); trace; reflexivity.
  - destruct (showNotifications settings), (background script); trace;
      reflexivity.
Qed.

End Runs.

Lemma filter_filter_sub {A} (f g : A -> bool) (l : list A) :
  (forall x, f x = true -> g x = true) ->
  filter f (filter g l) = filter f l.
Proof.
  intros Hfg. induction l as [|x l IH]; simpl; [reflexivity|].
  destruct (g x) eqn:G; simpl; rewrite IH; [reflexivity|].
  destruct (f x) eqn:F; [|reflexivity].
  rewrite (Hfg x F) in G. discriminate.
Qed.

Lemma Forall_filter {A} (P : A -> Prop) (g : A -> bool) (l : list A) :
  Forall P l -> Forall P (filter g l).
Proof.
  intros H. apply Forall_forall. intros x Hx. apply filter_In in Hx.
  exact (proj1 (Forall_forall P l) H x (proj1 Hx)).
Qed.

Lemma child_process_is_no_notice (ev : Event) :
  is_child_process ev = true -> negb (is_notice ev) = true.
Proof. destruct ev; simpl; intros E; try reflexivity; discriminate. Qed.

Lemma modal_is_no_notice (ev : Event) :
  is_modal ev = true -> negb (is_notice ev) = true.
Proof. destruct ev; simpl; intros E; try reflexivity; discriminate. Qed.

Lemma code_or_minus1_nonzero (c : JsCode) :
  code_or_minus1 c <> CodeNum 0 /\ code_or_minus1 c <> CodeAbsent.
Proof.
  destruct c as [|z|s]; simpl.
  - split; discriminate.
  - destruct (Z.eqb z 0) eqn:E; [split; discriminate|].
    apply Z.eqb_neq in E. split; [|discriminate].
    intros H. inversion H. contradiction.
  - destruct (truthy s); split; discriminate.
Qed.

(** X6: every call of [executeCommand] starts exactly one child process,
    whatever the child, the script and the default action do.  The call
    carries the resolved working directory, a timeout of 30000 ms and the
    configured output limit.  On Windows, or with the login shell setting
    off, the command goes to [exec] with the selected shell as the [shell]
    option; otherwise [execFile] runs the selected shell with the arguments
    [-l], [-c] and the command, the command being one argument. *)
Theorem executeCommand_starts_one_child_process
        (settings : PluginSettings) (process : Process)
        (path_join : jsstring -> jsstring -> jsstring)
        (child_exec : ExecRequest -> ExecOutcome) (app : App)
        (script : CommandScript) (substitutedCommand : jsstring)
        (context : ParameterContext) :
  let cwd := workingDir settings process path_join script context in
  let shell := getSelectedShell settings process in
  let request :=
    if win32 process || negb (useLoginShell settings) then
      Exec substitutedCommand
           {| opt_cwd := cwd; opt_timeout := 30000;
              opt_maxBuffer := maxOutputLength settings;
              opt_shell := Some shell |}
    else
      ExecFile shell [js "-l"; js "-c"; substitutedCommand]
               {| opt_cwd := cwd; opt_timeout := 30000;
                  opt_maxBuffer := maxOutputLength settings;
                  opt_shell := None |} in
  filter is_child_process
         (events (executeCommand settings process path_join child_exec app
                                 script substitutedCommand context))
  = [ChildProcess request].
Proof.
  intros cwd shell request.
  rewrite <- (filter_filter_sub is_child_process
                (fun ev => negb (is_notice ev)) _ child_process_is_no_notice).
  rewrite run_without_notices.
  assert (R : exec_request settings process path_join script
                           substitutedCommand context = request).
  { subst request cwd shell. unfold exec_request, getShellWithLoginFlag.
    destruct (win32 process || negb (useLoginShell settings)); reflexivity. }
  rewrite R.
  destruct (child_exec request) as [stdout stderr | e]; cbn zeta.
  - destruct (background script); [reflexivity|].
    destruct (has_default_action script); [|reflexivity].
    cbn [List.app filter is_child_process]. f_equal.
    rewrite filter_app.
    rewrite (proj1 (action_events_no_child _
               (Forall_filter _ _ _ (performAction_events app _ _)))).
    destruct (outcome (performAction _ _ _)); reflexivity.
  - destruct (background script); reflexivity.
Qed.

(** X7: the result [executeCommand] returns has [success] true exactly when
    its [exitCode] is the number 0.  A failed result never carries exit
    code 0, nor a missing one: [error.code || -1] turns a code of 0, an
    empty code and a missing code into -1. *)
Theorem success_iff_exit_code_zero
        (settings : PluginSettings) (process : Process)
        (path_join : jsstring -> jsstring -> jsstring)
        (child_exec : ExecRequest -> ExecOutcome) (app : App)
        (script : CommandScript) (substitutedCommand : jsstring)
        (context : ParameterContext) :
  exists r,
    outcome (executeCommand settings process path_join child_exec app script
                            substitutedCommand context) = Returned r
    /\ (success r = true <-> exitCode r = CodeNum 0)
    /\ exitCode r <> CodeAbsent.
Proof.
  rewrite run_outcome.
  assert (F : forall e,
             let r := failure_result script substitutedCommand context e in
             (success r = true <-> exitCode r = CodeNum 0)
             /\ exitCode r <> CodeAbsent).
  { intros e. simpl. destruct (code_or_minus1_nonzero (err_code e)) as [Z A].
    split; [split; intros H; [discriminate | contradiction] | exact A]. }
  assert (S : forall o,
             let r := success_result script substitutedCommand context o in
             (success r = true <-> exitCode r = CodeNum 0)
             /\ exitCode r <> CodeAbsent).
  { intros o. simpl. split; [split; reflexivity | discriminate]. }
  destruct (child_exec _) as [stdout stderr | e]; cbn zeta.
  - destruct (background script); [eexists; split; [reflexivity | apply S]|].
    destruct (has_default_action script);
      [|eexists; split; [reflexivity | apply S]].
    destruct (outcome (performAction _ _ _));
      eexists; (split; [reflexivity|]); [apply S | apply F].
  - eexists; split; [reflexivity | apply F].
Qed.

(** X8: a foreground run opens the result modal at most once, and always on
    the result that it returns.  It opens no modal exactly when the child
    succeeded, a default action other than none is configured and that
    action completed; when the action throws, the modal shows the failed
    result built from the action's error. *)
Theorem foreground_run_modal
        (settings : PluginSettings) (process : Process)
        (path_join : jsstring -> jsstring -> jsstring)
        (child_exec : ExecRequest -> ExecOutcome) (app : App)
        (script : CommandScript) (substitutedCommand : jsstring)
        (context : ParameterContext) :
  background script = false ->
  let request := exec_request settings process path_join script
                              substitutedCommand context in
  let run := executeCommand settings process path_join child_exec app script
                            substitutedCommand context in
  let action_completed :=
    match child_exec request with
    | Resolved stdout stderr =>
        has_default_action script
        && match outcome (performAction app (or_empty (defaultAction script))
                            (success_result script substitutedCommand context
                                            (stdout, stderr))) with
           | Returned _ => true
           | Thrown _ => false
           end
    | Rejected _ => false
    end in
  exists r,
    outcome run = Returned r
    /\ filter is_modal (events run)
       = (if action_completed then []
          else [ModalOpen r (script_name script)])
    /\ (forall stdout stderr e,
          child_exec request = Resolved stdout stderr ->
          has_default_action script = true ->
          outcome (performAction app (or_empty (defaultAction script))
                     (success_result script substitutedCommand context
                                     (stdout, stderr))) = Thrown e ->
          r = failure_result script substitutedCommand context e).
Proof.
  intros B request run action_completed.
  subst run action_completed.
  rewrite <- (filter_filter_sub is_modal (fun ev => negb (is_notice ev)) _
                modal_is_no_notice).
  rewrite run_without_notices, run_outcome. fold request. rewrite B.
  destruct (child_exec request) as [stdout stderr | e]; cbn zeta.
  - destruct (has_default_action script); cbn [andb].
    + cbn [List.app filter is_modal]. rewrite filter_app.
      rewrite (proj2 (action_events_no_child _
                 (Forall_filter _ _ _ (performAction_events app _ _)))).
      destruct (outcome (performAction _ _ _)) as [u | e] eqn:O.
      * eexists; split; [reflexivity|]. split; [reflexivity|].
        intros o1 o2 e H _ H'. inversion H; subst o1 o2.
        rewrite O in H'. discriminate.
      * eexists; split; [reflexivity|]. split; [reflexivity|].
        intros o1 o2 e' H _ H'. inversion H; subst o1 o2.
        rewrite O in H'. inversion H'. reflexivity.
    + eexists; split; [reflexivity|]. split; [reflexivity|].
      intros o1 o2 e _ H. discriminate.
  - eexists; split; [reflexivity|]. split; [reflexivity|].
    intros o1 o2 e' H. discriminate.
Qed.

Lemma foreground_run_modal_witness :
  background (action_script "date" "copy") = false
  /\ exists r,
       outcome (executeCommand default_settings linux_process slash_join
                  (child_succeeds "Mon") clipboard_denied
                  (action_script "date" "copy") (js "date") empty_context)
       = Returned r
       /\ success r = false
       /\ error r = js "Write permission denied."
       /\ filter is_modal
            (events (executeCommand default_settings linux_process slash_join
                       (child_succeeds "Mon") clipboard_denied
                       (action_script "date" "copy") (js "date") empty_context))
          = [ModalOpen r (js "Example")].
Proof.
  split; [reflexivity|].
  destruct (foreground_run_modal default_settings linux_process slash_join
              (child_succeeds "Mon") clipboard_denied
              (action_script "date" "copy") (js "date") empty_context
              eq_refl) as (r & O & Mo & A).
  exists r. split; [exact O|].
  rewrite (A (js "Mon") [] (plain_error "Write permission denied.")
             eq_refl eq_refl eq_refl) in *.
  split; [reflexivity|]. split; [reflexivity|]. exact Mo.
Defined.

Section SilentRun.

Variable settings : PluginSettings.
Variable process : Process.
Variable path_join : jsstring -> jsstring -> jsstring.
Variable child_exec : ExecRequest -> ExecOutcome.
Variable app : App.
Variable script : CommandScript.
Variable substitutedCommand : jsstring.
Variable context : ParameterContext.

Local Arguments mbind : simpl never.
Local Arguments try_catch : simpl never.
Local Arguments js : simpl never.

Lemma silent_background_trace :
  showNotifications settings = false ->
  background script = true ->
  let request := exec_request settings process path_join script
                              substitutedCommand context in
  let run := executeCommand settings process path_join child_exec app script
                            substitutedCommand context in
  let r := match child_exec request with
           | Resolved stdout stderr =>
               success_result script substitutedCommand context (stdout, stderr)
           | Rejected e => failure_result script substitutedCommand context e
           end in
  outcome run = Returned r
  /\ events run = [ChildProcess request; ResultCreated r].
Proof.
  intros N B request run r. subst run r.
  unfold executeCommand, run_child, when, emit. fold request.
  rewrite N, B.
  destruct (child_exec request) as [stdout stderr | e]; trace;
    split; reflexivity.
Qed.

End SilentRun.

(** X9: with notifications switched off, a background run shows the user
    nothing at all, whether the command succeeded or failed: the run
    consists of the child process and the construction of the result it
    returns. *)
Theorem silent_background_run
        (settings : PluginSettings) (process : Process)
        (path_join : jsstring -> jsstring -> jsstring)
        (child_exec : ExecRequest -> ExecOutcome) (app : App)
        (script : CommandScript) (substitutedCommand : jsstring)
        (context : ParameterContext) :
  showNotifications settings = false ->
  background script = true ->
  let request := exec_request settings process path_join script
                              substitutedCommand context in
  let run := executeCommand settings process path_join child_exec app script
                            substitutedCommand context in
  exists r,
    outcome run = Returned r
    /\ events run = [ChildProcess request; ResultCreated r]
    /\ (forall e, child_exec request = Rejected e -> success r = false).
Proof.
  intros N B request run.
  destruct (silent_background_trace settings process path_join child_exec app
              script substitutedCommand context N B) as [O E].
  eexists. split; [exact O|]. split; [exact E|].
  intros e H. fold request. rewrite H. reflexivity.
Qed.

Lemma silent_background_run_witness :
  exists r,
    events (executeCommand silent_settings linux_process slash_join
              (child_fails (TimedOut (js "Command failed: sleep 60") [] []))
              idle_app (background_script "sleep 60") (js "sleep 60")
              empty_context)
    = [ChildProcess
         (ExecFile (js "/bin/zsh") [js "-l"; js "-c"; js "sleep 60"]
                   {| opt_cwd := js "/home/me"; opt_timeout := 30000;
                      opt_maxBuffer := 10000; opt_shell := None |});
       ResultCreated r]
    /\ success r = false.
Proof.
  destruct (silent_background_run silent_settings linux_process slash_join
              (child_fails (TimedOut (js "Command failed: sleep 60") [] []))
              idle_app (background_script "sleep 60") (js "sleep 60")
              empty_context eq_refl eq_refl) as (r & O & E & F).
  exists r. split; [exact E | exact (F _ eq_refl)].
Defined.

(** ** The default action *)

Ltac one_change :=
  first [ left; reflexivity
        | right; left; reflexivity
        | right; right; left; reflexivity
        | right; right; right; left; eexists; reflexivity ].

(** X10: a default action changes at most one thing (the clipboard, the
    selection, the text at the cursor or the note), and what it writes is
    taken from the output of the result, never from its error text.  When
    the action completes it has shown exactly one notice; when it throws
    (the clipboard or the vault refused) it has shown and changed nothing. *)
Theorem performAction_reports (app : App) (action : jsstring)
        (result : CommandExecutionResult) :
  let act := performAction app action result in
  (filter (fun ev => negb (is_notice ev)) (events act) = []
   \/ filter (fun ev => negb (is_notice ev)) (events act)
      = [ClipboardWrite (output result)]
   \/ filter (fun ev => negb (is_notice ev)) (events act)
      = [ReplaceSelection (output result)]
   \/ (exists cursor,
         filter (fun ev => negb (is_notice ev)) (events act)
         = [ReplaceRange (output result) cursor])
   \/ (exists file content,
         vault_read app file = Returned content
         /\ filter (fun ev => negb (is_notice ev)) (events act)
            = [VaultModify file (content ++ ["010"%char] ++ output result)]))
  /\ match outcome act with
     | Returned _ => exists m, filter is_notice (events act) = [Notice m None]
     | Thrown _ => events act = []
     end.
Proof.
  intros act. subst act. unfold performAction.
  destruct (str_eqb action (js "copy")).
  { unfold copyToClipboard, lift, emit.
    destruct (clipboard_writeText app (output result)); simpl;
      (split; [one_change | try (eexists; reflexivity); reflexivity]). }
  destruct (str_eqb action (js "replace")).
  { unfold replaceSelection, active_editor, emit.
    destruct (getActiveView app) as [[[editor|] file]|]; simpl;
      try destruct (truthy (getSelection editor)); simpl;
      (split; [one_change | eexists; reflexivity]). }
  destruct (str_eqb action (js "insert")).
  { unfold insertAtCursor, active_editor, emit.
    destruct (getActiveView app) as [[[editor|] file]|]; simpl;
      (split; [one_change | eexists; reflexivity]). }
  destruct (str_eqb action (js "append"));
    [|simpl; split; [one_change | eexists; reflexivity]].
  unfold appendToCurrentNote, lift, emit.
  destruct (getActiveView app) as [[editor [file|]]|]; simpl;
    try (split; [one_change | eexists; reflexivity]).
  destruct (vault_read app file) as [content|] eqn:R; simpl;
    [|split; [one_change | reflexivity]].
  destruct (vault_modify app file _); simpl.
  - split; [|eexists; reflexivity].
    right. right. right. right. exists file, content. split; [exact R | reflexivity].
  - split; [one_change | reflexivity].
Qed.

(** X11: without an active Markdown view the actions replace, insert and
    append change nothing and only tell the user so, and so does replace
    when nothing is selected; an action name that is none of the four
    changes nothing either.  None of these throws. *)
Theorem performAction_without_target (app : App) (action : jsstring)
        (result : CommandExecutionResult) :
  action <> js "copy" ->
  (getActiveView app = None
   \/ (action = js "replace"
       /\ forall editor, active_editor app = Some editor ->
                         getSelection editor = [])
   \/ ~ In action [js "replace"; js "insert"; js "append"]) ->
  exists m,
    events (performAction app action result) = [Notice m None]
    /\ outcome (performAction app action result) = Returned tt.
Proof.
  intros Hc H. unfold performAction.
  rewrite (proj2 (str_eqb_neq _ _) Hc).
  destruct H as [V | [[A S] | U]].
  - unfold replaceSelection, insertAtCursor, appendToCurrentNote,
      active_editor. rewrite V.
    destruct (str_eqb action (js "replace")); [eexists; split; reflexivity|].
    destruct (str_eqb action (js "insert")); [eexists; split; reflexivity|].
    destruct (str_eqb action (js "append")); eexists; split; reflexivity.
  - subst action. rewrite str_eqb_refl. unfold replaceSelection.
    destruct (active_editor app) as [editor|]; [|eexists; split; reflexivity].
    rewrite (S editor eq_refl). eexists; split; reflexivity.
  - destruct (str_eqb action (js "replace")) eqn:E1;
      [apply str_eqb_eq in E1; exfalso; apply U; left; symmetry; exact E1|].
    destruct (str_eqb action (js "insert")) eqn:E2;
      [apply str_eqb_eq in E2; exfalso; apply U; right; left; symmetry;
       exact E2|].
    destruct (str_eqb action (js "append")) eqn:E3;
      [apply str_eqb_eq in E3; exfalso; apply U; right; right; left;
       symmetry; exact E3|].
    eexists; split; reflexivity.
Qed.

Lemma performAction_without_target_witness :
  (exists m,
     events (performAction idle_app (js "append")
               (success_result (example_script "date") (js "date")
                               empty_context (js "Mon", [])))
     = [Notice m None]
     /\ outcome (performAction idle_app (js "append")
                   (success_result (example_script "date") (js "date")
                                   empty_context (js "Mon", [])))
        = Returned tt)
  /\ (exists m,
        events (performAction (editing_app "" 3 0) (js "replace")
                  (success_result (example_script "date") (js "date")
                                  empty_context (js "Mon", [])))
        = [Notice m None]
        /\ outcome (performAction (editing_app "" 3 0) (js "replace")
                      (success_result (example_script "date") (js "date")
                                      empty_context (js "Mon", [])))
           = Returned tt).
Proof.
  split.
  - apply performAction_without_target;
      [vm_compute; discriminate | left; reflexivity].
  - apply performAction_without_target; [vm_compute; discriminate|].
    right. left. split; [reflexivity|].
    intros editor H. vm_compute in H. inversion H. reflexivity.
Defined.

(** ** From the command callback to the child process *)

Section Callback.

Variable settings : PluginSettings.
Variable process : Process.
Variable shescape_escape : jsstring -> completion jsstring.
Variable regexp_replace_other :
  jsstring -> jsstring -> jsstring -> completion jsstring.
Variable path_join : jsstring -> jsstring -> jsstring.
Variable decodeURIComponent : jsstring -> completion jsstring.
Variable child_exec : ExecRequest -> ExecOutcome.

Local Arguments mbind : simpl never.
Local Arguments try_catch : simpl never.
Local Arguments executeCommand : simpl never.
Local Arguments js : simpl never.

Lemma substitute_and_execute_trace (app : App) (script : CommandScript)
      (context : ParameterContext) :
  let run := substitute_and_execute settings process shescape_escape
               regexp_replace_other path_join child_exec app script context in
  match substituteParameters shescape_escape regexp_replace_other
                             (script_command script) context with
  | Returned substitutedCommand =>
      events run = events (executeCommand settings process path_join child_exec
                             app script substitutedCommand context)
      /\ outcome run = Returned tt
  | Thrown e => events run = [] /\ outcome run = Thrown e
  end.
Proof.
  intros run. subst run. unfold substitute_and_execute, lift.
  destruct (substituteParameters _ _ _ _) as [cmd | e]; trace.
  - destruct (executeCommand_returns settings process path_join child_exec app
                script cmd context) as (r & O & _).
    rewrite O. simpl. rewrite app_nil_r. split; reflexivity.
  - split; reflexivity.
Qed.

Lemma executeUserCommand_trace (app app_done : App) (script : CommandScript)
      (answer : PromptAnswer) :
  let run := executeUserCommand settings process shescape_escape
               regexp_replace_other path_join decodeURIComponent child_exec
               app app_done script answer in
  outcome run = Returned tt
  /\ events run
     = match effective_context decodeURIComponent app script answer with
       | None => []
       | Some context =>
           match substituteParameters shescape_escape regexp_replace_other
                                      (script_command script) context with
           | Returned substitutedCommand =>
               events (executeCommand settings process path_join child_exec
                         app_done script substitutedCommand context)
           | Thrown e => [Notice (js "Command execution failed: "
                                  ++ message_text e) (Some 5000%N)]
           end
       end.
Proof.
  intros run. subst run. unfold executeUserCommand, effective_context.
  destruct (has_prompts script).
  - destruct answer as [|promptResults]; [split; reflexivity|].
    pose proof (substitute_and_execute_trace app_done script
                  (with_prompts (getParameterContext decodeURIComponent app)
                                promptResults)) as H.
    cbv zeta in H.
    destruct (substituteParameters _ _ _ _) as [cmd | e]; destruct H as [E O];
      trace; rewrite ?O; simpl; trace; rewrite ?O, ?E; simpl;
      rewrite ?app_nil_r; split; reflexivity.
  - pose proof (substitute_and_execute_trace app_done script
                  (getParameterContext decodeURIComponent app)) as H.
    cbv zeta in H.
    destruct (substituteParameters _ _ _ _) as [cmd | e]; destruct H as [E O];
      trace; rewrite ?O; simpl; rewrite ?app_nil_r, ?E; split; reflexivity.
Qed.

End Callback.

(** X12: the command callback never throws.  Closing the prompt modal
    without submitting does nothing at all.  When substitution throws, the
    user is shown exactly one notice (Command execution failed, with the
    message of the error) and no child process is started.  Otherwise what
    happens is exactly what [executeCommand] does with the substituted
    command, the context collected when the command was invoked and the
    host as it is when the run takes place: the failure notice of the
    callback never follows a child process. *)
Theorem command_callback
        (settings : PluginSettings) (process : Process)
        (shescape_escape : jsstring -> completion jsstring)
        (regexp_replace_other :
           jsstring -> jsstring -> jsstring -> completion jsstring)
        (path_join : jsstring -> jsstring -> jsstring)
        (decodeURIComponent : jsstring -> completion jsstring)
        (child_exec : ExecRequest -> ExecOutcome)
        (app app_done : App) (script : CommandScript) (answer : PromptAnswer) :
  let run := executeUserCommand settings process shescape_escape
               regexp_replace_other path_join decodeURIComponent child_exec
               app app_done script answer in
  let context :=
    match answer with
    | Submitted promptResults =>
        if has_prompts script
        then with_prompts (getParameterContext decodeURIComponent app)
                          promptResults
        else getParameterContext decodeURIComponent app
    | Cancelled => getParameterContext decodeURIComponent app
    end in
  outcome run = Returned tt
  /\ (has_prompts script = true -> answer = Cancelled -> events run = [])
  /\ (has_prompts script = false \/ answer <> Cancelled ->
      match substituteParameters shescape_escape regexp_replace_other
                                 (script_command script) context with
      | Returned substitutedCommand =>
          events run
          = events (executeCommand settings process path_join child_exec
                      app_done script substitutedCommand context)
      | Thrown e =>
          events run
          = [Notice (js "Command execution failed: " ++ message_text e)
                    (Some 5000%N)]
      end).
Proof.
  intros run context.
  destruct (executeUserCommand_trace settings process shescape_escape
              regexp_replace_other path_join decodeURIComponent child_exec
              app app_done script answer) as [O E].
  fold run in O, E. split; [exact O|].
  unfold effective_context in E. subst context. split.
  - intros P C. rewrite P, C in E. exact E.
  - intros H. destruct (has_prompts script).
    + destruct answer as [|promptResults];
        [|destruct (substituteParameters _ _ _ _); exact E].
      destruct H as [H | H]; [discriminate | contradiction H; reflexivity].
    + destruct answer; destruct (substituteParameters _ _ _ _); exact E.
Qed.

Lemma command_callback_witness :
  events (executeUserCommand default_settings linux_process backslash_escaper
            no_other_regexp slash_join decode_as_is (child_succeeds "a.txt")
            idle_app idle_app (prompted_script "dir" "ls {prompt:dir}")
            Cancelled)
  = []
  /\ events (executeUserCommand default_settings linux_process
               backslash_escaper no_other_regexp slash_join decode_as_is
               (child_succeeds "a.txt") idle_app idle_app
               (prompted_script "a(" "ls {prompt:a(}")
               (Submitted [(js "a(", js "/tmp")]))
     = [Notice (js "Command execution failed: Invalid regular expression")
               (Some 5000%N)].
Proof.
  split.
  - refine (proj1 (proj2 (command_callback default_settings linux_process
              backslash_escaper no_other_regexp slash_join decode_as_is
              (child_succeeds "a.txt") idle_app idle_app
              (prompted_script "dir" "ls {prompt:dir}") Cancelled))
              eq_refl eq_refl).
  - refine (proj2 (proj2 (command_callback default_settings linux_process
              backslash_escaper no_other_regexp slash_join decode_as_is
              (child_succeeds "a.txt") idle_app idle_app
              (prompted_script "a(" "ls {prompt:a(}")
              (Submitted [(js "a(", js "/tmp")]))) _).
    right. discriminate.
Defined.

(** ** The shell that runs the command and the dialect it is escaped for *)

Lemma supported_basename (s : jsstring) :
  In (shell_basename s) supportedShells ->
  truthy (split_pop "/" s) = true /\ split_pop "/" s = shell_basename s.
Proof.
  unfold shell_basename, str_or.
  destruct (truthy (split_pop "/" s)) eqn:T; [split; reflexivity|].
  intros H. simpl in H.
  repeat (destruct H as [H | H];
          [subst s; vm_compute in T; discriminate|]).
  destruct H.
Qed.

Lemma supported_is_not_auto (s : jsstring) :
  In s supportedShells -> str_eqb s (js "auto") = false.
Proof.
  intros H. simpl in H.
  repeat (destruct H as [H | H]; [subst s; reflexivity|]). destruct H.
Qed.

Lemma auto_dialect (settings : PluginSettings) (process : Process) :
  win32 process = false ->
  shellProgram settings = js "auto" ->
  getShellNameForShescape settings process
  = shell_basename (detectDefaultShell process)
  /\ getSelectedShell settings process = detectDefaultShell process
  /\ In (getShellNameForShescape settings process) supportedShells.
Proof.
  intros W A.
  unfold getShellNameForShescape, getSelectedShell, detectDefaultShell.
  rewrite A, W.
  replace (str_eqb (js "auto") (js "auto")) with true by reflexivity.
  destruct (env_SHELL process) as [systemShell|];
    [|split; [reflexivity | split; [reflexivity | left; reflexivity]]].
  destruct (truthy systemShell); cbn [andb];
    [|split; [reflexivity | split; [reflexivity | left; reflexivity]]].
  destruct (includes supportedShells (shell_basename systemShell)) eqn:I;
    [|split; [reflexivity | split; [reflexivity | left; reflexivity]]].
  split; [reflexivity|]. split; [reflexivity | apply includes_In; exact I].
Qed.

Lemma dialect_name_is_basename
      (settings : PluginSettings) (process : Process) :
  win32 process = false ->
  shellProgram settings = js "auto"
  \/ In (shellProgram settings) supportedShells ->
  getShellNameForShescape settings process
  = shell_basename (getSelectedShell settings process)
  /\ In (getShellNameForShescape settings process) supportedShells.
Proof.
  intros W [A | S].
  - destruct (auto_dialect settings process W A) as (N & G & I).
    rewrite G. split; [exact N | exact I].
  - unfold getShellNameForShescape, getSelectedShell, getShellPath.
    rewrite (supported_is_not_auto _ S), W. split; [|exact S].
    simpl in S.
    repeat (destruct S as [S | S]; [rewrite <- S; reflexivity|]). destruct S.
Qed.

(** The shell that runs depends on the settings through the shell program
    only. *)
Lemma getSelectedShell_shellProgram
      (built current : PluginSettings) (process : Process) :
  shellProgram current = shellProgram built ->
  getSelectedShell current process = getSelectedShell built process.
Proof. intros E. unfold getSelectedShell. rewrite E. reflexivity. Qed.

Lemma createShescapeInstance_accepted
      (new_Shescape : jsstring -> completion (jsstring -> completion jsstring))
      (built : PluginSettings) (process : Process)
      (escaper : jsstring -> completion jsstring) :
  new_Shescape (getShellNameForShescape built process) = Returned escaper ->
  createShescapeInstance new_Shescape built process = Returned escaper.
Proof. intros H. unfold createShescapeInstance. rewrite H. reflexivity. Qed.

(** X13: the escaper of an executor is made once, when the executor is
    built, from the settings as they are then.  On a platform other than
    Windows, for an executor built with the shell setting on auto or on one
    of bash, zsh, busybox, csh and dash, and as long as the shell setting
    has not been changed since: when the library has an escaper for the
    basename of the shell that runs the command, that escaper is the one
    the executor escapes with; and that basename is one of the five
    names. *)
Theorem escaping_dialect_is_the_shell_that_runs
        (new_Shescape : jsstring -> completion (jsstring -> completion jsstring))
        (built current : PluginSettings) (process : Process)
        (escaper : jsstring -> completion jsstring) :
  win32 process = false ->
  shellProgram built = js "auto"
  \/ In (shellProgram built) supportedShells ->
  shellProgram current = shellProgram built ->
  new_Shescape (shell_basename (getSelectedShell current process))
  = Returned escaper ->
  createShescapeInstance new_Shescape built process = Returned escaper
  /\ In (shell_basename (getSelectedShell current process)) supportedShells.
Proof.
  intros W B E L.
  destruct (dialect_name_is_basename built process W B) as [N I].
  rewrite (getSelectedShell_shellProgram built current process E) in *.
  rewrite <- N in *. split; [|exact I].
  apply createShescapeInstance_accepted. exact L.
Qed.

Lemma escaping_dialect_is_the_shell_that_runs_witness :
  createShescapeInstance example_Shescape default_settings linux_process
  = example_Shescape (js "zsh")
  /\ getSelectedShell default_settings linux_process = js "/bin/zsh".
Proof.
  split; [|reflexivity].
  exact (proj1 (escaping_dialect_is_the_shell_that_runs example_Shescape
                  default_settings default_settings linux_process _
                  eq_refl (or_introl eq_refl) eq_refl eq_refl)).
Defined.

(** X14: where the escaper and the shell differ.  The escaper stays the one
    of the settings the executor was built with, while the shell is
    selected from the current settings at every run: on a platform other
    than Windows, after the shell setting went from one of bash, zsh,
    busybox, csh and dash to another, the executor still escapes with the
    escaper of the first (when the library has one) and the second runs
    the command.  On Windows an executor built with the shell setting on
    auto escapes with the escaper of PowerShell (when the library has one),
    and while the setting stays on auto the command is run by the program
    COMSPEC names, cmd.exe when it names none.  On the other platforms an
    executor built with a shell setting outside auto and the five names
    escapes with the escaper the library has for that name, and with the
    one of bash when the library refuses the name, and while the setting
    stays /bin/bash runs the command. *)
Theorem escaper_is_made_once
        (new_Shescape : jsstring -> completion (jsstring -> completion jsstring))
        (built current : PluginSettings) (process : Process) :
  (win32 process = false ->
   In (shellProgram built) supportedShells ->
   In (shellProgram current) supportedShells ->
   forall escaper,
     new_Shescape (shellProgram built) = Returned escaper ->
     createShescapeInstance new_Shescape built process = Returned escaper
     /\ getSelectedShell current process = js "/bin/" ++ shellProgram current)
  /\ (win32 process = true -> shellProgram built = js "auto" ->
      forall escaper,
        new_Shescape (js "powershell") = Returned escaper ->
        createShescapeInstance new_Shescape built process = Returned escaper
        /\ (shellProgram current = js "auto" ->
            getSelectedShell current process
            = opt_or (env_COMSPEC process) (js "cmd.exe")))
  /\ (win32 process = false -> shellProgram built <> js "auto" ->
      ~ In (shellProgram built) supportedShells ->
      (forall escaper,
         new_Shescape (shellProgram built) = Returned escaper ->
         createShescapeInstance new_Shescape built process = Returned escaper)
      /\ (forall e,
            new_Shescape (shellProgram built) = Thrown e ->
            createShescapeInstance new_Shescape built process
            = new_Shescape (js "bash"))
      /\ (shellProgram current = shellProgram built ->
          getSelectedShell current process = js "/bin/bash")).
Proof.
  split; [|split].
  - intros W B C escaper L. split.
    + apply createShescapeInstance_accepted.
      unfold getShellNameForShescape.
      rewrite (supported_is_not_auto _ B). exact L.
    + unfold getSelectedShell, getShellPath.
      rewrite (supported_is_not_auto _ C), W. simpl in C.
      repeat (destruct C as [C | C]; [rewrite <- C; reflexivity|]).
      destruct C.
  - intros W A escaper L. split.
    + apply createShescapeInstance_accepted.
      unfold getShellNameForShescape. rewrite A, W.
      replace (str_eqb (js "auto") (js "auto")) with true by reflexivity.
      exact L.
    + intros C. unfold getSelectedShell, detectDefaultShell. rewrite C, W.
      reflexivity.
  - intros W A S.
    assert (N : getShellNameForShescape built process = shellProgram built).
    { unfold getShellNameForShescape.
      rewrite (proj2 (str_eqb_neq _ _) A). reflexivity. }
    split; [|split].
    + intros escaper L. apply createShescapeInstance_accepted.
      rewrite N. exact L.
    + intros e L. unfold createShescapeInstance. rewrite N, L. reflexivity.
    + intros C. unfold getSelectedShell, getShellPath.
      rewrite C, (proj2 (str_eqb_neq _ _) A), W.
      repeat match goal with
      | |- context [str_eqb (shellProgram built) ?n] =>
          destruct (str_eqb (shellProgram built) n) eqn:E;
          [apply str_eqb_eq in E; exfalso; apply S; rewrite E; simpl; tauto
          |clear E]
      end.
      reflexivity.
Qed.

Lemma escaper_is_made_once_witness :
  (createShescapeInstance example_Shescape (settings_with_shell "zsh")
                          linux_process
   = example_Shescape (js "zsh")
   /\ getSelectedShell (settings_with_shell "csh") linux_process
      = js "/bin/csh")
  /\ (createShescapeInstance example_Shescape default_settings windows_process
      = example_Shescape (js "powershell")
      /\ getSelectedShell default_settings windows_process
         = js "C:\Windows\system32\cmd.exe")
  /\ (createShescapeInstance example_Shescape (settings_with_shell "fish")
                             fish_process
      = example_Shescape (js "bash")
      /\ getSelectedShell (settings_with_shell "fish") fish_process
         = js "/bin/bash").
Proof.
  destruct (escaper_is_made_once example_Shescape (settings_with_shell "zsh")
              (settings_with_shell "csh") linux_process) as (A & _ & _).
  destruct (escaper_is_made_once example_Shescape default_settings
              default_settings windows_process) as (_ & B & _).
  destruct (escaper_is_made_once example_Shescape (settings_with_shell "fish")
              (settings_with_shell "fish") fish_process) as (_ & _ & C).
  split; [|split].
  - apply (A eq_refl); [simpl; tauto | simpl; tauto | reflexivity].
  - destruct (B eq_refl eq_refl _ eq_refl) as [B1 B2].
    split; [exact B1 | exact (B2 eq_refl)].
  - destruct C as (_ & C2 & C3);
      [reflexivity | vm_compute; discriminate
       | vm_compute; intuition discriminate |].
    split; [exact (C2 _ eq_refl) | exact (C3 eq_refl)].
Defined.

(** X15: on a platform other than Windows the detected shell name shown in
    the settings is always one of bash, zsh, busybox, csh and dash, and it
    is the basename of the detected shell; with the shell setting on auto
    the display name is that name followed by the words auto-detected; and
    an executor built with the shell setting on auto escapes with the
    escaper the library has for that name, when it has one. *)
Theorem detected_shell_name_is_supported
        (new_Shescape : jsstring -> completion (jsstring -> completion jsstring))
        (settings : PluginSettings) (process : Process) :
  win32 process = false ->
  In (getDetectedShellName process) supportedShells
  /\ getDetectedShellName process = shell_basename (detectDefaultShell process)
  /\ (shellProgram settings = js "auto" ->
        getShellDisplayName settings process
        = getDetectedShellName process ++ js " (auto-detected)"
        /\ forall escaper,
             new_Shescape (getDetectedShellName process) = Returned escaper ->
             createShescapeInstance new_Shescape settings process
             = Returned escaper).
Proof.
  intros W.
  assert (D : In (shell_basename (detectDefaultShell process)) supportedShells).
  { unfold detectDefaultShell. rewrite W.
    destruct (env_SHELL process) as [systemShell|]; [|left; reflexivity].
    destruct (truthy systemShell); cbn [andb]; [|left; reflexivity].
    destruct (includes supportedShells (shell_basename systemShell)) eqn:I;
      [apply includes_In; exact I | left; reflexivity]. }
  destruct (supported_basename _ D) as [T E].
  assert (N : getDetectedShellName process
              = shell_basename (detectDefaultShell process)).
  { unfold getDetectedShellName. cbv zeta. unfold str_or at 1.
    rewrite T. exact E. }
  split; [rewrite N; exact D|]. split; [exact N|].
  intros A. split.
  - unfold getShellDisplayName. rewrite A.
    replace (str_eqb (js "auto") (js "auto")) with true by reflexivity.
    reflexivity.
  - intros escaper L. apply createShescapeInstance_accepted.
    rewrite (proj1 (auto_dialect settings process W A)), <- N. exact L.
Qed.

Lemma detected_shell_name_is_supported_witness :
  getDetectedShellName fish_process = js "bash"
  /\ In (getDetectedShellName fish_process) supportedShells
  /\ createShescapeInstance example_Shescape default_settings fish_process
     = example_Shescape (js "bash").
Proof.
  destruct (detected_shell_name_is_supported example_Shescape default_settings
              fish_process eq_refl) as (I & _ & A).
  split; [reflexivity|]. split; [exact I|].
  exact (proj2 (A eq_refl) _ eq_refl).
Defined.

(** X16: on a platform other than Windows the detached run and the
    foreground run start the same shell, in the same working directory, on
    the same command: with the login shell setting on, [spawn] gets the
    program and the arguments that [execFile] gets; with it off, [spawn]
    runs the program that [exec] gets as its shell option, with the
    arguments [-c] and the command.  On Windows the detached run starts
    powershell.exe or cmd.exe by name, whatever path the selected shell
    has.  The detached child is always detached, with its streams ignored. *)
Theorem terminal_request_agrees_with_exec_request
        (settings : PluginSettings) (process : Process)
        (path_join : jsstring -> jsstring -> jsstring)
        (script : CommandScript) (substitutedCommand : jsstring)
        (context : ParameterContext) :
  let spawned := terminal_request settings process path_join script
                                  substitutedCommand context in
  let executed := exec_request settings process path_join script
                               substitutedCommand context in
  spawn_detached spawned = true
  /\ spawn_stdio spawned = js "ignore"
  /\ spawn_cwd spawned = workingDir settings process path_join script context
  /\ (win32 process = false ->
      match executed with
      | ExecFile file args options =>
          useLoginShell settings = true
          /\ spawn_file spawned = file
          /\ spawn_args spawned = args
          /\ spawn_cwd spawned = opt_cwd options
      | Exec cmd options =>
          useLoginShell settings = false
          /\ opt_shell options = Some (spawn_file spawned)
          /\ spawn_args spawned = [js "-c"; cmd]
          /\ cmd = substitutedCommand
          /\ spawn_cwd spawned = opt_cwd options
      end)
  /\ (win32 process = true ->
      (spawn_file spawned = js "powershell.exe"
       /\ spawn_args spawned = [js "-Command"; substitutedCommand])
      \/ (spawn_file spawned = js "cmd.exe"
          /\ spawn_args spawned = [js "/c"; substitutedCommand])).
Proof.
  intros spawned executed. subst spawned executed.
  unfold terminal_request, exec_request, getShellWithLoginFlag.
  destruct (win32 process); cbn [orb].
  - repeat (split; [try reflexivity;
                    destruct (str_includes _ _); reflexivity|]).
    split; [discriminate|]. intros _.
    destruct (str_includes _ _); [left | right]; split; reflexivity.
  - destruct (useLoginShell settings); cbn [negb];
      repeat (split; [reflexivity|]);
      (split; [intros _; repeat (split; [reflexivity|]); reflexivity
              | discriminate]).
Qed.

Lemma terminal_request_agrees_with_exec_request_witness :
  spawn_file (terminal_request silent_settings linux_process slash_join
                (example_script "date") (js "date") empty_context)
  = js "/bin/zsh"
  /\ spawn_args (terminal_request silent_settings linux_process slash_join
                   (example_script "date") (js "date") empty_context)
     = [js "-l"; js "-c"; js "date"]
  /\ (spawn_file (terminal_request default_settings
                    {| platform := js "win32";
                       env_COMSPEC := Some (js "C:\Program Files\PowerShell\7\pwsh.exe");
                       env_SHELL := None; cwd := js "C:\Users\me" |}
                    slash_join (example_script "date") (js "date")
                    empty_context) = js "powershell.exe"
      \/ spawn_file (terminal_request default_settings
                       {| platform := js "win32";
                          env_COMSPEC := Some (js "C:\Program Files\PowerShell\7\pwsh.exe");
                          env_SHELL := None; cwd := js "C:\Users\me" |}
                       slash_join (example_script "date") (js "date")
                       empty_context) = js "cmd.exe").
Proof.
  pose proof (terminal_request_agrees_with_exec_request silent_settings
                linux_process slash_join (example_script "date") (js "date")
                empty_context) as (_ & _ & _ & U & _).
  destruct (U eq_refl) as (_ & F & A & _).
  split; [exact F|]. split; [exact A|].
  pose proof (terminal_request_agrees_with_exec_request default_settings
                {| platform := js "win32";
                   env_COMSPEC := Some (js "C:\Program Files\PowerShell\7\pwsh.exe");
                   env_SHELL := None; cwd := js "C:\Users\me" |}
                slash_join (example_script "date") (js "date")
                empty_context) as (_ & _ & _ & _ & Wn).
  destruct (Wn eq_refl) as [[F' _] | [F' _]]; [left | right]; exact F'.
Defined.

(** ** The command palette *)

Section Palette.

Variable addCommand : PaletteCommand -> completion unit.

Let register := fold_left (registerSingleCommand addCommand).

Lemma registerSingleCommand_cases (plugin : Plugin) (script : CommandScript) :
  (registerSingleCommand addCommand plugin script = plugin
   /\ (In (commandId script) (registeredCommandIds plugin)
       \/ exists e, addCommand (palette_command script) = Thrown e))
  \/ (~ In (commandId script) (registeredCommandIds plugin)
      /\ addCommand (palette_command script) = Returned tt
      /\ registerSingleCommand addCommand plugin script
         = {| registeredCommandIds :=
                registeredCommandIds plugin ++ [commandId script];
              addedCommands :=
                addedCommands plugin ++ [palette_command script] |}).
Proof.
  unfold registerSingleCommand.
  destruct (includes (registeredCommandIds plugin) (commandId script)) eqn:I.
  - left. split; [reflexivity|]. left. apply includes_In. exact I.
  - destruct (addCommand (palette_command script)) as [[]|e] eqn:A.
    + right. split; [|split; reflexivity].
      intros H. apply includes_In in H. congruence.
    + left. split; [reflexivity|]. right. exists e. reflexivity.
Qed.

Lemma register_adds (scripts : list CommandScript) (plugin : Plugin) :
  exists new,
    addedCommands (register scripts plugin) = addedCommands plugin ++ new
    /\ registeredCommandIds (register scripts plugin)
       = registeredCommandIds plugin ++ map palette_id new
    /\ NoDup (map palette_id new)
    /\ Forall (fun c =>
                 ~ In (palette_id c) (registeredCommandIds plugin)
                 /\ exists script, In script scripts
                                   /\ c = palette_command script) new.
Proof.
  revert plugin. induction scripts as [|s scripts IH]; intros plugin.
  - exists []. simpl. rewrite !app_nil_r. repeat split; constructor.
  - unfold register in *. cbn [fold_left].
    destruct (registerSingleCommand_cases plugin s) as [[E _] | (N & _ & E)];
      rewrite E.
    + destruct (IH plugin) as (new & A & R & D & F).
      exists new. repeat split; try assumption.
      eapply Forall_impl; [|exact F]. cbv beta.
      intros c (Hc & script & Hs & Ec). split; [exact Hc|].
      exists script. split; [right; exact Hs | exact Ec].
    + destruct (IH {| registeredCommandIds :=
                        registeredCommandIds plugin ++ [commandId s];
                      addedCommands :=
                        addedCommands plugin ++ [palette_command s] |})
        as (new & A & R & D & F).
      cbn [registeredCommandIds addedCommands] in A, R, F.
      exists (palette_command s :: new).
      rewrite A, R, <- !app_assoc. repeat split.
      * cbn [map]. constructor; [|exact D].
        intros H. apply in_map_iff in H. destruct H as (c & Ec & Hc).
        apply (proj1 (Forall_forall _ _) F) in Hc. destruct Hc as [Hc _].
        apply Hc. apply in_or_app. right. left. symmetry. exact Ec.
      * constructor.
        -- split; [exact N|]. exists s. split; [left|]; reflexivity.
        -- eapply Forall_impl; [|exact F]. cbv beta.
           intros c (Hc & script & Hs & Ec). split.
           ++ intros H. apply Hc. apply in_or_app. left. exact H.
           ++ exists script. split; [right; exact Hs | exact Ec].
Qed.

Lemma register_unchanged (scripts : list CommandScript) (plugin : Plugin) :
  (forall s, In s scripts ->
     In (commandId s) (registeredCommandIds plugin)
     \/ exists e, addCommand (palette_command s) = Thrown e) ->
  register scripts plugin = plugin.
Proof.
  induction scripts as [|s scripts IH]; intros H; [reflexivity|].
  unfold register in *. cbn [fold_left].
  destruct (registerSingleCommand_cases plugin s) as [[E _] | (N & A & _)].
  - rewrite E. apply IH. intros s' Hs'. apply H. right. exact Hs'.
  - destruct (H s (or_introl eq_refl)) as [I | [e T]];
      [contradiction | congruence].
Qed.

Lemma register_covers (scripts : list CommandScript) (plugin : Plugin) :
  forall s, In s scripts ->
    In (commandId s) (registeredCommandIds (register scripts plugin))
    \/ exists e, addCommand (palette_command s) = Thrown e.
Proof.
  revert plugin. induction scripts as [|s0 scripts IH]; intros plugin s Hs;
    [destruct Hs|].
  unfold register in *. cbn [fold_left].
  destruct Hs as [-> | Hs]; [|apply IH; exact Hs].
  destruct (register_adds scripts (registerSingleCommand addCommand plugin s))
    as (new & _ & R & _).
  unfold register in *. rewrite R.
  destruct (registerSingleCommand_cases plugin s)
    as [[E [I | T]] | (N & A & E)]; rewrite E.
  - left. apply in_or_app. left. exact I.
  - right. exact T.
  - left. apply in_or_app. left. apply in_or_app. right. left. reflexivity.
Qed.

End Palette.

Lemma formatDisplayText_name (script : CommandScript) :
  formatDisplayText script
  = name_and_description script ++ js " | " ++ script_command script.
Proof.
  unfold formatDisplayText, name_and_description.
  destruct (truthy (or_empty (script_description script)));
    rewrite <- ?app_assoc, ?app_nil_l; reflexivity.
Qed.

(** X17: registering the user commands only ever adds to the palette.  The
    commands added, and the ids recorded, come after those that were there;
    each new entry is the palette command of an enabled command of the
    settings whose id was not registered before; no id is added twice; and
    each new entry is offered by the command selector too, under the same
    name followed by its command line. *)
Theorem registerUserCommands_only_adds
        (addCommand : PaletteCommand -> completion unit)
        (commands : list CommandScript) (plugin : Plugin) :
  exists new,
    addedCommands (registerUserCommands addCommand commands plugin)
    = addedCommands plugin ++ new
    /\ registeredCommandIds (registerUserCommands addCommand commands plugin)
       = registeredCommandIds plugin ++ map palette_id new
    /\ NoDup (map palette_id new)
    /\ Forall (fun c =>
                 ~ In (palette_id c) (registeredCommandIds plugin)
                 /\ (exists script,
                       In script commands /\ enabled script = true
                       /\ c = palette_command script)
                 /\ (exists item,
                       In item (getItems commands)
                       /\ suggestion_script item = palette_script c
                       /\ displayText item
                          = palette_name c ++ js " | "
                            ++ script_command (palette_script c))) new.
Proof.
  unfold registerUserCommands.
  destruct (register_adds addCommand (filter enabled commands) plugin)
    as (new & A & R & D & F).
  exists new. repeat split; try assumption.
  eapply Forall_impl; [|exact F]. cbv beta.
  intros c (Hc & script & Hs & Ec). apply filter_In in Hs.
  destruct Hs as [Hs En]. split; [exact Hc|]. split.
  - exists script. repeat split; assumption.
  - exists {| suggestion_script := script;
              displayText := formatDisplayText script |}.
    subst c. cbn [suggestion_script displayText palette_script palette_name
                  palette_command].
    split; [|split; [reflexivity | apply formatDisplayText_name]].
    unfold getItems.
    apply (in_map (fun script => {| suggestion_script := script;
                                    displayText := formatDisplayText script |})).
    apply filter_In. split; assumption.
Qed.

(** X18: refreshing changes nothing that is registered.  Registering the
    same commands again leaves the plugin as it was.  And when [addCommand]
    accepts every command, a refresh after the settings were edited changes
    nothing as long as every enabled command has the id of a command that
    was enabled before: a command edited under its id keeps the palette
    name and the script of its first registration, and a command deleted or
    disabled stays in the palette. *)
Theorem refresh_keeps_the_palette
        (addCommand : PaletteCommand -> completion unit)
        (commands edited : list CommandScript) (plugin : Plugin) :
  refreshUserCommands addCommand commands
    (registerUserCommands addCommand commands plugin)
  = registerUserCommands addCommand commands plugin
  /\ ((forall c, addCommand c = Returned tt) ->
      (forall s, In s edited -> enabled s = true ->
         exists s0, In s0 commands /\ enabled s0 = true
                    /\ script_id s0 = script_id s) ->
      refreshUserCommands addCommand edited
        (registerUserCommands addCommand commands plugin)
      = registerUserCommands addCommand commands plugin).
Proof.
  unfold refreshUserCommands, registerUserCommands. split.
  - apply register_unchanged. intros s Hs.
    apply register_covers. exact Hs.
  - intros Ok H. apply register_unchanged. intros s Hs.
    apply filter_In in Hs. destruct Hs as [Hs En].
    destruct (H s Hs En) as (s0 & H0 & En0 & Id).
    assert (F : In s0 (filter enabled commands))
      by (apply filter_In; split; assumption).
    destruct (register_covers addCommand (filter enabled commands) plugin
                s0 F) as [I | [e T]].
    + left. unfold commandId in *. rewrite <- Id. exact I.
    + rewrite Ok in T. discriminate.
Qed.

Lemma refresh_keeps_the_palette_witness :
  map palette_name
      (addedCommands
         (refreshUserCommands addCommand_returns
            [named_script "cmd-1" "List all" "ls -a" true]
            (registerUserCommands addCommand_returns
               [named_script "cmd-1" "List" "ls" true] fresh_plugin)))
  = [js "List"].
Proof.
  rewrite (proj2 (refresh_keeps_the_palette addCommand_returns
                    [named_script "cmd-1" "List" "ls" true]
                    [named_script "cmd-1" "List all" "ls -a" true]
                    fresh_plugin)).
  - reflexivity.
  - intros c. reflexivity.
  - intros s [<- | []] _.
    exists (named_script "cmd-1" "List" "ls" true).
    split; [left; reflexivity | split; reflexivity].
Defined.

(** ** The result modal *)

Lemma opt_or_nonempty (x : option jsstring) (d : jsstring) :
  d <> [] -> opt_or x d <> [].
Proof.
  intros H. unfold opt_or, str_or.
  destruct (truthy (or_empty x)) eqn:T; [|exact H].
  apply truthy_nonempty. exact T.
Qed.

Lemma result_modal_failure (script : CommandScript) (cmd : jsstring)
      (context : ParameterContext) (e : JsError) :
  let r := failure_result script cmd context e in
  status_exit_code r = exitCode r
  /\ (exists text, shown_content r = Some text /\ text <> [])
  /\ (output r = [] -> button_output r = [] /\ shown_content r = Some (error r)).
Proof.
  intros r. subst r. unfold status_exit_code, shown_content, button_output.
  cbn [success output error exitCode failure_result].
  assert (E : opt_or (err_stderr e)
                (opt_or (err_message e) (js "An unknown error occurred."))
              <> []).
  { apply opt_or_nonempty, opt_or_nonempty. discriminate. }
  assert (T := proj2 (truthy_nonempty _) E).
  split; [|split].
  - destruct (err_code e) as [|z|s]; simpl; [reflexivity | |].
    + destruct (Z.eqb z 0) eqn:Z0; simpl; [reflexivity | rewrite Z0; reflexivity].
    + destruct (truthy s) eqn:Ts; simpl; [rewrite Ts|]; reflexivity.
  - rewrite T, orb_true_r. eexists. split; [reflexivity|].
    unfold str_or at 1. destruct (truthy (opt_or (err_stdout e) [])) eqn:O.
    + apply truthy_nonempty. exact O.
    + rewrite (str_or_nonempty _ _ E). exact E.
  - intros O. rewrite O, T. simpl. split; [reflexivity|].
    rewrite (str_or_nonempty _ _ E). reflexivity.
Qed.

(** X19: what the result modal shows for the result of a run.  The two
    fallbacks of its status line never apply: the exit code it shows is the
    exit code of the result.  For a failed run the modal always has a text
    to show, and it is not empty.  When the run wrote nothing to its output
    the four buttons act on the empty string, also for a failed run, where
    the text shown is the error text. *)
Theorem result_modal_of_a_run
        (settings : PluginSettings) (process : Process)
        (path_join : jsstring -> jsstring -> jsstring)
        (child_exec : ExecRequest -> ExecOutcome) (app : App)
        (script : CommandScript) (substitutedCommand : jsstring)
        (context : ParameterContext) :
  exists r,
    outcome (executeCommand settings process path_join child_exec app script
                            substitutedCommand context) = Returned r
    /\ status_exit_code r = exitCode r
    /\ (success r = false ->
          exists text, shown_content r = Some text /\ text <> [])
    /\ (output r = [] ->
          button_output r = []
          /\ (success r = false -> shown_content r = Some (error r))).
Proof.
  rewrite run_outcome.
  assert (F : forall e,
             let r := failure_result script substitutedCommand context e in
             status_exit_code r = exitCode r
             /\ (success r = false ->
                   exists text, shown_content r = Some text /\ text <> [])
             /\ (output r = [] ->
                   button_output r = []
                   /\ (success r = false -> shown_content r = Some (error r)))).
  { intros e r.
    destruct (result_modal_failure script substitutedCommand context e)
      as (S & C & B).
    split; [exact S|]. split; [intros _; exact C|].
    intros O. destruct (B O) as [B1 B2]. split; [exact B1 | intros _; exact B2]. }
  assert (S : forall o,
             let r := success_result script substitutedCommand context o in
             status_exit_code r = exitCode r
             /\ (success r = false ->
                   exists text, shown_content r = Some text /\ text <> [])
             /\ (output r = [] ->
                   button_output r = []
                   /\ (success r = false -> shown_content r = Some (error r)))).
  { intros o r. split; [reflexivity|]. split; [discriminate|].
    intros O. unfold button_output. rewrite O. split; [reflexivity | discriminate]. }
  destruct (child_exec _) as [stdout stderr | e]; cbn zeta.
  - destruct (background script); [eexists; split; [reflexivity | apply S]|].
    destruct (has_default_action script);
      [|eexists; split; [reflexivity | apply S]].
    destruct (outcome (performAction _ _ _));
      eexists; (split; [reflexivity|]); [apply S | apply F].
  - eexists; split; [reflexivity | apply F].
Qed.

Lemma result_modal_of_a_run_witness :
  exists r,
    outcome (executeCommand default_settings linux_process slash_join
               (child_fails (LaunchFailure (js "ENOENT") (js "spawn /bin/zsh ENOENT")))
               idle_app (example_script "date") (js "date") empty_context)
    = Returned r
    /\ status_exit_code r = CodeStr (js "ENOENT")
    /\ shown_content r = Some (js "spawn /bin/zsh ENOENT")
    /\ button_output r = [].
Proof.
  destruct (result_modal_of_a_run default_settings linux_process slash_join
              (child_fails (LaunchFailure (js "ENOENT") (js "spawn /bin/zsh ENOENT")))
              idle_app (example_script "date") (js "date") empty_context)
    as (r & O & S & C & B).
  exists r. split; [exact O|].
  assert (E : r = failure_result (example_script "date") (js "date")
                    empty_context
                    (rejection (LaunchFailure (js "ENOENT")
                                              (js "spawn /bin/zsh ENOENT")))).
  { vm_compute in O. inversion O. reflexivity. }
  assert (Out : output r = []) by (rewrite E; reflexivity).
  assert (Fl : success r = false) by (rewrite E; reflexivity).
  destruct (B Out) as [B1 B2].
  split; [rewrite S, E; reflexivity|].
  split; [rewrite (B2 Fl), E; reflexivity | exact B1].
Defined.

(** ** The prompt modal *)

Lemma insert_by_index_perm (e : N * (jsstring * jsstring))
      (l : list (N * (jsstring * jsstring))) :
  Permutation (insert_by_index e l) (e :: l).
Proof.
  induction l as [|e' l IH]; simpl; [apply Permutation_refl|].
  destruct (fst e <=? fst e')%N; [apply Permutation_refl|].
  apply Permutation_trans with (e' :: e :: l);
    [apply perm_skip; exact IH | apply perm_swap].
Qed.

Lemma Object_entries_perm (o : record) : Permutation (Object_entries o) o.
Proof.
  unfold Object_entries.
  apply Permutation_trans
    with (map snd (indexed o) ++ filter not_indexed o).
  - apply Permutation_app_tail, Permutation_map.
    induction (indexed o) as [|e l IH]; simpl; [apply Permutation_refl|].
    apply Permutation_trans with (e :: fold_right insert_by_index [] l);
      [apply insert_by_index_perm | apply perm_skip; exact IH].
  - induction o as [|e o IH]; [apply Permutation_refl|].
    unfold indexed, not_indexed in *. cbn [flat_map filter].
    destruct (array_index (fst e)) as [n|]; cbn [List.app map snd].
    + apply perm_skip. exact IH.
    + apply Permutation_sym, Permutation_cons_app, Permutation_sym. exact IH.
Qed.

Lemma record_set_keys (o : record) (k v k' : jsstring) :
  In k' (map fst (record_set o k v)) <-> k' = k \/ In k' (map fst o).
Proof.
  induction o as [|[k0 v0] o IH]; simpl.
  - split; [intros [H | []]; left; symmetry; exact H
           | intros [H | []]; left; symmetry; exact H].
  - destruct (str_eqb k k0) eqn:E; simpl.
    + apply str_eqb_eq in E. subst k0. intuition congruence.
    + rewrite IH. intuition congruence.
Qed.

Lemma record_set_NoDup (o : record) (k v : jsstring) :
  NoDup (map fst o) -> NoDup (map fst (record_set o k v)).
Proof.
  induction o as [|[k0 v0] o IH]; simpl; intros H.
  - constructor; [intros [] | constructor].
  - inversion H as [|? ? Hn Hd]; subst.
    destruct (str_eqb k k0) eqn:E; simpl.
    + apply str_eqb_eq in E. subst k0. constructor; assumption.
    + constructor; [|apply IH; exact Hd].
      intros Hin. apply record_set_keys in Hin. destruct Hin as [-> | Hin].
      * rewrite str_eqb_refl in E. discriminate.
      * contradiction.
Qed.

Lemma record_get_In (o : record) (k v : jsstring) :
  record_get o k = Some v -> In (k, v) o.
Proof.
  induction o as [|[k0 v0] o IH]; simpl; [discriminate|].
  destruct (str_eqb k k0) eqn:E.
  - apply str_eqb_eq in E. subst k0. intros H. inversion H. left. reflexivity.
  - intros H. right. apply IH. exact H.
Qed.

Lemma In_record_get (o : record) (k v : jsstring) :
  NoDup (map fst o) -> In (k, v) o -> record_get o k = Some v.
Proof.
  induction o as [|[k0 v0] o IH]; simpl; intros Hd Hin; [destruct Hin|].
  inversion Hd as [|? ? Hn Hd']; subst.
  destruct Hin as [H | H].
  - inversion H; subst. rewrite str_eqb_refl. reflexivity.
  - destruct (str_eqb k k0) eqn:E; [|apply IH; assumption].
    apply str_eqb_eq in E. subst k0. exfalso. apply Hn.
    apply (in_map fst) in H. exact H.
Qed.

Section PromptModal.

Variable prompts : list PromptConfig.

Let names := map prompt_name prompts.

Lemma assign_get (o : record) (k v name : jsstring) :
  name <> js "__proto__" ->
  record_get (assign o k v) name
  = if str_eqb name k then Some v else record_get o name.
Proof.
  intros Hn. unfold assign. destruct (str_eqb k (js "__proto__")) eqn:P.
  - apply str_eqb_eq in P. subst k.
    rewrite (proj2 (str_eqb_neq _ _) Hn). reflexivity.
  - destruct (str_eqb name k) eqn:E.
    + apply str_eqb_eq in E. subst k. apply record_get_set_same.
    + apply record_get_set_other. apply str_eqb_neq. exact E.
Qed.

Lemma assign_keys (o : record) (k v k' : jsstring) :
  In k' (map fst (assign o k v))
  <-> (k' = k /\ k <> js "__proto__") \/ In k' (map fst o).
Proof.
  unfold assign. destruct (str_eqb k (js "__proto__")) eqn:P.
  - apply str_eqb_eq in P. tauto.
  - apply str_eqb_neq in P. rewrite record_set_keys. tauto.
Qed.

Lemma assign_NoDup (o : record) (k v : jsstring) :
  NoDup (map fst o) -> NoDup (map fst (assign o k v)).
Proof.
  unfold assign. destruct (str_eqb k (js "__proto__"));
    [tauto | apply record_set_NoDup].
Qed.

Lemma PromptModal_results_fold (l : list PromptConfig) (o : record) :
  let results :=
    fold_left (fun results prompt => assign results (prompt_name prompt) [])
              l o in
  (NoDup (map fst o) -> NoDup (map fst results))
  /\ (forall k, In k (map fst results)
                <-> (In k (map prompt_name l) /\ k <> js "__proto__")
                    \/ In k (map fst o))
  /\ (forall name, name <> js "__proto__" ->
        record_get results name
        = if includes (map prompt_name l) name then Some []
          else record_get o name).
Proof.
  revert o. induction l as [|p l IH]; intros o; cbn zeta; cbn [fold_left].
  - split; [tauto|]. split; [simpl; tauto | reflexivity].
  - destruct (IH (assign o (prompt_name p) [])) as (D & K & G).
    cbn zeta in D, K, G. split; [|split].
    + intros H. apply D, assign_NoDup, H.
    + intros k. rewrite K, assign_keys. simpl. intuition congruence.
    + intros name Hn. rewrite (G name Hn), (assign_get _ _ _ _ Hn).
      unfold includes. cbn [map existsb].
      destruct (str_eqb name (prompt_name p)); simpl;
        destruct (existsb (str_eqb name) (map prompt_name l)); reflexivity.
Qed.

Lemma on_input_fold (inputs : list (nat * jsstring)) (o : record)
      (name v0 : jsstring) :
  results_invariant prompts o ->
  results_invariant prompts (fold_left (on_input prompts) inputs o)
  /\ (name <> js "__proto__" -> record_get o name = Some v0 ->
      record_get (fold_left (on_input prompts) inputs o) name
      = Some (fold_left
                (fun v event =>
                   match nth_error prompts (fst event) with
                   | Some prompt =>
                       if str_eqb name (prompt_name prompt) then snd event
                       else v
                   | None => v
                   end) inputs v0)).
Proof.
  revert o v0. induction inputs as [|ev inputs IH]; intros o v0 I;
    cbn [fold_left]; [split; [exact I | tauto]|].
  unfold on_input at 2 4.
  destruct (nth_error prompts (fst ev)) as [p|] eqn:N; [|apply IH; exact I].
  assert (I' : results_invariant prompts (assign o (prompt_name p) (snd ev))).
  { destruct I as [D K]. split; [apply assign_NoDup, D|].
    intros k. rewrite assign_keys, K.
    apply nth_error_In in N. apply (in_map prompt_name) in N.
    split; [|intros H; right; exact H].
    intros [[-> Hp] | H]; [split; assumption | exact H]. }
  split; [apply (IH _ v0 I')|].
  intros Hn G.
  destruct (str_eqb name (prompt_name p)) eqn:E.
  - apply (IH _ (snd ev) I'); [exact Hn|].
    rewrite (assign_get _ _ _ _ Hn), E. reflexivity.
  - apply (IH _ v0 I'); [exact Hn|].
    rewrite (assign_get _ _ _ _ Hn), E. exact G.
Qed.

Lemma submitted_store (inputs : list (nat * jsstring)) :
  let results := fold_left (on_input prompts) inputs
                           (PromptModal_results prompts) in
  results_invariant prompts results
  /\ (forall name, In name names -> name <> js "__proto__" ->
        record_get results name = Some (last_typed prompts inputs name)).
Proof.
  cbn zeta.
  destruct (PromptModal_results_fold prompts []) as (D & K & G).
  cbn zeta in D, K, G. fold (PromptModal_results prompts) in D, K, G.
  assert (I : results_invariant prompts (PromptModal_results prompts)).
  { split; [apply D; constructor|]. intros k. rewrite K. simpl.
    fold names. tauto. }
  split; [apply (on_input_fold inputs _ [] [] I)|].
  intros name Hin Hn.
  apply (on_input_fold inputs _ name [] I); [exact Hn|].
  rewrite (G name Hn). unfold names in Hin.
  rewrite (proj2 (includes_In _ _) Hin). reflexivity.
Qed.

End PromptModal.

(** X20: what the prompt modal submits has exactly one entry for each name
    of a configured prompt (the name [__proto__] apart, for which there is
    none), and no other entry.  The value of the entry is the value last
    typed into a field of that name, and the empty string when nothing was
    typed there: a prompt left untouched is submitted as empty, not left
    out. *)
Theorem prompt_modal_submits_every_prompt
        (prompts : list PromptConfig) (inputs : list (nat * jsstring)) :
  NoDup (map fst (submitted prompts inputs))
  /\ (forall name value,
        In (name, value) (submitted prompts inputs) ->
        In name (map prompt_name prompts)
        /\ name <> js "__proto__"
        /\ value = last_typed prompts inputs name)
  /\ (forall name,
        In name (map prompt_name prompts) -> name <> js "__proto__" ->
        In (name, last_typed prompts inputs name) (submitted prompts inputs)).
Proof.
  destruct (submitted_store prompts inputs) as [[D K] G]. cbn zeta in D, K, G.
  unfold submitted.
  set (results := fold_left (on_input prompts) inputs
                            (PromptModal_results prompts)) in *.
  pose proof (Object_entries_perm results) as P.
  split; [|split].
  - apply (Permutation_NoDup (Permutation_sym (Permutation_map fst P))).
    exact D.
  - intros name value Hin.
    apply (Permutation_in _ P) in Hin.
    assert (Hk : In name (map fst results))
      by (apply (in_map fst) in Hin; exact Hin).
    apply K in Hk. destruct Hk as [Hn Hp].
    split; [exact Hn|]. split; [exact Hp|].
    apply (In_record_get _ _ _ D) in Hin.
    rewrite (G name Hn Hp) in Hin. inversion Hin. reflexivity.
  - intros name Hn Hp.
    apply (Permutation_in _ (Permutation_sym P)).
    apply record_get_In. apply G; assumption.
Qed.

Lemma prompt_modal_submits_every_prompt_witness :
  In (js "dir", js "/tmp")
     (submitted dir_and_file [(0%nat, js "/t"); (0%nat, js "/tmp")])
  /\ In (js "file", [])
        (submitted dir_and_file [(0%nat, js "/t"); (0%nat, js "/tmp")]).
Proof.
  split.
  - refine (proj2 (proj2 (prompt_modal_submits_every_prompt dir_and_file
              [(0%nat, js "/t"); (0%nat, js "/tmp")])) (js "dir") _ _).
    + left. reflexivity.
    + discriminate.
  - refine (proj2 (proj2 (prompt_modal_submits_every_prompt dir_and_file
              [(0%nat, js "/t"); (0%nat, js "/tmp")])) (js "file") _ _).
    + right. left. reflexivity.
    + discriminate.
Defined.

Lemma submitted_untouched (prompts : list PromptConfig)
      (name value : jsstring) :
  In (name, value) (submitted prompts []) ->
  In name (map prompt_name prompts) /\ value = [].
Proof.
  intros Hin.
  destruct (submitted_store prompts []) as [[D K] G]. cbn zeta in D, K, G.
  unfold submitted in Hin.
  apply (Permutation_in _ (Object_entries_perm _)) in Hin.
  assert (Hk : In name (map fst (fold_left (on_input prompts) []
                                           (PromptModal_results prompts))))
    by (apply (in_map fst) in Hin; exact Hin).
  apply K in Hk. destruct Hk as [Hn Hp]. split; [exact Hn|].
  apply (In_record_get _ _ _ D) in Hin.
  rewrite (G name Hn Hp) in Hin. inversion Hin. reflexivity.
Qed.

(** X21: when the prompt modal is submitted with nothing typed, the
    placeholder of each of its prompts, taken alone as a template, becomes
    the empty argument (two double quotes), whatever the escaper; the
    names of the prompts being ASCII text free of regular-expression
    syntax, and [__proto__] apart. *)
Theorem untouched_prompt_is_an_empty_argument
        (shescape_escape : jsstring -> completion jsstring)
        (regexp_replace_other :
           jsstring -> jsstring -> jsstring -> completion jsstring)
        (context : ParameterContext) (configured : list PromptConfig)
        (name : jsstring) :
  prompts context = Some (submitted configured []) ->
  forallb plain_keyword (map prompt_name configured) = true ->
  forallb ascii_text (map prompt_name configured) = true ->
  In name (map prompt_name configured) ->
  name <> js "__proto__" ->
  substituteParameters shescape_escape regexp_replace_other
                       (js "{prompt:" ++ name ++ js "}") context
  = Returned [dquote; dquote].
Proof.
  intros Hp Hplain _ Hin Hn.
  rewrite forallb_forall in Hplain.
  assert (Hk : no_brace (js "prompt:" ++ name) = true).
  { apply plain_no_brace. unfold plain_keyword. rewrite forallb_app.
    apply andb_true_intro. split; [reflexivity | exact (Hplain name Hin)]. }
  replace (js "{prompt:" ++ name ++ js "}")
    with (render [Braced (js "prompt:" ++ name)])
    by (simpl; rewrite app_nil_r; reflexivity).
  apply (substitute_prompt_piece shescape_escape regexp_replace_other
           context (submitted configured []) name []).
  - exact Hp.
  - destruct (submitted_store configured []) as [_ G]. cbn zeta in G.
    unfold submitted.
    apply (Permutation_in _ (Permutation_sym (Object_entries_perm _))).
    apply record_get_In. exact (G name Hin Hn).
  - intros k' v' H' _. exact (proj2 (submitted_untouched _ _ _ H')).
  - apply forallb_forall. intros [k' v'] H'. cbn [fst].
    apply Hplain. exact (proj1 (submitted_untouched _ _ _ H')).
  - reflexivity.
  - exact Hk.
  - unfold toLowerCase. rewrite map_app. reflexivity.
Qed.

Lemma untouched_prompt_is_an_empty_argument_witness :
  substituteParameters backslash_escaper no_other_regexp
    (js "{prompt:file}")
    (with_prompts (getParameterContext decode_as_is idle_app)
                  (submitted dir_and_file []))
  = Returned [dquote; dquote].
Proof.
  apply (untouched_prompt_is_an_empty_argument backslash_escaper
           no_other_regexp _ dir_and_file (js "file")).
  - reflexivity.
  - reflexivity.
  - reflexivity.
  - right. left. reflexivity.
  - discriminate.
Defined.

(** ** The buttons of the result modal *)

Ltac modal_shape changes :=
  split; [reflexivity|]; eexists changes, _;
  split; [reflexivity | split; [simpl; lia | repeat constructor]].

(** X22: the buttons Replace, Insert and Append of the result modal never
    throw: each changes at most one thing, then shows exactly one notice,
    then closes the modal (Append reports a refusal of the vault as a
    notice).  Copy does the same when the clipboard accepts the text; when
    the clipboard refuses, the handler throws having shown nothing, and the
    modal stays open. *)
Theorem modal_buttons (app : App) (text : jsstring) :
  (forall run,
     In run [modal_replaceSelection app text; modal_insertAtCursor app text;
             modal_appendToCurrentNote app text] ->
     snd run = Returned tt
     /\ exists changes message,
          fst run = map Host changes ++ [Host (Notice message None); Close]
          /\ (length changes <= 1)%nat
          /\ Forall (fun e => is_notice e = false) changes)
  /\ (clipboard_writeText app text = Returned tt ->
      modal_copyToClipboard app text
      = ([Host (ClipboardWrite text);
          Host (Notice (js "Copied to clipboard") None); Close],
         Returned tt))
  /\ (forall e, clipboard_writeText app text = Thrown e ->
        modal_copyToClipboard app text = ([], Thrown e)).
Proof.
  split; [|split].
  - intros run [<- | [<- | [<- | []]]].
    + unfold modal_replaceSelection.
      destruct (active_editor app) as [editor|];
        [destruct (truthy (getSelection editor))|].
      * modal_shape [ReplaceSelection text].
      * modal_shape (@nil Event).
      * modal_shape (@nil Event).
    + unfold modal_insertAtCursor.
      destruct (active_editor app) as [editor|].
      * modal_shape [ReplaceRange text (getCursor editor)].
      * modal_shape (@nil Event).
    + unfold modal_appendToCurrentNote.
      destruct (getActiveFile app) as [file|]; [|modal_shape (@nil Event)].
      unfold then_close, lift, emit. rewrite events_try_catch, outcome_try_catch.
      destruct (vault_read app file) as [content|]; simpl;
        [|modal_shape (@nil Event)].
      destruct (vault_modify app file _); simpl.
      * modal_shape [VaultModify file
                       (content ++ ["010"%char; "010"%char] ++ text)].
      * modal_shape (@nil Event).
  - intros H. unfold modal_copyToClipboard, then_close, lift. rewrite H.
    reflexivity.
  - intros e H. unfold modal_copyToClipboard, then_close, lift. rewrite H.
    reflexivity.
Qed.

Lemma modal_buttons_witness :
  modal_copyToClipboard clipboard_denied (js "Mon")
  = ([], Thrown (plain_error "Write permission denied."))
  /\ modal_copyToClipboard idle_app (js "Mon")
     = ([Host (ClipboardWrite (js "Mon"));
         Host (Notice (js "Copied to clipboard") None); Close],
        Returned tt)
  /\ snd (modal_appendToCurrentNote idle_app (js "Mon")) = Returned tt.
Proof.
  destruct (modal_buttons clipboard_denied (js "Mon")) as (_ & _ & T).
  destruct (modal_buttons idle_app (js "Mon")) as (B & C & _).
  split; [exact (T _ eq_refl)|]. split; [exact (C eq_refl)|].
  refine (proj1 (B (modal_appendToCurrentNote idle_app (js "Mon")) _)).
  right. right. left. reflexivity.
Defined.

(** X23: appending through the default action and through the Append
    button.  With a note open whose content can be read and written, the
    default action writes the content, one newline and the output to the
    file of the active view, while the button writes the content, two
    newlines and the text to the active file.  When the vault refuses the
    read, the default action throws the error on and nothing is written;
    the button shows a notice, closes the modal and does not throw. *)
Theorem append_action_and_append_button
        (app : App) (view : MarkdownView) (file : TFile)
        (text : jsstring) :
  getActiveView app = Some view ->
  view_file view = Some file ->
  getActiveFile app = Some file ->
  (forall content,
     vault_read app file = Returned content ->
     (forall newContent, vault_modify app file newContent = Returned tt) ->
     appendToCurrentNote app text
     = ([VaultModify file (content ++ ["010"%char] ++ text);
         Notice (js "Text appended to current note") None], Returned tt)
     /\ modal_appendToCurrentNote app text
        = ([Host (VaultModify file
                    (content ++ ["010"%char; "010"%char] ++ text));
            Host (Notice (js "Added to current note") None); Close],
           Returned tt))
  /\ (forall e,
        vault_read app file = Thrown e ->
        appendToCurrentNote app text = ([], Thrown e)
        /\ modal_appendToCurrentNote app text
           = ([Host (Notice (js "Failed to add to note") None); Close],
              Returned tt)).
Proof.
  intros V F A. unfold appendToCurrentNote, modal_appendToCurrentNote.
  rewrite V, A. destruct view as [editor vf]. cbn [view_file] in F. subst vf.
  unfold then_close, lift, emit. split.
  - intros content R W. rewrite events_try_catch, outcome_try_catch.
    rewrite R. simpl. rewrite !W. simpl. split; reflexivity.
  - intros e R. rewrite events_try_catch, outcome_try_catch.
    rewrite R. simpl. split; reflexivity.
Qed.

Lemma append_action_and_append_button_witness :
  fst (appendToCurrentNote (editing_app "" 0 0) (js "Mon"))
  = [VaultModify {| file_basename := js "note"; file_path := js "dir/note.md";
                    file_parent := Some (js "dir") |}
                 (js "content" ++ ["010"%char] ++ js "Mon");
     Notice (js "Text appended to current note") None]
  /\ fst (modal_appendToCurrentNote (editing_app "" 0 0) (js "Mon"))
     = [Host (VaultModify
                {| file_basename := js "note"; file_path := js "dir/note.md";
                   file_parent := Some (js "dir") |}
                (js "content" ++ ["010"%char; "010"%char] ++ js "Mon"));
        Host (Notice (js "Added to current note") None); Close].
Proof.
  destruct (proj1 (append_action_and_append_button (editing_app "" 0 0)
                     _ _ (js "Mon") eq_refl eq_refl eq_refl)
                  (js "content") eq_refl (fun _ => eq_refl)) as [E B].
  rewrite E, B. split; reflexivity.
Defined.

(** ** What ran can be reproduced *)

Lemma request_command_exec_request
      (settings : PluginSettings) (process : Process)
      (path_join : jsstring -> jsstring -> jsstring)
      (script : CommandScript) (cmd : jsstring) (context : ParameterContext) :
  request_command (exec_request settings process path_join script cmd context)
  = cmd.
Proof.
  unfold exec_request.
  destruct (1 <? length (getShellWithLoginFlag settings process));
    [|reflexivity].
  cbn [request_command].
  replace (tl (getShellWithLoginFlag settings process) ++ [js "-c"; cmd])
    with ((tl (getShellWithLoginFlag settings process) ++ [js "-c"]) ++ [cmd])
    by (rewrite <- app_assoc; reflexivity).
  apply last_last.
Qed.

Lemma executeCommand_child_process
      (settings : PluginSettings) (process : Process)
      (path_join : jsstring -> jsstring -> jsstring)
      (child_exec : ExecRequest -> ExecOutcome) (app : App)
      (script : CommandScript) (cmd : jsstring) (context : ParameterContext) :
  filter is_child_process
         (events (executeCommand settings process path_join child_exec app
                                 script cmd context))
  = [ChildProcess (exec_request settings process path_join script cmd
                                context)].
Proof.
  rewrite <- (filter_filter_sub is_child_process
                (fun ev => negb (is_notice ev)) _ child_process_is_no_notice).
  rewrite run_without_notices.
  destruct (child_exec _) as [stdout stderr | e]; cbn zeta.
  - destruct (background script); [reflexivity|].
    destruct (has_default_action script); [|reflexivity].
    cbn [List.app filter is_child_process]. f_equal.
    rewrite filter_app.
    rewrite (proj1 (action_events_no_child _
               (Forall_filter _ _ _ (performAction_events app _ _)))).
    destruct (outcome (performAction _ _ _)); reflexivity.
  - destruct (background script); reflexivity.
Qed.

(** C2: every result that a run of a command builds, successful or failed,
    foreground or background, belongs to a run in which the prompt was not
    cancelled and substitution returned; its originalCommand is the
    template of the script, its parameters are the context the run
    collected, and its command is the command line that was given to the
    one child process of the run, which is the result of substituting in
    the template with that context.  So substituting again in the recorded
    template with the recorded context gives exactly the recorded command,
    the command that ran.  And whenever the prompt is not cancelled and
    substitution returns, such a result is built. *)
Theorem recorded_command_is_reproducible
        (settings : PluginSettings) (process : Process)
        (shescape_escape : jsstring -> completion jsstring)
        (regexp_replace_other :
           jsstring -> jsstring -> jsstring -> completion jsstring)
        (path_join : jsstring -> jsstring -> jsstring)
        (decodeURIComponent : jsstring -> completion jsstring)
        (child_exec : ExecRequest -> ExecOutcome)
        (app app_done : App) (script : CommandScript) (answer : PromptAnswer) :
  let run := executeUserCommand settings process shescape_escape
               regexp_replace_other path_join decodeURIComponent child_exec
               app app_done script answer in
  (forall result,
     In result (results_created (events run)) ->
     exists context request,
       effective_context decodeURIComponent app script answer = Some context
       /\ originalCommand result = script_command script
       /\ parameters result = context
       /\ substituteParameters shescape_escape regexp_replace_other
                               (script_command script) context
          = Returned (command result)
       /\ filter is_child_process (events run) = [ChildProcess request]
       /\ request = exec_request settings process path_join script
                                 (command result) context
       /\ request_command request = command result
       /\ substituteParameters shescape_escape regexp_replace_other
                               (originalCommand result) (parameters result)
          = Returned (command result))
  /\ (forall context substitutedCommand,
        effective_context decodeURIComponent app script answer = Some context ->
        substituteParameters shescape_escape regexp_replace_other
                             (script_command script) context
        = Returned substitutedCommand ->
        exists result,
          In result (results_created (events run))
          /\ command result = substitutedCommand).
Proof.
  intros run. split.
  - intros result Hin.
    destruct (executeUserCommand_trace settings process shescape_escape
                regexp_replace_other path_join decodeURIComponent child_exec
                app app_done script answer) as [_ E].
    fold run in E. rewrite E in Hin |- *.
    destruct (effective_context decodeURIComponent app script answer)
      as [context|]; [|destruct Hin].
    destruct (substituteParameters shescape_escape regexp_replace_other
                (script_command script) context) as [cmd | e] eqn:S;
      [|destruct Hin].
    destruct (executeCommand_returns settings process path_join child_exec
                app_done script cmd context) as (r & _ & _ & R).
    destruct (R result Hin) as (C & O & P).
    exists context,
           (exec_request settings process path_join script cmd context).
    rewrite C, O, P.
    split; [reflexivity|]. split; [reflexivity|]. split; [reflexivity|].
    split; [exact S|].
    split; [apply executeCommand_child_process|].
    split; [reflexivity|].
    split; [apply request_command_exec_request | exact S].
  - intros context cmd Hc Hs.
    destruct (executed_command_builds_a_result settings process shescape_escape
                regexp_replace_other path_join decodeURIComponent child_exec
                app app_done script answer context cmd Hc Hs)
      as (result & Hin & C & _).
    exists result. split; [exact Hin | exact C].
Qed.

Lemma recorded_command_is_reproducible_witness :
  exists result,
    In result
       (results_created
          (events (executeUserCommand default_settings linux_process
                     backslash_escaper no_other_regexp slash_join decode_as_is
                     (child_succeeds "note.md") idle_app idle_app
                     (example_script "ls -la {vaultpath}") Cancelled)))
    /\ command result = js "ls -la /vault"
    /\ originalCommand result = js "ls -la {vaultpath}"
    /\ filter is_child_process
         (events (executeUserCommand default_settings linux_process
                    backslash_escaper no_other_regexp slash_join decode_as_is
                    (child_succeeds "note.md") idle_app idle_app
                    (example_script "ls -la {vaultpath}") Cancelled))
       = [ChildProcess
            (Exec (js "ls -la /vault")
                  {| opt_cwd := js "/vault"; opt_timeout := 30000;
                     opt_maxBuffer := 10000;
                     opt_shell := Some (js "/bin/zsh") |})].
Proof.
  destruct (recorded_command_is_reproducible default_settings linux_process
              backslash_escaper no_other_regexp slash_join decode_as_is
              (child_succeeds "note.md") idle_app idle_app
              (example_script "ls -la {vaultpath}") Cancelled) as [A B].
  destruct (B (getParameterContext decode_as_is idle_app)
              (js "ls -la /vault") eq_refl eq_refl) as (result & Hin & C).
  exists result. split; [exact Hin|]. split; [exact C|].
  destruct (A result Hin) as (context & request & Ec & O & P & S & F & Rq & _).
  split; [exact O|].
  rewrite F, Rq, C. vm_compute in Ec. inversion Ec. subst context.
  reflexivity.
Defined.

(** ** A template that is one placeholder *)

Lemma token_pass (k repl body : jsstring) :
  token k -> no_brace body = true ->
  (toLowerCase ("{"%char :: body ++ ["}"%char]) = k ->
   no_dollar_pattern repl = true) ->
  replace_all_ci k repl ("{"%char :: body ++ ["}"%char])
  = if str_eqb (toLowerCase ("{"%char :: body ++ ["}"%char])) k then repl
    else "{"%char :: body ++ ["}"%char].
Proof.
  intros Hk Hb Hd. unfold replace_all_ci.
  replace ("{"%char :: body ++ ["}"%char]) with (render [Braced body]) at 1
    by (simpl; rewrite app_nil_r; reflexivity).
  rewrite (replace_scan_pieces k repl Hk [Braced body] []).
  - cbn [map pass]. change (render_piece (Braced body))
      with ("{"%char :: body ++ ["}"%char]).
    destruct (str_eqb _ k); simpl; rewrite app_nil_r; reflexivity.
  - repeat constructor. exact Hb.
  - cbn [existsb occurrence]. rewrite orb_false_r. intros H.
    apply str_eqb_eq in H. apply Hd. exact H.
Qed.

Lemma single_token_fold
      (shescape_escape : jsstring -> completion jsstring)
      (table : record) (body v : jsstring) :
  keys_are_tokens table -> no_brace body = true ->
  record_get table (toLowerCase ("{"%char :: body ++ ["}"%char])) = Some v ->
  no_dollar_pattern (escapeShellArgument shescape_escape v) = true ->
  (forall later,
     In later (keys_after table (toLowerCase ("{"%char :: body ++ ["}"%char]))) ->
     ci_occurs later (escapeShellArgument shescape_escape v) = false) ->
  fold_left (fun s entry =>
               replace_all_ci (fst entry)
                 (escapeShellArgument shescape_escape (snd entry)) s)
            table ("{"%char :: body ++ ["}"%char])
  = escapeShellArgument shescape_escape v.
Proof.
  intros Ht Hb. induction Ht as [|[k0 v0] table Hk Ht IH]; intros G D L;
    [discriminate|].
  cbn [fold_left fst snd]. cbn [record_get keys_after] in G, L.
  destruct (str_eqb (toLowerCase ("{"%char :: body ++ ["}"%char])) k0) eqn:E.
  - inversion G; subst v0.
    rewrite token_pass by (try assumption; intros _; exact D).
    rewrite E. apply passes_leave_unchanged.
    intros k' v' Hin. apply L. apply (in_map fst) in Hin. exact Hin.
  - rewrite token_pass; try assumption.
    + rewrite E. apply IH; assumption.
    + intros H. rewrite H, str_eqb_refl in E. discriminate.
Qed.

Lemma single_placeholder_substituted
      (shescape_escape : jsstring -> completion jsstring)
      (regexp_replace_other :
         jsstring -> jsstring -> jsstring -> completion jsstring)
      (context : ParameterContext) (body v : jsstring) :
  plain_prompts context = true ->
  no_brace body = true ->
  record_get (substitutions context)
             (toLowerCase ("{"%char :: body ++ ["}"%char])) = Some v ->
  no_dollar_pattern (escapeShellArgument shescape_escape v) = true ->
  (forall later,
     In later (keys_after (substitutions context)
                 (toLowerCase ("{"%char :: body ++ ["}"%char]))) ->
     ci_occurs later (escapeShellArgument shescape_escape v) = false) ->
  substituteParameters shescape_escape regexp_replace_other
                       ("{"%char :: body ++ ["}"%char]) context
  = Returned (escapeShellArgument shescape_escape v).
Proof.
  intros Hplain Hb G D L. unfold substituteParameters.
  rewrite substitute_passes by (apply substitutions_tokens, Hplain).
  rewrite (single_token_fold shescape_escape _ body v); try assumption;
    [reflexivity | apply substitutions_tokens, Hplain].
Qed.

Lemma lower_prompt_token (k : jsstring) :
  toLowerCase ("{"%char :: (js "prompt:" ++ k) ++ ["}"%char])
  = prompt_placeholder k.
Proof.
  unfold prompt_placeholder, toLowerCase. simpl. rewrite !map_app.
  reflexivity.
Qed.

(** X26: for every context whose prompts mapping contains keyword k with
    value v, where the prompt keywords are ASCII text free of
    regular-expression syntax, no other entry whose keyword equals k up to
    letter case has a different value, and the escaped form of v contains
    no replacement pattern ($$, $&, $`, $') and no occurrence of a
    placeholder registered after {prompt:k}, substituting the template
    consisting solely of the token {prompt:k} yields exactly the escaped
    form of v, and so does the upper-cased template.  The escaped form may
    contain braces, and placeholders registered before {prompt:k}, the
    fixed ones among them. *)
Theorem prompt_token_substitution
        (shescape_escape : jsstring -> completion jsstring)
        (regexp_replace_other :
           jsstring -> jsstring -> jsstring -> completion jsstring)
        (context : ParameterContext)
        (entries : list (jsstring * jsstring)) (k v : jsstring) :
  prompts context = Some entries ->
  In (k, v) entries ->
  (forall k' v', In (k', v') entries ->
                 toLowerCase k' = toLowerCase k -> v' = v) ->
  plain_prompts context = true ->
  ascii_prompts context = true ->
  no_dollar_pattern (escapeShellArgument shescape_escape v) = true ->
  (forall later,
     In later (keys_after (substitutions context) (prompt_placeholder k)) ->
     ci_occurs later (escapeShellArgument shescape_escape v) = false) ->
  substituteParameters shescape_escape regexp_replace_other
                       (js "{prompt:" ++ k ++ js "}") context
  = Returned (escapeShellArgument shescape_escape v)
  /\ substituteParameters shescape_escape regexp_replace_other
                          (toUpperCase (js "{prompt:" ++ k ++ js "}")) context
     = Returned (escapeShellArgument shescape_escape v).
Proof.
  intros Hp Hin Hu Hplain _ D L.
  assert (Hk : no_brace (js "prompt:" ++ k) = true).
  { apply plain_no_brace. unfold plain_keyword. rewrite forallb_app.
    unfold plain_prompts in Hplain. rewrite Hp, forallb_forall in Hplain.
    apply (Hplain (k, v) Hin). }
  assert (G : record_get (substitutions context) (prompt_placeholder k)
              = Some v).
  { unfold substitutions. rewrite Hp. apply record_get_prompt; assumption. }
  split.
  - change (js "{prompt:" ++ k ++ js "}")
      with ("{"%char :: (js "prompt:" ++ k) ++ ["}"%char]).
    apply single_placeholder_substituted; try assumption;
      rewrite lower_prompt_token; assumption.
  - replace (toUpperCase (js "{prompt:" ++ k ++ js "}"))
      with ("{"%char :: toUpperCase (js "prompt:" ++ k) ++ ["}"%char])
      by (unfold toUpperCase; simpl; rewrite !map_app; reflexivity).
    assert (E : toLowerCase ("{"%char :: toUpperCase (js "prompt:" ++ k)
                                ++ ["}"%char])
                = prompt_placeholder k).
    { rewrite <- lower_prompt_token.
      change (toLowerCase (render_piece
                             (Braced (toUpperCase (js "prompt:" ++ k))))
              = toLowerCase (render_piece (Braced (js "prompt:" ++ k)))).
      rewrite !lower_braced, toLowerCase_upper. reflexivity. }
    apply single_placeholder_substituted; try assumption;
      [rewrite no_brace_upper; exact Hk | rewrite E; exact G
       | rewrite E; exact L].
Qed.

Lemma prompt_token_substitution_witness :
  (substituteParameters backslash_escaper no_other_regexp
                        (js "{prompt:File}") two_prompts
   = Returned (js "notes.txt")
   /\ substituteParameters backslash_escaper no_other_regexp
                           (js "{PROMPT:FILE}") two_prompts
      = Returned (js "notes.txt"))
  /\ substituteParameters backslash_escaper no_other_regexp
                          (js "{prompt:dir}")
                          prompt_naming_a_fixed_placeholder
     = Returned (js "\{vaultpath}").
Proof.
  split.
  - refine (prompt_token_substitution backslash_escaper no_other_regexp
              two_prompts
              [(js "File", js "notes.txt"); (js "dir", js "/tmp")]
              (js "File") (js "notes.txt") eq_refl _ _ eq_refl eq_refl
              eq_refl _).
    + left. reflexivity.
    + intros k' v' [H | [H | []]] E; injection H as <- <-;
        [reflexivity | discriminate].
    + intros later H. vm_compute in H. destruct H as [<- | []]. reflexivity.
  - refine (proj1 (prompt_token_substitution backslash_escaper no_other_regexp
              prompt_naming_a_fixed_placeholder
              [(js "dir", js "{vaultpath}")]
              (js "dir") (js "{vaultpath}") eq_refl _ _ eq_refl eq_refl
              eq_refl _)).
    + left. reflexivity.
    + intros k' v' [H | []] E; injection H as <- <-. reflexivity.
    + intros later H. vm_compute in H. destruct H.
Defined.

(** ** The documented parameters *)

Lemma fixed_placeholder_substituted
      (shescape_escape : jsstring -> completion jsstring)
      (regexp_replace_other :
         jsstring -> jsstring -> jsstring -> completion jsstring)
      (context : ParameterContext) (body value : jsstring) :
  plain_prompts context = true ->
  no_brace body = true ->
  In (toLowerCase ("{"%char :: body ++ ["}"%char]), value)
     (fixed_substitutions context) ->
  no_dollar_pattern (escapeShellArgument shescape_escape value) = true ->
  (forall later,
     In later (keys_after (substitutions context)
                 (toLowerCase ("{"%char :: body ++ ["}"%char]))) ->
     ci_occurs later (escapeShellArgument shescape_escape value) = false) ->
  substituteParameters shescape_escape regexp_replace_other
                       ("{"%char :: body ++ ["}"%char]) context
  = Returned (escapeShellArgument shescape_escape value).
Proof.
  intros Hplain Hb Hin D L.
  destruct (fixed_entry_lookup context _ _ Hin) as [G Hnp].
  apply single_placeholder_substituted; try assumption.
  rewrite (record_get_fixed context _ Hnp). exact G.
Qed.

Lemma prompt_keys (entries : list (jsstring * jsstring)) (o : record)
      (key : jsstring) :
  In key (map fst (fold_left add_prompt entries o))
  <-> In key (map fst o)
      \/ exists keyword value,
           In (keyword, value) entries /\ key = prompt_placeholder keyword.
Proof.
  revert o. induction entries as [|[k v] entries IH]; intros o;
    cbn [fold_left].
  - split; [intros H; left; exact H|].
    intros [H | (keyword & value & [] & _)]. exact H.
  - rewrite IH. unfold add_prompt. cbn [fst snd].
    rewrite record_set_keys. split.
    + intros [[-> | H] | (keyword & value & Hin & E)].
      * right. exists k, v. split; [left; reflexivity | reflexivity].
      * left. exact H.
      * right. exists keyword, value. split; [right; exact Hin | exact E].
    + intros [H | (keyword & value & [Hin | Hin] & E)].
      * left. right. exact H.
      * inversion Hin; subst. left. left. reflexivity.
      * right. exists keyword, value. split; assumption.
Qed.

Lemma prompt_name_key (keyword : jsstring) :
  js "{prompt:name}" = prompt_placeholder keyword
  <-> toLowerCase keyword = js "name".
Proof.
  unfold prompt_placeholder. split.
  - intros H. simpl in H. injection H as H.
    symmetry. exact (proj1 (app_inj_tail (js "name") _ _ _ H)).
  - intros ->. reflexivity.
Qed.

(** X4: the help modal documents eleven parameters: the ten fixed
    placeholders, in the order of the substitution table, whose keys are
    exactly their lower-case forms, and last the entry {prompt:name}, which
    is no key of the fixed table: it is a registered placeholder exactly
    when the context has a prompt whose keyword is name up to letter case.
    Each of the ten, written as documented and taken alone as a template,
    is replaced by the escaped form of its value, when the prompt keywords
    are ASCII text free of regular-expression syntax and that escaped form
    contains no replacement pattern ($$, $&, $`, $') and no occurrence of a
    placeholder registered after it. *)
Theorem documented_parameters_are_recognised
        (shescape_escape : jsstring -> completion jsstring)
        (regexp_replace_other :
           jsstring -> jsstring -> jsstring -> completion jsstring)
        (context : ParameterContext) :
  length documented_parameters = 11%nat
  /\ map toLowerCase (removelast documented_parameters)
     = map fst (fixed_substitutions context)
  /\ last documented_parameters [] = js "{prompt:name}"
  /\ ~ In (js "{prompt:name}") (map fst (fixed_substitutions context))
  /\ (ascii_prompts context = true ->
      (In (js "{prompt:name}") (map fst (substitutions context))
       <-> exists entries keyword value,
             prompts context = Some entries
             /\ In (keyword, value) entries
             /\ toLowerCase keyword = js "name"))
  /\ forall name,
       In name (removelast documented_parameters) ->
       exists value,
         In (toLowerCase name, value) (fixed_substitutions context)
         /\ (plain_prompts context = true ->
             ascii_prompts context = true ->
             no_dollar_pattern (escapeShellArgument shescape_escape value)
             = true ->
             (forall later,
                In later (keys_after (substitutions context)
                                     (toLowerCase name)) ->
                ci_occurs later (escapeShellArgument shescape_escape value)
                = false) ->
             substituteParameters shescape_escape regexp_replace_other name
                                  context
             = Returned (escapeShellArgument shescape_escape value)).
Proof.
  assert (F : ~ In (js "{prompt:name}") (map fst (fixed_substitutions context))).
  { simpl. intros H.
    repeat (destruct H as [H | H]; [discriminate|]). exact H. }
  split; [reflexivity|]. split; [reflexivity|]. split; [reflexivity|].
  split; [exact F|]. split.
  - intros _. unfold substitutions.
    destruct (prompts context) as [entries|].
    + rewrite prompt_keys. split.
      * intros [H | (keyword & value & Hin & E)]; [contradiction|].
        exists entries, keyword, value.
        split; [reflexivity|]. split; [exact Hin|].
        apply prompt_name_key. exact E.
      * intros (entries' & keyword & value & E & Hin & L).
        inversion E; subst entries'. right. exists keyword, value.
        split; [exact Hin | apply prompt_name_key; exact L].
    + split; [intros H; contradiction|].
      intros (entries & keyword & value & E & _). discriminate.
  - intros name H. cbn in H.
    repeat (destruct H as [H | H];
            [subst name; eexists; split;
             [unfold fixed_substitutions; find_entry
             | intros Hp _ D L;
               match goal with
               | |- substituteParameters _ _ ?p _ = _ =>
                   apply (fixed_placeholder_substituted shescape_escape
                            regexp_replace_other context (removelast (tl p)));
                   [exact Hp | reflexivity
                    | unfold fixed_substitutions; find_entry
                    | exact D | exact L]
               end]|]).
    destruct H.
Qed.

Lemma documented_parameters_are_recognised_witness :
  substituteParameters backslash_escaper no_other_regexp
                       (js "{vaultPath}") prompt_naming_a_fixed_placeholder
  = Returned (js "/vault")
  /\ (In (js "{prompt:name}") (map fst (substitutions two_prompts)) -> False).
Proof.
  destruct (documented_parameters_are_recognised backslash_escaper
              no_other_regexp prompt_naming_a_fixed_placeholder)
    as (_ & _ & _ & _ & _ & S).
  destruct (documented_parameters_are_recognised backslash_escaper
              no_other_regexp two_prompts) as (_ & _ & _ & _ & P & _).
  split.
  - destruct (S (js "{vaultPath}")) as (value & Hin & Sub).
    + cbn. do 5 right. left. reflexivity.
    + assert (E : value = js "/vault").
      { exact (fixed_entry_unique _ _ _ _
                 (or_intror (or_intror (or_intror (or_intror (or_intror
                    (or_introl eq_refl)))))) Hin). }
      subst value. apply Sub; try reflexivity.
      intros later H. vm_compute in H.
      repeat (destruct H as [H | H]; [subst later; reflexivity|]).
      destruct H.
  - intros H. apply (P eq_refl) in H.
    destruct H as (entries & keyword & value & E & Hin & L).
    inversion E; subst entries.
    destruct Hin as [Hin | [Hin | []]]; inversion Hin; subst; discriminate.
Defined.


